(** * Detection and scoring engine of the campaign monitor

    A shallow embedding of the scoring and coordination code of
    [campaign_detector.py], [engagement_analyzer.py] and
    [enhanced_keyword_database.py], followed by the properties that the
    design document states about it.

    Conventions.
    - Python [str] is [string]; case folding and whitespace splitting are the
      ASCII fragments of [str.lower] and [str.split].
    - Python numbers that may be fractional (severities, sentiment, scores)
      are exact rationals [Q]; counters and engagement figures are [Z].
    - A [dict] that is iterated is an association list in insertion order; a
      [set] is a [gset]; a [dict] that is only looked up is a [gmap].
    - SQLite tables are lists of rows in rowid order together with the
      AUTOINCREMENT sequence value.
    - Exceptions are carried by [result]. *)

From Stdlib Require Import QArith Qabs Ascii.
From stdpp Require Import gmap strings list pretty.

#[local] Set Warnings "-clear-no-such-hyp".

Local Open Scope Z_scope.

(** ** Python exceptions *)

Inductive result (A : Type) : Type :=
| Ok (a : A)
| Raise (exn : string).
Arguments Ok {A} a.
Arguments Raise {A} exn.

#[global] Instance result_ret : MRet result := fun _ a => Ok a.
#[global] Instance result_bind : MBind result := fun _ _ k r =>
  match r with
  | Ok a => k a
  | Raise e => Raise e
  end.

#[global] Instance result_fmap : FMap result := fun _ _ f r =>
  match r with
  | Ok a => Ok (f a)
  | Raise e => Raise e
  end.

Fixpoint concat_mapM {A B} (f : A -> result (list B)) (l : list A)
  : result (list B) :=
  match l with
  | [] => Ok []
  | x :: l' =>
      ys ← f x;
      zs ← concat_mapM f l';
      Ok (ys ++ zs)
  end.

(** ** Python string operations *)

Module Text.

Definition is_upper (c : ascii) : bool :=
  let n := nat_of_ascii c in (65 <=? n)%nat && (n <=? 90)%nat.

Definition lower_char (c : ascii) : ascii :=
  if is_upper c then ascii_of_nat (nat_of_ascii c + 32) else c.

(** [s.lower()] *)
Fixpoint lower (s : string) : string :=
  match s with
  | EmptyString => EmptyString
  | String c s' => String (lower_char c) (lower s')
  end.

(** The characters [str.split()] treats as separators. *)
Definition is_space (c : ascii) : bool :=
  let n := nat_of_ascii c in
  ((9 <=? n)%nat && (n <=? 13)%nat)
  || ((28 <=? n)%nat && (n <=? 32)%nat).

(** [split_aux cur s]: [cur] is the token being read, reversed. *)
Fixpoint split_aux (cur : list ascii) (s : string) : list string :=
  let flush (k : list string) :=
    match cur with
    | [] => k
    | _ => String.string_of_list_ascii (rev cur) :: k
    end in
  match s with
  | EmptyString => flush []
  | String c s' =>
      if is_space c then flush (split_aux [] s')
      else split_aux (c :: cur) s'
  end.

(** [s.split()] *)
Definition split (s : string) : list string := split_aux [] s.

(** [needle in hay] *)
Fixpoint contains (needle hay : string) : bool :=
  String.prefix needle hay
  || match hay with
     | EmptyString => false
     | String _ hay' => contains needle hay'
     end.

(** [s[:n]] *)
Fixpoint take (n : nat) (s : string) : string :=
  match n, s with
  | O, _ => EmptyString
  | S _, EmptyString => EmptyString
  | S n', String c s' => String c (take n' s')
  end.


End Text.

(** ** Generic list helpers *)

(** [sorted(l, key=..., reverse=True)] and SQL [ORDER BY k DESC] over rows in
    rowid order: a stable descending sort.  [lt a b] says that the key of
    [a] is strictly below the key of [b]. *)
Section StableSort.
Context {A : Type} (lt : A -> A -> bool).

Fixpoint insert_desc (x : A) (l : list A) : list A :=
  match l with
  | [] => [x]
  | y :: l' => if lt x y then y :: insert_desc x l' else x :: y :: l'
  end.

Definition sort_desc (l : list A) : list A := foldr insert_desc [] l.
End StableSort.

Definition Qltb (x y : Q) : bool := negb (Qle_bool y x).

(** [d[k].append(v)] on a [defaultdict(list)], keys in insertion order. *)
Fixpoint dict_append {K V} `{EqDecision K} (k : K) (v : V)
    (d : list (K * list V)) : list (K * list V) :=
  match d with
  | [] => [(k, [v])]
  | (k', vs) :: d' =>
      if decide (k = k') then (k', vs ++ [v]) :: d'
      else (k', vs) :: dict_append k v d'
  end.

(** [f(d[k])] in place on a [defaultdict] whose factory yields [dflt]. *)
Fixpoint dict_update {K V} `{EqDecision K} (k : K) (f : V -> V) (dflt : V)
    (d : list (K * V)) : list (K * V) :=
  match d with
  | [] => [(k, f dflt)]
  | (k', v) :: d' =>
      if decide (k = k') then (k', f v) :: d'
      else (k', v) :: dict_update k f dflt d'
  end.

Definition Qsum (l : list Q) : Q := foldr Qplus 0%Q l.
Definition Zsum (l : list Z) : Z := foldr Z.add 0 l.


(** ** campaign_detector.py: data model *)

(** [datetime]: the calendar date is kept as its proleptic ordinal
    ([date.toordinal()]), the time of day field by field. *)
Record datetime := {
  dt_date : Z;
  dt_hour : Z;
  dt_minute : Z;
  dt_second : Z;
  dt_microsecond : Z
}.

#[global] Instance datetime_eq_dec : EqDecision datetime.
Proof. solve_decision. Defined.

(** Microseconds since the start of ordinal day 0; the order [max] and [min]
    use and the quantity a [timedelta] holds. *)
Definition dt_micros (t : datetime) : Z :=
  (((dt_date t * 24 + dt_hour t) * 60 + dt_minute t) * 60 + dt_second t)
  * 1000000 + dt_microsecond t.

Record CampaignContent := {
  cc_id : string;
  platform : string;
  content : string;
  author : string;
  timestamp : datetime;
  engagement : gmap string Z;
  cc_hashtags : list string;
  mentions : list string;
  url : string;
  cc_sentiment_score : Q;
  cc_threat_level : string;
  keywords_matched : list string
}.

(** The three shapes of dictionary the coordination detectors append. *)
Inductive campaign :=
| HashtagCoordination (hashtag : string) (accounts_involved : list string)
    (post_count : nat) (time_span : Z) (platforms : list string)
    (threat_level : string)
| ContentSimilarity (similar_posts : nat) (accounts_involved : list string)
    (content_template : string) (platforms : list string)
    (threat_level : string)
| TimingCoordination (time_window : datetime) (posts_in_window : nat)
    (accounts_involved : list string) (platforms : list string)
    (threat_level : string).

Module CoordinatedCampaignDetector.

Definition similarity_threshold : Q := 8 # 10.

(** [set(content.lower().split())] *)
Definition words (s : string) : gset string :=
  list_to_set (Text.split (Text.lower s)).

Definition _calculate_content_similarity (content1 content2 : string) : Q :=
  let words1 := words content1 in
  let words2 := words content2 in
  let intersection := size (words1 ∩ words2) in
  let union := size (words1 ∪ words2) in
  if (0 <? union)%nat
  then Z.of_nat intersection # Pos.of_nat union
  else 0%Q.

Definition threat_scores (level : string) : option Z :=
  if String.eqb level "LOW" then Some 1
  else if String.eqb level "MEDIUM" then Some 2
  else if String.eqb level "HIGH" then Some 3
  else if String.eqb level "CRITICAL" then Some 4
  else None.

(** [threat_scores.get(c.threat_level, 1)] *)
Definition member_score (c : CampaignContent) : Z :=
  default 1 (threat_scores (cc_threat_level c)).

Definition _calculate_campaign_threat_level (contents : list CampaignContent)
  : result string :=
  match contents with
  | [] => Raise "ZeroDivisionError"
  | _ =>
      let avg_score :=
        (inject_Z (Zsum (member_score <$> contents))
         / inject_Z (Z.of_nat (length contents)))%Q in
      if Qle_bool (35 # 10) avg_score then Ok "CRITICAL"
      else if Qle_bool (25 # 10) avg_score then Ok "HIGH"
      else if Qle_bool (15 # 10) avg_score then Ok "MEDIUM"
      else Ok "LOW"
  end.

(** [max(timestamps) - min(timestamps)]: the [timedelta], in microseconds,
    before [str] renders it. *)
Definition _calculate_time_span (contents : list CampaignContent)
  : result Z :=
  match dt_micros ∘ timestamp <$> contents with
  | [] => Raise "ValueError"
  | t :: ts => Ok (foldr Z.max t ts - foldr Z.min t ts)
  end.

Definition unique_authors (cs : list CampaignContent) : gset string :=
  list_to_set (author <$> cs).

Definition unique_platforms (cs : list CampaignContent) : gset string :=
  list_to_set (platform <$> cs).

(** *** Hashtag synchrony *)

Definition hashtag_usage (contents : list CampaignContent)
  : list (string * list CampaignContent) :=
  foldl (fun usage c =>
           foldl (fun usage hashtag => dict_append (Text.lower hashtag) c usage)
                 usage (cc_hashtags c))
        [] contents.

Definition hashtag_campaign (entry : string * list CampaignContent)
  : result (list campaign) :=
  let '(hashtag, hashtag_contents) := entry in
  if (5 <=? length hashtag_contents)%nat then
    let authors := unique_authors hashtag_contents in
    if (3 <=? size authors)%nat then
      span ← _calculate_time_span hashtag_contents;
      level ← _calculate_campaign_threat_level hashtag_contents;
      Ok [HashtagCoordination hashtag (elements authors)
            (length hashtag_contents) span
            (elements (unique_platforms hashtag_contents)) level]
    else Ok []
  else Ok [].

Definition _detect_hashtag_coordination (contents : list CampaignContent)
  : result (list campaign) :=
  concat_mapM hashtag_campaign (hashtag_usage contents).

(** *** Content similarity *)

(** The inner loop over [enumerate(contents[i+1:], i+1)]: [j] is the
    position of the head of [rest]; [similar] holds the absorbed items
    with the positions [enumerate] gave them. *)
Fixpoint absorb (content1 : CampaignContent) (j : nat)
    (rest : list CampaignContent) (similar : list (nat * CampaignContent))
    (processed : gset nat) : list (nat * CampaignContent) * gset nat :=
  match rest with
  | [] => (similar, processed)
  | content2 :: rest' =>
      if decide (j ∈ processed) then
        absorb content1 (S j) rest' similar processed
      else if Qltb similarity_threshold
                (_calculate_content_similarity (content content1)
                                               (content content2))
      then absorb content1 (S j) rest' (similar ++ [(j, content2)])
                  ({[j]} ∪ processed)
      else absorb content1 (S j) rest' similar processed
  end.

(** The body of [if len(similar_contents) >= 3: ...]. *)
Definition similarity_campaign (content1 : CampaignContent)
    (similar_contents : list CampaignContent) : result (option campaign) :=
  if (3 <=? length similar_contents)%nat then
    let authors := unique_authors similar_contents in
    if (2 <=? size authors)%nat then
      level ← _calculate_campaign_threat_level similar_contents;
      Ok (Some (ContentSimilarity (length similar_contents)
                  (elements authors) (Text.take 200 (content content1))
                  (elements (unique_platforms similar_contents)) level))
    else Ok None
  else Ok None.

(** The outer loop over [enumerate(contents)]: [i] is the position of the
    head of [rest], whose tail is [contents[i+1:]]. *)
Fixpoint similarity_loop (i : nat) (rest : list CampaignContent)
    (campaigns : list campaign) (processed : gset nat)
  : result (list campaign * gset nat) :=
  match rest with
  | [] => Ok (campaigns, processed)
  | content1 :: rest' =>
      if decide (i ∈ processed) then
        similarity_loop (S i) rest' campaigns processed
      else
        let '(similar, processed1) :=
          absorb content1 (S i) rest' [(i, content1)] processed in
        reported ← similarity_campaign content1 (similar.*2);
        match reported with
        | Some c =>
            similarity_loop (S i) rest' (campaigns ++ [c])
                            ({[i]} ∪ processed1)
        | None => similarity_loop (S i) rest' campaigns processed1
        end
  end.

Definition _detect_content_similarity (contents : list CampaignContent)
  : result (list campaign) :=
  fst <$> similarity_loop 0 contents [] ∅.

(** The groups the outer loop forms, one per seed, reported or not:
    [similar_contents] with the positions of its items (seed first) and
    whether the group met the reporting thresholds.  A record of the run,
    used to state which items a reported cluster holds; the campaign
    dictionaries themselves carry only counts. *)
Record cluster := {
  similar : list (nat * CampaignContent);
  reported : bool
}.

Definition members (cl : cluster) : list nat := (similar cl).*1.

Fixpoint similarity_clusters (i : nat) (rest : list CampaignContent)
    (processed : gset nat) : list cluster * gset nat :=
  match rest with
  | [] => ([], processed)
  | content1 :: rest' =>
      if decide (i ∈ processed) then
        similarity_clusters (S i) rest' processed
      else
        let '(similar, processed1) :=
          absorb content1 (S i) rest' [(i, content1)] processed in
        let rep :=
          (3 <=? length similar)%nat
          && (2 <=? size (unique_authors (similar.*2)))%nat in
        let '(cls, final) :=
          similarity_clusters (S i) rest'
            (if rep then {[i]} ∪ processed1 else processed1) in
        ({| similar := similar; reported := rep |} :: cls, final)
  end.

(** *** Posting-time synchrony *)

(** [timestamp.replace(minute=0, second=0, microsecond=0)] *)
Definition hour_key (t : datetime) : datetime :=
  {| dt_date := dt_date t; dt_hour := dt_hour t;
     dt_minute := 0; dt_second := 0; dt_microsecond := 0 |}.

Definition hour_groups (contents : list CampaignContent)
  : list (datetime * list CampaignContent) :=
  foldl (fun groups c => dict_append (hour_key (timestamp c)) c groups)
        [] contents.

Definition timing_campaign (entry : datetime * list CampaignContent)
  : result (list campaign) :=
  let '(hour, hour_contents) := entry in
  if (5 <=? length hour_contents)%nat then
    let authors := unique_authors hour_contents in
    if (3 <=? size authors)%nat then
      level ← _calculate_campaign_threat_level hour_contents;
      Ok [TimingCoordination hour (length hour_contents) (elements authors)
            (elements (unique_platforms hour_contents)) level]
    else Ok []
  else Ok [].

Definition _detect_timing_coordination (contents : list CampaignContent)
  : result (list campaign) :=
  concat_mapM timing_campaign (hour_groups contents).

(** *** Driver *)

(** [timestamp.replace(hour=0, minute=0, second=0)]: the microsecond
    field is left as it is. *)
Definition time_key (t : datetime) : datetime :=
  {| dt_date := dt_date t; dt_hour := 0;
     dt_minute := 0; dt_second := 0;
     dt_microsecond := dt_microsecond t |}.

Definition time_grouped (contents : list CampaignContent)
  : list (datetime * list CampaignContent) :=
  foldl (fun groups c => dict_append (time_key (timestamp c)) c groups)
        [] contents.

Definition window_campaigns (entry : datetime * list CampaignContent)
  : result (list campaign) :=
  let time_contents := entry.2 in
  if (length time_contents <? 3)%nat then Ok []
  else
    hashtag_campaigns ← _detect_hashtag_coordination time_contents;
    similarity_campaigns ← _detect_content_similarity time_contents;
    timing_campaigns ← _detect_timing_coordination time_contents;
    Ok (hashtag_campaigns ++ similarity_campaigns ++ timing_campaigns).

Definition detect_coordinated_campaigns (contents : list CampaignContent)
  : result (list campaign) :=
  concat_mapM window_campaigns (time_grouped contents).

End CoordinatedCampaignDetector.

(** ** campaign_detector.py: the rule store and the scorer *)

(** The collaborators outside the repository: Python's [re] module
    ([re.compile(p, flags).findall(s)], each match a tuple of groups) and
    TextBlob's polarity, which may raise. *)
Class Collaborators := {
  re_findall : string -> bool -> string -> list (list string);
  polarity : string -> option Q
}.

Module KeywordDatabase.

Record keyword_row := {
  kw_id : Z;
  kw_keyword : string;
  kw_category : string;
  kw_severity : Q;
  kw_detection_count : Z;
  kw_last_detected : option Z;
  kw_created_at : Z;
  kw_is_active : bool
}.

Record hashtag_row := {
  ht_id : Z;
  ht_hashtag : string;
  ht_category : string;
  ht_severity : Q;
  ht_detection_count : Z;
  ht_last_detected : option Z;
  ht_created_at : Z
}.

Record pattern_row := {
  pt_id : Z;
  pt_pattern : string;
  pt_description : string;
  pt_severity : Q;
  pt_detection_count : Z;
  pt_created_at : Z
}.

(** The database file: three tables in rowid order and their
    [sqlite_sequence] entries. *)
Record t := {
  keywords : list keyword_row;
  keywords_seq : Z;
  hashtags : list hashtag_row;
  hashtags_seq : Z;
  phrase_patterns : list pattern_row;
  patterns_seq : Z
}.

(** [init_database] on a fresh file. *)
Definition init_database : t :=
  {| keywords := []; keywords_seq := 0;
     hashtags := []; hashtags_seq := 0;
     phrase_patterns := []; patterns_seq := 0 |}.

Definition new_keyword (id : Z) (keyword category : string) (severity : Q)
    (now : Z) : keyword_row :=
  {| kw_id := id; kw_keyword := keyword; kw_category := category;
     kw_severity := severity; kw_detection_count := 0;
     kw_last_detected := None; kw_created_at := now;
     kw_is_active := true |}.

Definition new_hashtag (id : Z) (hashtag category : string) (severity : Q)
    (now : Z) : hashtag_row :=
  {| ht_id := id; ht_hashtag := hashtag; ht_category := category;
     ht_severity := severity; ht_detection_count := 0;
     ht_last_detected := None; ht_created_at := now |}.

Definition new_pattern (id : Z) (pattern description : string)
    (severity : Q) (now : Z) : pattern_row :=
  {| pt_id := id; pt_pattern := pattern; pt_description := description;
     pt_severity := severity; pt_detection_count := 0;
     pt_created_at := now |}.

Definition has_keyword (db : t) (keyword : string) : bool :=
  existsb (fun r => String.eqb (kw_keyword r) keyword) (keywords db).

Definition has_hashtag (db : t) (hashtag : string) : bool :=
  existsb (fun r => String.eqb (ht_hashtag r) hashtag) (hashtags db).

(** [INSERT OR IGNORE INTO keywords (keyword, category, severity)] *)
Definition insert_or_ignore_keyword (now : Z) (db : t)
    (rule : string * string * Q) : t :=
  let '(keyword, category, severity) := rule in
  if has_keyword db keyword then db
  else
    {| keywords := keywords db
         ++ [new_keyword (keywords_seq db + 1) keyword category severity now];
       keywords_seq := keywords_seq db + 1;
       hashtags := hashtags db; hashtags_seq := hashtags_seq db;
       phrase_patterns := phrase_patterns db;
       patterns_seq := patterns_seq db |}.

(** [INSERT OR IGNORE INTO hashtags (hashtag, category, severity)] *)
Definition insert_or_ignore_hashtag (now : Z) (db : t)
    (rule : string * string * Q) : t :=
  let '(hashtag, category, severity) := rule in
  if has_hashtag db hashtag then db
  else
    {| keywords := keywords db; keywords_seq := keywords_seq db;
       hashtags := hashtags db
         ++ [new_hashtag (hashtags_seq db + 1) hashtag category severity now];
       hashtags_seq := hashtags_seq db + 1;
       phrase_patterns := phrase_patterns db;
       patterns_seq := patterns_seq db |}.

(** [INSERT OR IGNORE INTO phrase_patterns (pattern, description,
    severity)]: the table has no uniqueness constraint to conflict with. *)
Definition insert_or_ignore_pattern (now : Z) (db : t)
    (rule : string * string * Q) : t :=
  let '(pattern, description, severity) := rule in
  {| keywords := keywords db; keywords_seq := keywords_seq db;
     hashtags := hashtags db; hashtags_seq := hashtags_seq db;
     phrase_patterns := phrase_patterns db
       ++ [new_pattern (patterns_seq db + 1) pattern description severity now];
     patterns_seq := patterns_seq db + 1 |}.

Definition initial_keywords : list (string * string * Q) :=
  [ ("anti India", "direct_hate", 9%Q);
    ("hate India", "direct_hate", 9%Q);
    ("India terrorist", "disinformation", 8%Q);
    ("fascist India", "political_hate", 8%Q);
    ("boycott India", "economic_warfare", 7%Q);
    ("India occupation", "territorial_dispute", 7%Q);
    ("Modi dictator", "political_hate", 6%Q);
    ("BJP terrorist", "political_hate", 8%Q);
    ("Hindu terrorism", "religious_hate", 9%Q);
    ("India genocide", "disinformation", 9%Q);
    ("Hindutva fascism", "religious_hate", 8%Q);
    ("Kashmir freedom", "separatist", 6%Q);
    ("Kashmir liberation", "separatist", 7%Q);
    ("Indian occupied Kashmir", "territorial_dispute", 8%Q);
    ("Kashmir resistance", "separatist", 6%Q);
    ("Free Kashmir from India", "separatist", 8%Q);
    ("boycott Indian products", "economic_warfare", 6%Q);
    ("ban Indian goods", "economic_warfare", 6%Q);
    ("India economic terrorism", "disinformation", 7%Q);
    ("India fake news", "meta_disinformation", 5%Q);
    ("Indian propaganda", "meta_disinformation", 5%Q);
    ("Bollywood propaganda", "cultural_warfare", 4%Q);
    ("India Pakistan war", "conflict_incitement", 6%Q);
    ("India China conflict", "conflict_incitement", 6%Q);
    ("India Bangladesh tension", "regional_destabilization", 5%Q);
    ("Islamophobia India", "religious_hate", 7%Q);
    ("persecution Muslims India", "religious_hate", 8%Q);
    ("minority oppression India", "religious_hate", 7%Q) ].

Definition initial_hashtags : list (string * string * Q) :=
  [ ("#AntiIndia", "direct_hate", 8%Q);
    ("#BoycottIndia", "economic_warfare", 7%Q);
    ("#KashmirFreedom", "separatist", 6%Q);
    ("#ModiTerrorist", "political_hate", 8%Q);
    ("#IndianTerrorism", "disinformation", 9%Q);
    ("#HindutvaFascism", "religious_hate", 8%Q);
    ("#FreeKashmir", "separatist", 7%Q);
    ("#IndianOccupation", "territorial_dispute", 8%Q);
    ("#BJPTerrorism", "political_hate", 8%Q);
    ("#StopIndianTerror", "disinformation", 8%Q) ].

Definition initial_patterns : list (string * string * Q) :=
  [ ("India (is|are) (terrorist|terrorism)",
     "India terrorism accusation", 9%Q);
    ("boycott (all )?Indian? (products?|goods?)",
     "Economic boycott call", 7%Q);
    ("(free|liberate) Kashmir from India", "Kashmir separatism", 8%Q);
    ("Modi (is|the) (dictator|fascist|terrorist)",
     "Political character assassination", 7%Q);
    ("Hindu(tva)? (terrorism|terrorist|fascis)", "Religious hatred", 9%Q);
    ("India commit(s|ted|ting) genocide", "Genocide accusation", 9%Q);
    ("Pakistan (will )?defeat India", "Conflict incitement", 6%Q);
    ("India (fake|false) (news|propaganda)", "Meta disinformation", 5%Q) ].

Definition load_initial_keywords (db : t) (now : Z) : t :=
  let db1 := foldl (insert_or_ignore_keyword now) db initial_keywords in
  let db2 := foldl (insert_or_ignore_hashtag now) db1 initial_hashtags in
  foldl (insert_or_ignore_pattern now) db2 initial_patterns.

(** [KeywordDatabase(db_path)] on a fresh file. *)
Definition create (now : Z) : t := load_initial_keywords init_database now.

(** [INSERT OR REPLACE INTO keywords (keyword, category, severity)] with
    the keyword lower-cased: a conflicting row is deleted and a new row is
    appended under a fresh id. *)
Definition add_keyword (db : t) (keyword category : string) (severity : Q)
    (now : Z) : t :=
  let k := Text.lower keyword in
  {| keywords :=
       filter (fun r => kw_keyword r ≠ k) (keywords db)
       ++ [new_keyword (keywords_seq db + 1) k category severity now];
     keywords_seq := keywords_seq db + 1;
     hashtags := hashtags db; hashtags_seq := hashtags_seq db;
     phrase_patterns := phrase_patterns db;
     patterns_seq := patterns_seq db |}.

(** [SELECT keyword, category, severity FROM keywords WHERE is_active = 1
    ORDER BY severity DESC] *)
Definition get_active_keywords (db : t) : list (string * string * Q) :=
  (fun r => (kw_keyword r, kw_category r, kw_severity r))
  <$> sort_desc (fun a b => Qltb (kw_severity a) (kw_severity b))
        (filter (fun r => kw_is_active r = true) (keywords db)).

Definition get_hashtags (db : t) : list (string * string * Q) :=
  (fun r => (ht_hashtag r, ht_category r, ht_severity r))
  <$> sort_desc (fun a b => Qltb (ht_severity a) (ht_severity b))
        (hashtags db).

Definition get_patterns (db : t) : list (string * string * Q) :=
  (fun r => (pt_pattern r, pt_description r, pt_severity r))
  <$> sort_desc (fun a b => Qltb (pt_severity a) (pt_severity b))
        (phrase_patterns db).

Definition bump_keyword (k : string) (now : Z) (r : keyword_row)
  : keyword_row :=
  if String.eqb (kw_keyword r) k then
    {| kw_id := kw_id r; kw_keyword := kw_keyword r;
       kw_category := kw_category r; kw_severity := kw_severity r;
       kw_detection_count := kw_detection_count r + 1;
       kw_last_detected := Some now; kw_created_at := kw_created_at r;
       kw_is_active := kw_is_active r |}
  else r.

Definition bump_hashtag (k : string) (now : Z) (r : hashtag_row)
  : hashtag_row :=
  if String.eqb (ht_hashtag r) k then
    {| ht_id := ht_id r; ht_hashtag := ht_hashtag r;
       ht_category := ht_category r; ht_severity := ht_severity r;
       ht_detection_count := ht_detection_count r + 1;
       ht_last_detected := Some now; ht_created_at := ht_created_at r |}
  else r.

(** [UPDATE {table} SET detection_count = detection_count + 1,
    last_detected = CURRENT_TIMESTAMP WHERE {column} = ?] with the
    parameter [keyword.lower()]; the comparison is SQLite's default,
    byte for byte. *)
Definition update_detection_count (db : t) (keyword keyword_type : string)
    (now : Z) : t :=
  let k := Text.lower keyword in
  if String.eqb keyword_type "keyword" then
    {| keywords := bump_keyword k now <$> keywords db;
       keywords_seq := keywords_seq db;
       hashtags := hashtags db; hashtags_seq := hashtags_seq db;
       phrase_patterns := phrase_patterns db;
       patterns_seq := patterns_seq db |}
  else
    {| keywords := keywords db; keywords_seq := keywords_seq db;
       hashtags := bump_hashtag k now <$> hashtags db;
       hashtags_seq := hashtags_seq db;
       phrase_patterns := phrase_patterns db;
       patterns_seq := patterns_seq db |}.

End KeywordDatabase.

Module NLPProcessor.

(** The rule snapshot [load_nlp_resources] takes; every pattern is
    compiled with [re.IGNORECASE]. *)
Record t := {
  keywords : list (string * string * Q);
  hashtags : list (string * string * Q);
  compiled_patterns : list (string * string * Q)
}.

Definition load_nlp_resources (db : KeywordDatabase.t) : t :=
  {| keywords := KeywordDatabase.get_active_keywords db;
     hashtags := KeywordDatabase.get_hashtags db;
     compiled_patterns := KeywordDatabase.get_patterns db |}.

Record features := {
  matched_keywords : list (string * string * Q);
  matched_hashtags : list (string * string * Q);
  matched_patterns : list (string * list (list string) * Q);
  sentiment_score : Q;
  threat_level : string;
  total_severity : Q;
  hashtags_found : list string;
  mentions_found : list string;
  urls_found : list string
}.

(** The threshold ladder at the end of [extract_features]. *)
Definition threat_level_of (total_severity : Q) : string :=
  if Qle_bool 25 total_severity then "CRITICAL"
  else if Qle_bool 15 total_severity then "HIGH"
  else if Qle_bool 8 total_severity then "MEDIUM"
  else "LOW".

Section Scoring.
Context `{Collaborators}.

(** One turn of the keyword loop; the state is the list appended to,
    the running total and the database. *)
Definition keyword_step (content_lower : string) (now : Z)
    (st : list (string * string * Q) * Q * KeywordDatabase.t)
    (rule : string * string * Q)
  : list (string * string * Q) * Q * KeywordDatabase.t :=
  let '(matched, total, db) := st in
  let '(keyword, category, severity) := rule in
  if Text.contains (Text.lower keyword) content_lower then
    (matched ++ [(keyword, category, severity)],
     (total + severity)%Q,
     KeywordDatabase.update_detection_count db keyword "keyword" now)
  else st.

Definition hashtag_step (content_lower : string) (now : Z)
    (st : list (string * string * Q) * Q * KeywordDatabase.t)
    (rule : string * string * Q)
  : list (string * string * Q) * Q * KeywordDatabase.t :=
  let '(matched, total, db) := st in
  let '(hashtag, category, severity) := rule in
  if Text.contains (Text.lower hashtag) content_lower then
    (matched ++ [(hashtag, category, severity)],
     (total + severity)%Q,
     KeywordDatabase.update_detection_count db hashtag "hashtag" now)
  else st.

Definition pattern_step (content : string)
    (st : list (string * list (list string) * Q) * Q)
    (rule : string * string * Q)
  : list (string * list (list string) * Q) * Q :=
  let '(matched, total) := st in
  let '(pattern, description, severity) := rule in
  let matches := re_findall pattern true content in
  match matches with
  | [] => st
  | _ => (matched ++ [(description, matches, severity)],
          (total + severity)%Q)
  end.

Definition extract_features (nlp : t) (db : KeywordDatabase.t)
    (content : string) (now : Z) : features * KeywordDatabase.t :=
  let content_lower := Text.lower content in
  let hashtags_found := concat (re_findall "#\w+" false content) in
  let mentions_found := concat (re_findall "@\w+" false content) in
  let urls_found :=
    concat (re_findall
      "http[s]?://(?:[a-zA-Z]|[0-9]|[$-_@.&+]|[!*\\(\\),]|(?:%[0-9a-fA-F][0-9a-fA-F]))+"
      false content) in
  let '(matched_keywords, total1, db1) :=
    foldl (keyword_step content_lower now) ([], 0%Q, db) (keywords nlp) in
  let '(matched_hashtags, total2, db2) :=
    foldl (hashtag_step content_lower now) ([], total1, db1)
          (hashtags nlp) in
  let '(matched_patterns, total3) :=
    foldl (pattern_step content) ([], total2) (compiled_patterns nlp) in
  let sentiment :=
    match polarity content with
    | Some p => p
    | None => 0%Q
    end in
  ({| matched_keywords := matched_keywords;
      matched_hashtags := matched_hashtags;
      matched_patterns := matched_patterns;
      sentiment_score := sentiment;
      threat_level := threat_level_of total3;
      total_severity := total3;
      hashtags_found := hashtags_found;
      mentions_found := mentions_found;
      urls_found := urls_found |}, db2).

Definition is_anti_india_content (nlp : t) (db : KeywordDatabase.t)
    (content : string) (now : Z)
  : bool * features * KeywordDatabase.t :=
  let '(features, db') := extract_features nlp db content now in
  let is_anti_india :=
    (0 <? length (matched_keywords features))%nat
    || (0 <? length (matched_hashtags features))%nat
    || (0 <? length (matched_patterns features))%nat
    || (Qltb (sentiment_score features) (- (3 # 10))
        && Qltb 3 (total_severity features)) in
  (is_anti_india, features, db').

End Scoring.

End NLPProcessor.

(** ** campaign_detector.py: engagement and influencers *)

Module EngagementAnalyzer.

Record thresholds := {
  viral_likes : Z;
  viral_shares : Z;
  viral_comments : Z;
  suspicious_growth_rate : Q;
  bot_like_ratio : Q
}.

Definition engagement_thresholds : thresholds :=
  {| viral_likes := 1000; viral_shares := 500; viral_comments := 200;
     suspicious_growth_rate := 10%Q; bot_like_ratio := 3 # 10 |}.

Record analysis := {
  an_total_engagement : Z;
  engagement_velocity : Q;
  is_viral : bool;
  is_suspicious : bool;
  bot_score : Q;
  amplification_factor : Q;
  engagement_ratio : gmap string Q
}.

(** [engagement.get(k, d)] *)
Definition get (e : gmap string Z) (k : string) (d : Z) : Z :=
  default d (e !! k).

(** [sum(engagement.values())] *)
Definition sum_values (e : gmap string Z) : Z :=
  Zsum ((map_to_list e).*2).

Definition analyze_engagement (c : CampaignContent) : analysis :=
  let engagement := engagement c in
  let total := Z.max (sum_values engagement) 1 in
  let ratio :=
    (fun count => (inject_Z count / inject_Z total)%Q) <$> engagement in
  let viral :=
    (viral_likes engagement_thresholds <? get engagement "likes" 0)
    || (viral_shares engagement_thresholds <? get engagement "shares" 0)
    || (viral_comments engagement_thresholds
        <? get engagement "comments" 0) in
  let likes_to_shares :=
    (inject_Z (get engagement "likes" 0)
     / inject_Z (Z.max (get engagement "shares" 1) 1))%Q in
  let comments_to_likes :=
    (inject_Z (get engagement "comments" 0)
     / inject_Z (Z.max (get engagement "likes" 1) 1))%Q in
  let bot1 := if Qltb 20 likes_to_shares then (0 + (3 # 10))%Q else 0%Q in
  let bot2 :=
    if Qltb comments_to_likes (1 # 100) && (100 <? get engagement "likes" 0)
    then (bot1 + (2 # 10))%Q else bot1 in
  {| an_total_engagement := sum_values engagement;
     engagement_velocity := 0%Q;
     is_viral := viral;
     is_suspicious := Qltb (bot_like_ratio engagement_thresholds) bot2;
     bot_score := bot2;
     amplification_factor := 1%Q;
     engagement_ratio := ratio |}.

(** The per-author accumulator of [identify_influencers]. *)
Record metrics := {
  post_count : Z;
  total_engagement : Z;
  avg_engagement : Q;
  viral_posts : Z;
  threat_score : Z;
  platforms : gset string;
  content_samples : list string
}.

Definition fresh_metrics : metrics :=
  {| post_count := 0; total_engagement := 0; avg_engagement := 0%Q;
     viral_posts := 0; threat_score := 0; platforms := ∅;
     content_samples := [] |}.

Definition threat_points (level : string) : Z :=
  if String.eqb level "CRITICAL" then 10
  else if String.eqb level "HIGH" then 5
  else if String.eqb level "MEDIUM" then 2
  else 0.

(** The body of [for content in contents]. *)
Definition account (c : CampaignContent) (m : metrics) : metrics :=
  {| post_count := post_count m + 1;
     total_engagement := total_engagement m + sum_values (engagement c);
     avg_engagement := avg_engagement m;
     viral_posts :=
       if is_viral (analyze_engagement c) then viral_posts m + 1
       else viral_posts m;
     threat_score := threat_score m + threat_points (cc_threat_level c);
     platforms := platforms m ∪ {[platform c]};
     content_samples := content_samples m ++ [Text.take 100 (content c)] |}.

Definition author_metrics (contents : list CampaignContent)
  : list (string * metrics) :=
  foldl (fun d c => dict_update (author c) (account c) fresh_metrics d)
        [] contents.

(** An entry of the returned list; [inf_platforms] is
    [list(metrics['platforms'])]. *)
Record influencer := {
  inf_author : string;
  influence_score : Q;
  inf_metrics : metrics;
  inf_platforms : list string
}.

Definition influencer_of (entry : string * metrics) : influencer :=
  let '(a, m) := entry in
  let m' :=
    {| post_count := post_count m;
       total_engagement := total_engagement m;
       avg_engagement :=
         (inject_Z (total_engagement m) / inject_Z (post_count m))%Q;
       viral_posts := viral_posts m;
       threat_score := threat_score m;
       platforms := platforms m;
       content_samples := content_samples m |} in
  let platform_list := elements (platforms m) in
  {| inf_author := a;
     influence_score :=
       (inject_Z (total_engagement m') * (4 # 10)
        + inject_Z (viral_posts m' * 100)
        + inject_Z (threat_score m' * 10)
        + inject_Z (Z.of_nat (length platform_list) * 50))%Q;
     inf_metrics := m';
     inf_platforms := platform_list |}.

Definition identify_influencers (contents : list CampaignContent)
  : list influencer :=
  sort_desc (fun x y => Qltb (influence_score x) (influence_score y))
            (influencer_of <$> author_metrics contents).

End EngagementAnalyzer.

(** ** enhanced_keyword_database.py: adding rules *)

(** The Python values an [add_*] method can hand back. *)
Inductive pyval :=
| PyNone
| PyBool (b : bool)
| PyInt (z : Z).

Module EnhancedKeywordDatabase.

Record keyword_row := {
  kw_id : Z;
  kw_keyword : string;
  kw_category : string;
  kw_weight : Q;
  kw_language : string;
  kw_created_date : Z;
  kw_last_detected : option Z;
  kw_detection_count : Z;
  kw_is_active : bool
}.

Record hashtag_row := {
  ht_id : Z;
  ht_hashtag : string;
  ht_category : string;
  ht_weight : Q;
  ht_platform : string;
  ht_created_date : Z;
  ht_last_used : option Z;
  ht_usage_count : Z;
  ht_is_trending : bool
}.

Record t := {
  keywords : list keyword_row;
  keywords_seq : Z;
  hashtags : list hashtag_row;
  hashtags_seq : Z
}.

Definition has_keyword (db : t) (keyword : string) : bool :=
  existsb (fun r => String.eqb (kw_keyword r) keyword) (keywords db).

Definition has_hashtag (db : t) (hashtag : string) : bool :=
  existsb (fun r => String.eqb (ht_hashtag r) hashtag) (hashtags db).

Definition new_keyword (id : Z) (keyword category : string) (weight : Q)
    (language : string) (now : Z) : keyword_row :=
  {| kw_id := id; kw_keyword := keyword; kw_category := category;
     kw_weight := weight; kw_language := language; kw_created_date := now;
     kw_last_detected := None; kw_detection_count := 0;
     kw_is_active := true |}.

Definition new_hashtag (id : Z) (hashtag category : string) (weight : Q)
    (platform : string) (now : Z) : hashtag_row :=
  {| ht_id := id; ht_hashtag := hashtag; ht_category := category;
     ht_weight := weight; ht_platform := platform; ht_created_date := now;
     ht_last_used := None; ht_usage_count := 0; ht_is_trending := false |}.

(** [INSERT INTO keywords (keyword, category, weight, language)]; the
    [UNIQUE] column makes SQLite raise on a stored duplicate. *)
Definition insert_keyword (db : t) (keyword category : string) (weight : Q)
    (language : string) (now : Z) : result t :=
  if has_keyword db keyword then Raise "sqlite3.IntegrityError"
  else
    Ok {| keywords := keywords db
            ++ [new_keyword (keywords_seq db + 1) keyword category weight
                            language now];
          keywords_seq := keywords_seq db + 1;
          hashtags := hashtags db; hashtags_seq := hashtags_seq db |}.

Definition insert_hashtag (db : t) (hashtag category : string) (weight : Q)
    (platform : string) (now : Z) : result t :=
  if has_hashtag db hashtag then Raise "sqlite3.IntegrityError"
  else
    Ok {| keywords := keywords db; keywords_seq := keywords_seq db;
          hashtags := hashtags db
            ++ [new_hashtag (hashtags_seq db + 1) hashtag category weight
                            platform now];
          hashtags_seq := hashtags_seq db + 1 |}.

(** [try: ...; return True / except sqlite3.IntegrityError: return False] *)
Definition try_insert (db : t) (attempt : result t) : result pyval * t :=
  match attempt with
  | Ok db' => (Ok (PyBool true), db')
  | Raise e =>
      if String.eqb e "sqlite3.IntegrityError" then (Ok (PyBool false), db)
      else (Raise e, db)
  end.

Definition add_keyword (db : t) (keyword category : string) (weight : Q)
    (language : string) (now : Z) : result pyval * t :=
  try_insert db
    (insert_keyword db (Text.lower keyword) category weight language now).


End EnhancedKeywordDatabase.

(** ** engagement_analyzer.py: trending anomalies *)

(** The floating-point arithmetic pandas applies to the counters: the group
    aggregates, the operations of the z-score line and the comparisons. *)
Class FloatOps := {
  float : Type;
  of_int : Z -> float;
  agg_mean : list Z -> float;
  agg_std : list Z -> float;
  fsub : float -> float -> float;
  fdiv : float -> float -> float;
  fabs : float -> float;
  fgt : float -> float -> bool;
  is_zero : float -> bool;
  notna : float -> bool
}.

Module TrendingAnomalies.

(** A row of [trending_patterns]; [hour_timestamp] in seconds. *)
Record pattern_row := {
  keyword_or_hashtag : string;
  tp_platform : string;
  hour_timestamp : Z;
  mention_count : Z;
  engagement_sum : Z;
  unique_users : Z
}.

Definition key (r : pattern_row) : string * string :=
  (keyword_or_hashtag r, tp_platform r).

(** [WHERE hour_timestamp >= datetime('now', '-{h} hours')] *)
Definition since (now hours : Z) (table : list pattern_row)
  : list pattern_row :=
  filter (fun r => now - hours * 3600 <= hour_timestamp r) table.

Section Detect.
Context `{FloatOps}.

Record stats := {
  st_key : string * string;
  avg_mentions : float;
  std_mentions : float;
  count : nat
}.

(** [groupby([...]).agg({'mention_count': ['mean', 'std', 'count']})];
    the groups are looked up by key afterwards, so their order is
    immaterial. *)
Definition groupby (rows : list pattern_row)
  : list (string * string * list Z) :=
  foldl (fun groups r => dict_append (key r) (mention_count r) groups)
        [] rows.

Definition baseline_stats (baseline : list pattern_row) : list stats :=
  (fun g : string * string * list Z =>
     {| st_key := g.1; avg_mentions := agg_mean g.2;
        std_mentions := agg_std g.2; count := length g.2 |})
  <$> groupby baseline.

Record merged_row := {
  row : pattern_row;
  m_avg_mentions : float;
  m_std_mentions : float;
  z_score : float
}.

(** [std.replace(0, 1)] followed by the z-score line. *)
Definition z_of (r : pattern_row) (s : stats) : float :=
  let std := std_mentions s in
  fdiv (fsub (of_int (mention_count r)) (avg_mentions s))
       (if is_zero std then of_int 1 else std).

(** [recent_df.merge(baseline_stats, on=[...], how='inner')] *)
Definition merge (recent : list pattern_row) (sts : list stats)
  : list merged_row :=
  r ← recent;
  s ← filter (fun s => st_key s = key r) sts;
  [{| row := r; m_avg_mentions := avg_mentions s;
      m_std_mentions := std_mentions s; z_score := z_of r s |}].

Record anomaly := {
  a_keyword_or_hashtag : string;
  a_platform : string;
  current_mentions : Z;
  average_mentions : float;
  anomaly_strength : float;
  a_threat_level : string;
  a_timestamp : Z;
  a_engagement_sum : Z;
  a_unique_users : Z
}.

Definition anomaly_of (m : merged_row) : anomaly :=
  let strength :=
    if notna (z_score m) then fabs (z_score m) else of_int 0 in
  {| a_keyword_or_hashtag := keyword_or_hashtag (row m);
     a_platform := tp_platform (row m);
     current_mentions := mention_count (row m);
     average_mentions := m_avg_mentions m;
     anomaly_strength := strength;
     a_threat_level :=
       if fgt strength (of_int 4) then "HIGH"
       else if fgt strength (of_int 3) then "MEDIUM"
       else "LOW";
     a_timestamp := hour_timestamp (row m);
     a_engagement_sum := engagement_sum (row m);
     a_unique_users := unique_users (row m) |}.

(** The rows of [df]: the merged rows that pass the z-score filter,
    ordered by decreasing [|z|]. *)
Definition flagged (table : list pattern_row) (now lookback_hours : Z)
  : list merged_row :=
  let baseline := since now lookback_hours table in
  let recent := since now 6 table in
  let sts := filter (fun s => (12 <= count s)%nat) (baseline_stats baseline) in
  let merged := merge recent sts in
  sort_desc (fun a b => fgt (fabs (z_score b)) (fabs (z_score a)))
            (filter (fun m => fgt (fabs (z_score m)) (of_int 2) = true)
                    merged).

Definition detect_trending_anomalies (table : list pattern_row)
    (now lookback_hours : Z) : list anomaly :=
  anomaly_of <$> flagged table now lookback_hours.

End Detect.

End TrendingAnomalies.

(** * Properties *)

(** A stand-in for the collaborators, used to run the scorer on examples:
    a pattern matches where its text occurs literally, and polarity is a
    one-word lexicon. *)
Definition literal_collaborators : Collaborators :=
  {| re_findall pattern ignorecase s :=
       let fold := fun x => if ignorecase then Text.lower x else x in
       if Text.contains (fold pattern) (fold s) then [[pattern]] else [];
     polarity s :=
       if Text.contains "hate" (Text.lower s) then Some (- (1 # 2))%Q
       else Some 0%Q |}.

(** ** Rational comparisons *)

Lemma Qltb_lt (x y : Q) : Qltb x y = true <-> (x < y)%Q.
Proof.
  unfold Qltb. rewrite negb_true_iff. split.
  - intros Hb. apply Qnot_le_lt. intros Hle.
    apply Qle_bool_iff in Hle. congruence.
  - intros Hlt. destruct (Qle_bool y x) eqn:E; [|done].
    apply Qle_bool_iff in E. exfalso. by apply (Qlt_not_le x y).
Qed.


(** ** Content similarity *)

Section Similarity.
Import CoordinatedCampaignDetector.








End Similarity.

(** ** Sample items *)

Definition at_time (day hour minute second micro : Z) : datetime :=
  {| dt_date := day; dt_hour := hour; dt_minute := minute;
     dt_second := second; dt_microsecond := micro |}.

Definition noon : datetime := at_time 739000 12 0 0 0.

(** A reddit post with no engagement. *)
Definition post (id author text : string) (t : datetime)
    (tags : list string) (level : string) : CampaignContent :=
  {| cc_id := id; platform := "reddit"; content := text; author := author;
     timestamp := t; engagement := ∅; cc_hashtags := tags; mentions := [];
     url := ""; cc_sentiment_score := 0%Q; cc_threat_level := level;
     keywords_matched := [] |}.

(** ** Campaign threat level *)

Section CampaignThreat.
Import CoordinatedCampaignDetector.

Definition known_levels : list string := ["LOW"; "MEDIUM"; "HIGH"; "CRITICAL"].

Definition with_threat_level (c : CampaignContent) (level : string)
  : CampaignContent :=
  {| cc_id := cc_id c; platform := platform c; content := content c;
     author := author c; timestamp := timestamp c;
     engagement := engagement c; cc_hashtags := cc_hashtags c;
     mentions := mentions c; url := url c;
     cc_sentiment_score := cc_sentiment_score c;
     cc_threat_level := level; keywords_matched := keywords_matched c |}.

(** The same item with an unrecognised tier rewritten to LOW. *)
Definition as_low (c : CampaignContent) : CampaignContent :=
  match threat_scores (cc_threat_level c) with
  | Some _ => c
  | None => with_threat_level c "LOW"
  end.

Lemma threat_scores_known (level : string) :
  level ∈ known_levels <-> is_Some (threat_scores level).
Proof.
  unfold known_levels, threat_scores. split.
  - intros Hin. repeat (apply elem_of_cons in Hin as [->|Hin]; [by eexists|]).
    by apply elem_of_nil in Hin.
  - intros [z Hz].
    destruct (String.eqb_spec level "LOW") as [->|]; [set_solver|].
    destruct (String.eqb_spec level "MEDIUM") as [->|]; [set_solver|].
    destruct (String.eqb_spec level "HIGH") as [->|]; [set_solver|].
    destruct (String.eqb_spec level "CRITICAL") as [->|]; [set_solver|].
    done.
Qed.

Lemma member_score_unknown (c : CampaignContent) :
  cc_threat_level c ∉ known_levels -> member_score c = 1.
Proof.
  intros Hnot. unfold member_score.
  destruct (threat_scores (cc_threat_level c)) eqn:E; [|done].
  exfalso. apply Hnot, threat_scores_known. by eexists.
Qed.

Lemma member_score_as_low (c : CampaignContent) :
  member_score (as_low c) = member_score c.
Proof.
  unfold as_low, member_score.
  destruct (threat_scores (cc_threat_level c)) eqn:E; [by rewrite E|done].
Qed.

Lemma threat_level_ok (contents : list CampaignContent) :
  contents ≠ [] ->
  exists level, _calculate_campaign_threat_level contents = Ok level
                /\ level ∈ known_levels.
Proof.
  intros Hne. destruct contents as [|c cs]; [done|].
  unfold _calculate_campaign_threat_level, known_levels.
  repeat match goal with
         | |- context [Qle_bool ?a ?b] => destruct (Qle_bool a b)
         end; eexists; (split; [reflexivity|set_solver]).
Qed.

(** C10. On a non-empty member list the campaign threat level never
    raises and is one of LOW, MEDIUM, HIGH, CRITICAL; a member whose tier
    string is none of these four scores 1, and the result is the one
    obtained with every such tier read as LOW. *)
Theorem campaign_threat_level_total (contents : list CampaignContent) :
  contents ≠ [] ->
  (exists level, _calculate_campaign_threat_level contents = Ok level
                 /\ level ∈ known_levels)
  /\ (forall c, c ∈ contents -> cc_threat_level c ∉ known_levels ->
                member_score c = 1)
  /\ _calculate_campaign_threat_level contents
     = _calculate_campaign_threat_level (as_low <$> contents).
Proof.
  intros Hne. split; [by apply threat_level_ok|].
  split; [intros c _; apply member_score_unknown|].
  destruct contents as [|c cs]; [done|].
  unfold _calculate_campaign_threat_level.
  rewrite <- list_fmap_compose, length_fmap.
  rewrite fmap_cons.
  assert (member_score ∘ as_low <$> c :: cs = member_score <$> c :: cs) as ->.
  { apply list_fmap_ext. intros _ x _. apply member_score_as_low. }
  done.
Qed.

Lemma campaign_threat_level_total_witness :
  let contents :=
    [post "1" "u1" "x" noon [] "CRITICAL"; post "2" "u2" "y" noon [] "urgent";
     post "3" "u3" "z" noon [] "HIGH"] in
  contents ≠ []
  /\ _calculate_campaign_threat_level contents = Ok "HIGH"
  /\ _calculate_campaign_threat_level contents
     = _calculate_campaign_threat_level (as_low <$> contents).
Proof.
  intros contents.
  assert (contents ≠ []) as Hne by done.
  split; [exact Hne|]. split; [by vm_compute|].
  exact (proj2 (proj2 (campaign_threat_level_total contents Hne))).
Defined.

End CampaignThreat.

(** ** The scorer *)

Section Scorer.
Context `{Collaborators}.
Import NLPProcessor.

(** Whether a keyword or hashtag rule matches the case-folded text. *)
Definition rule_matches (content_lower : string)
    (rule : string * string * Q) : bool :=
  Text.contains (Text.lower rule.1.1) content_lower.

(** What the pattern loop records for a rule, if it matches. *)
Definition pattern_match (content : string) (rule : string * string * Q)
  : option (string * list (list string) * Q) :=
  match re_findall rule.1.1 true content with
  | [] => None
  | ms => Some (rule.1.2, ms, rule.2)
  end.

Lemma Qsum_app (l1 l2 : list Q) :
  (Qsum (l1 ++ l2) == Qsum l1 + Qsum l2)%Q.
Proof.
  induction l1 as [|x l1 IH]; simpl.
  - by rewrite Qplus_0_l.
  - rewrite IH. by rewrite Qplus_assoc.
Qed.

Lemma keyword_loop content_lower now rules matched total db :
  let r := foldl (keyword_step content_lower now) (matched, total, db) rules in
  r.1.1 = matched ++ filter (fun rule => rule_matches content_lower rule = true) rules
  /\ (r.1.2 == total
      + Qsum (snd <$> filter (fun rule => rule_matches content_lower rule = true) rules))%Q.
Proof.
  revert matched total db.
  induction rules as [|[[k c] s] rules IH]; intros matched total db; simpl.
  - rewrite app_nil_r. split; [done|]. by rewrite Qplus_0_r.
  - destruct (Text.contains (Text.lower k) content_lower) eqn:E.
    + rewrite filter_cons_True by exact E.
      destruct (IH (matched ++ [(k, c, s)]) (total + s)%Q
                   (KeywordDatabase.update_detection_count db k "keyword" now))
        as [IH1 IH2].
      split.
      * rewrite IH1. by rewrite <- app_assoc.
      * rewrite IH2. simpl. by rewrite Qplus_assoc.
    + rewrite filter_cons_False by (unfold rule_matches; simpl; congruence).
      apply IH.
Qed.

Lemma hashtag_loop content_lower now rules matched total db :
  let r := foldl (hashtag_step content_lower now) (matched, total, db) rules in
  r.1.1 = matched ++ filter (fun rule => rule_matches content_lower rule = true) rules
  /\ (r.1.2 == total
      + Qsum (snd <$> filter (fun rule => rule_matches content_lower rule = true) rules))%Q.
Proof.
  revert matched total db.
  induction rules as [|[[k c] s] rules IH]; intros matched total db; simpl.
  - rewrite app_nil_r. split; [done|]. by rewrite Qplus_0_r.
  - destruct (Text.contains (Text.lower k) content_lower) eqn:E.
    + rewrite filter_cons_True by exact E.
      destruct (IH (matched ++ [(k, c, s)]) (total + s)%Q
                   (KeywordDatabase.update_detection_count db k "hashtag" now))
        as [IH1 IH2].
      split.
      * rewrite IH1. by rewrite <- app_assoc.
      * rewrite IH2. simpl. by rewrite Qplus_assoc.
    + rewrite filter_cons_False by (unfold rule_matches; simpl; congruence).
      apply IH.
Qed.

Lemma pattern_loop content rules matched total :
  let r := foldl (pattern_step content) (matched, total) rules in
  r.1 = matched ++ omap (pattern_match content) rules
  /\ (r.2 == total + Qsum (snd <$> omap (pattern_match content) rules))%Q.
Proof.
  revert matched total.
  induction rules as [|[[p d] s] rules IH]; intros matched total; simpl.
  - rewrite app_nil_r. split; [done|]. by rewrite Qplus_0_r.
  - assert (pattern_match content (p, d, s)
            = match re_findall p true content with
              | [] => None
              | ms => Some (d, ms, s)
              end) as Hpm by reflexivity.
    rewrite !Hpm.
    destruct (re_findall p true content) as [|m ms] eqn:E.
    + apply IH.
    + destruct (IH (matched ++ [(d, m :: ms, s)]) (total + s)%Q)
        as [IH1 IH2].
      split.
      * rewrite IH1. by rewrite <- app_assoc.
      * rewrite IH2. simpl. by rewrite Qplus_assoc.
Qed.

(** What [extract_features] returns, field by field. *)
Lemma extract_features_spec nlp db content now :
  let f := (extract_features nlp db content now).1 in
  matched_keywords f
  = filter (fun rule => rule_matches (Text.lower content) rule = true)
           (keywords nlp)
  /\ matched_hashtags f
     = filter (fun rule => rule_matches (Text.lower content) rule = true)
              (hashtags nlp)
  /\ matched_patterns f
     = omap (pattern_match content) (compiled_patterns nlp)
  /\ (total_severity f
      == Qsum (snd <$> matched_keywords f)
         + Qsum (snd <$> matched_hashtags f)
         + Qsum (snd <$> matched_patterns f))%Q
  /\ threat_level f = threat_level_of (total_severity f)
  /\ sentiment_score f = default 0%Q (polarity content).
Proof.
  unfold extract_features.
  pose proof (keyword_loop (Text.lower content) now (keywords nlp) [] 0%Q db)
    as HK.
  destruct (foldl (keyword_step (Text.lower content) now) ([], 0%Q, db)
                  (keywords nlp)) as [[mk t1] db1].
  pose proof (hashtag_loop (Text.lower content) now (hashtags nlp) [] t1 db1)
    as HH.
  destruct (foldl (hashtag_step (Text.lower content) now) ([], t1, db1)
                  (hashtags nlp)) as [[mh t2] db2].
  pose proof (pattern_loop content (compiled_patterns nlp) [] t2) as HP.
  destruct (foldl (pattern_step content) ([], t2) (compiled_patterns nlp))
    as [mp t3].
  simpl in *. destruct HK as [-> HK], HH as [-> HH], HP as [-> HP].
  split; [done|]. split; [done|]. split; [done|].
  split; [rewrite HP, HH, HK; by rewrite Qplus_0_l|].
  split; [done|]. by destruct (polarity content).
Qed.



Lemma length_pos_nonempty {A} (l : list A) :
  (0 <? length l)%nat = true <-> l ≠ [].
Proof.
  destruct l; simpl; split; try done.
Qed.

(** C6. A text is classified campaign-relevant exactly when a keyword, a
    hashtag or a pattern matched it, or its sentiment is below -0.3 while
    its total severity is above 3.  So a text with a match is relevant
    whatever its sentiment, and a text with no match and a sentiment of
    at least -0.3 is never relevant. *)
Theorem relevance_gate nlp db content now :
  let r := is_anti_india_content nlp db content now in
  let f := r.1.2 in
  let matched :=
    matched_keywords f ≠ [] \/ matched_hashtags f ≠ []
    \/ matched_patterns f ≠ [] in
  f = (extract_features nlp db content now).1
  /\ (r.1.1 = true <->
      matched \/ ((sentiment_score f < - (3 # 10))%Q
                  /\ (3 < total_severity f)%Q))
  /\ (matched -> r.1.1 = true)
  /\ (~ matched -> (- (3 # 10) <= sentiment_score f)%Q -> r.1.1 = false).
Proof.
  intros r f matched.
  assert (f = (extract_features nlp db content now).1) as Hf.
  { unfold f, r, is_anti_india_content.
    by destruct (extract_features nlp db content now). }
  assert (r.1.1 = true <->
          matched \/ ((sentiment_score f < - (3 # 10))%Q
                      /\ (3 < total_severity f)%Q)) as Hiff.
  { unfold matched, f, r, is_anti_india_content.
    destruct (extract_features nlp db content now) as [g db']. simpl.
    rewrite !orb_true_iff, andb_true_iff, !length_pos_nonempty, !Qltb_lt.
    tauto. }
  split; [exact Hf|]. split; [exact Hiff|]. split.
  - intros Hm. apply Hiff. by left.
  - intros Hno Hs. destruct (r.1.1) eqn:E; [|done].
    apply proj1 in Hiff. destruct (Hiff eq_refl) as [Hm|[Hlt _]]; [done|].
    exfalso. by apply (Qlt_not_le _ _ Hlt).
Qed.

End Scorer.

(** The rule store as shipped and the snapshot taken from it. *)
Definition shipped_db : KeywordDatabase.t := KeywordDatabase.create 0.
Definition shipped_nlp : NLPProcessor.t :=
  NLPProcessor.load_nlp_resources shipped_db.


Lemma relevance_gate_witness :
  let r := @NLPProcessor.is_anti_india_content literal_collaborators
             shipped_nlp shipped_db "Nice weather" 1 in
  let s := @NLPProcessor.is_anti_india_content literal_collaborators
             shipped_nlp shipped_db "Join #FreeKashmir today" 1 in
  (NLPProcessor.matched_hashtags s.1.2 ≠ [] /\ s.1.1 = true)
  /\ ((- (3 # 10) <= NLPProcessor.sentiment_score r.1.2)%Q /\ r.1.1 = false).
Proof.
  intros r s. split.
  - assert (NLPProcessor.matched_hashtags s.1.2 ≠ []) as Hm by by vm_compute.
    split; [exact Hm|].
    apply (proj1 (proj2 (proj2 (@relevance_gate literal_collaborators
             shipped_nlp shipped_db "Join #FreeKashmir today" 1)))).
    right. left. exact Hm.
  - assert (- (3 # 10) <= NLPProcessor.sentiment_score r.1.2)%Q as Hs
      by (apply Qle_bool_iff; vm_compute; reflexivity).
    split; [exact Hs|].
    apply (proj2 (proj2 (proj2 (@relevance_gate literal_collaborators
             shipped_nlp shipped_db "Nice weather" 1)))); [|exact Hs].
    vm_compute. intros [Hk|[Hh|Hp]]; congruence.
Defined.

(** ** Detection counters *)

Section DetectionCounts.
Context `{Collaborators}.
Import NLPProcessor.

Lemma keyword_loop_db content_lower now rules matched total db :
  Forall (fun rule : string * string * Q =>
            KeywordDatabase.update_detection_count db rule.1.1 "keyword" now
            = db) rules ->
  (foldl (keyword_step content_lower now) (matched, total, db) rules).2 = db.
Proof.
  intros Hall. revert matched total.
  induction Hall as [|[[k c] s] rules Hk _ IH]; intros matched total; simpl.
  - done.
  - destruct (Text.contains (Text.lower k) content_lower).
    + simpl in Hk. rewrite Hk. apply IH.
    + apply IH.
Qed.

Lemma hashtag_loop_db content_lower now rules matched total db :
  Forall (fun rule : string * string * Q =>
            KeywordDatabase.update_detection_count db rule.1.1 "hashtag" now
            = db) rules ->
  (foldl (hashtag_step content_lower now) (matched, total, db) rules).2 = db.
Proof.
  intros Hall. revert matched total.
  induction Hall as [|[[k c] s] rules Hk _ IH]; intros matched total; simpl.
  - done.
  - destruct (Text.contains (Text.lower k) content_lower).
    + simpl in Hk. rewrite Hk. apply IH.
    + apply IH.
Qed.

(** The database [extract_features] leaves behind is the one the two
    substring loops produce; the pattern loop does not touch it. *)
Lemma extract_features_db nlp db content now :
  (extract_features nlp db content now).2
  = (foldl (hashtag_step (Text.lower content) now)
       ([], (foldl (keyword_step (Text.lower content) now) ([], 0%Q, db)
               (keywords nlp)).1.2,
        (foldl (keyword_step (Text.lower content) now) ([], 0%Q, db)
           (keywords nlp)).2)
       (hashtags nlp)).2.
Proof.
  unfold extract_features.
  destruct (foldl (keyword_step (Text.lower content) now) ([], 0%Q, db)
                  (keywords nlp)) as [[mk t1] db1].
  simpl.
  destruct (foldl (hashtag_step (Text.lower content) now) ([], t1, db1)
                  (hashtags nlp)) as [[mh t2] db2].
  by destruct (foldl (pattern_step content) ([], t2) (compiled_patterns nlp)).
Qed.

Lemma update_detection_count_patterns db keyword keyword_type now :
  KeywordDatabase.phrase_patterns
    (KeywordDatabase.update_detection_count db keyword keyword_type now)
  = KeywordDatabase.phrase_patterns db.
Proof.
  unfold KeywordDatabase.update_detection_count.
  by destruct (String.eqb keyword_type "keyword").
Qed.

Lemma keyword_loop_patterns content_lower now rules st :
  KeywordDatabase.phrase_patterns
    (foldl (keyword_step content_lower now) st rules).2
  = KeywordDatabase.phrase_patterns st.2.
Proof.
  revert st. induction rules as [|[[k c] s] rules IH]; intros st; [done|].
  simpl. rewrite IH. destruct st as [[m t] db]. simpl.
  destruct (Text.contains (Text.lower k) content_lower); [|done].
  apply update_detection_count_patterns.
Qed.

Lemma hashtag_loop_patterns content_lower now rules st :
  KeywordDatabase.phrase_patterns
    (foldl (hashtag_step content_lower now) st rules).2
  = KeywordDatabase.phrase_patterns st.2.
Proof.
  revert st. induction rules as [|[[k c] s] rules IH]; intros st; [done|].
  simpl. rewrite IH. destruct st as [[m t] db]. simpl.
  destruct (Text.contains (Text.lower k) content_lower); [|done].
  apply update_detection_count_patterns.
Qed.

Lemma extract_features_patterns nlp db content now :
  KeywordDatabase.phrase_patterns (extract_features nlp db content now).2
  = KeywordDatabase.phrase_patterns db.
Proof.
  rewrite extract_features_db, hashtag_loop_patterns. simpl.
  by rewrite keyword_loop_patterns.
Qed.

(** An [UPDATE] whose [WHERE] clause selects no row changes nothing. *)
Lemma update_keyword_miss db keyword now :
  KeywordDatabase.has_keyword db (Text.lower keyword) = false ->
  KeywordDatabase.update_detection_count db keyword "keyword" now = db.
Proof.
  unfold KeywordDatabase.has_keyword, KeywordDatabase.update_detection_count.
  intros Hmiss. destruct db as [kws ks hts hs pts ps]. simpl in *. f_equal.
  induction kws as [|r kws IH]; [done|].
  simpl in Hmiss. apply orb_false_iff in Hmiss as [Hr Hrest].
  rewrite fmap_cons, IH by done.
  unfold KeywordDatabase.bump_keyword. by rewrite Hr.
Qed.

Lemma update_hashtag_miss db hashtag now :
  KeywordDatabase.has_hashtag db (Text.lower hashtag) = false ->
  KeywordDatabase.update_detection_count db hashtag "hashtag" now = db.
Proof.
  unfold KeywordDatabase.has_hashtag, KeywordDatabase.update_detection_count.
  intros Hmiss. destruct db as [kws ks hts hs pts ps]. simpl in *. f_equal.
  induction hts as [|r hts IH]; [done|].
  simpl in Hmiss. apply orb_false_iff in Hmiss as [Hr Hrest].
  rewrite fmap_cons, IH by done.
  unfold KeywordDatabase.bump_hashtag. by rewrite Hr.
Qed.

Lemma shipped_keywords_missed now :
  Forall (fun rule : string * string * Q =>
            KeywordDatabase.update_detection_count shipped_db rule.1.1
              "keyword" now = shipped_db) (keywords shipped_nlp).
Proof.
  assert (forallb (fun rule : string * string * Q =>
                     negb (KeywordDatabase.has_keyword shipped_db
                             (Text.lower rule.1.1)))
                  (keywords shipped_nlp) = true) as Hall
    by (vm_compute; reflexivity).
  apply Forall_forall. intros rule Hin%list_elem_of_In.
  apply update_keyword_miss.
  rewrite forallb_forall in Hall. specialize (Hall rule Hin).
  apply negb_true_iff in Hall. exact Hall.
Qed.

Lemma shipped_hashtags_missed now :
  Forall (fun rule : string * string * Q =>
            KeywordDatabase.update_detection_count shipped_db rule.1.1
              "hashtag" now = shipped_db) (hashtags shipped_nlp).
Proof.
  assert (forallb (fun rule : string * string * Q =>
                     negb (KeywordDatabase.has_hashtag shipped_db
                             (Text.lower rule.1.1)))
                  (hashtags shipped_nlp) = true) as Hall
    by (vm_compute; reflexivity).
  apply Forall_forall. intros rule Hin%list_elem_of_In.
  apply update_hashtag_miss.
  rewrite forallb_forall in Hall. specialize (Hall rule Hin).
  apply negb_true_iff in Hall. exact Hall.
Qed.

Lemma shipped_db_unchanged content now :
  (extract_features shipped_nlp shipped_db content now).2 = shipped_db.
Proof.
  rewrite extract_features_db.
  rewrite (keyword_loop_db _ _ _ _ _ _ (shipped_keywords_missed now)).
  apply hashtag_loop_db, shipped_hashtags_missed.
Qed.

(** C3. On the rule store as shipped, scoring "They boycott India
    #BoycottIndia" matches the keyword rule "boycott India" and the
    hashtag rule "#BoycottIndia", yet the call leaves the database as it
    was: both rules keep detection_count 0.  The same holds for every
    text scored against the shipped store, and no scoring call on any
    store changes a row of the pattern table. *)
Theorem shipped_rules_matched_but_not_counted :
  let text := "They boycott India #BoycottIndia" in
  let r := extract_features shipped_nlp shipped_db text 1 in
  matched_keywords r.1 = [("boycott India", "economic_warfare", 7%Q)]
  /\ matched_hashtags r.1 = [("#BoycottIndia", "economic_warfare", 7%Q)]
  /\ r.2 = shipped_db
  /\ KeywordDatabase.kw_detection_count
       <$> filter (fun row => KeywordDatabase.kw_keyword row = "boycott India")
                  (KeywordDatabase.keywords r.2) = [0]
  /\ KeywordDatabase.ht_detection_count
       <$> filter (fun row => KeywordDatabase.ht_hashtag row = "#BoycottIndia")
                  (KeywordDatabase.hashtags r.2) = [0]
  /\ (forall content now,
        (extract_features shipped_nlp shipped_db content now).2 = shipped_db)
  /\ (forall nlp db content now,
        KeywordDatabase.phrase_patterns (extract_features nlp db content now).2
        = KeywordDatabase.phrase_patterns db).
Proof.
  intros text r.
  assert (r.2 = shipped_db) as Hdb by apply shipped_db_unchanged.
  destruct (extract_features_spec shipped_nlp shipped_db text 1)
    as (HK & HH & _).
  fold r in HK, HH.
  split; [rewrite HK; vm_compute; reflexivity|].
  split; [rewrite HH; vm_compute; reflexivity|].
  split; [exact Hdb|].
  rewrite Hdb.
  split; [vm_compute; reflexivity|]. split; [vm_compute; reflexivity|].
  split; [apply shipped_db_unchanged|apply extract_features_patterns].
Qed.

End DetectionCounts.

(** A keyword stored through [add_keyword] is kept lower-cased, and for it
    the update finds its row: the count goes from 0 to 1. *)
Lemma added_keyword_is_counted :
  let db := KeywordDatabase.add_keyword shipped_db "Free Tibet" "separatist"
              5 7 in
  let r := @NLPProcessor.extract_features literal_collaborators
             (NLPProcessor.load_nlp_resources db) db "We say free tibet now"
             9 in
  NLPProcessor.matched_keywords r.1 = [("free tibet", "separatist", 5%Q)]
  /\ KeywordDatabase.kw_detection_count
       <$> filter (fun row => KeywordDatabase.kw_keyword row = "free tibet")
                  (KeywordDatabase.keywords db) = [0]
  /\ KeywordDatabase.kw_detection_count
       <$> filter (fun row => KeywordDatabase.kw_keyword row = "free tibet")
                  (KeywordDatabase.keywords r.2) = [1].
Proof. repeat split; vm_compute; reflexivity. Qed.

(** ** Insertion-ordered dictionaries *)

Fixpoint assoc {K W} `{EqDecision K} (k : K) (d : list (K * W)) : option W :=
  match d with
  | [] => None
  | (k', w) :: d' => if decide (k = k') then Some w else assoc k d'
  end.

(** A group after more values arrived: absent stays absent only if nothing
    arrived. *)
Definition extend {V} (o : option (list V)) (new : list V)
  : option (list V) :=
  match o, new with
  | None, [] => None
  | _, _ => Some (default [] o ++ new)
  end.

Section Dict.
Context {K V : Type} `{EqDecision K}.

Lemma assoc_dict_append (k k' : K) (v : V) (d : list (K * list V)) :
  assoc k' (dict_append k v d)
  = if decide (k' = k) then Some (default [] (assoc k d) ++ [v])
    else assoc k' d.
Proof.
  induction d as [|[k0 vs] d IH]; simpl.
  - by destruct (decide (k' = k)).
  - destruct (decide (k = k0)) as [->|Hk]; simpl.
    + destruct (decide (k' = k0)) as [->|Hk']; [done|done].
    + destruct (decide (k' = k0)) as [->|Hk'].
      * by rewrite decide_False.
      * exact IH.
Qed.

Lemma dict_append_keys (k : K) (v : V) (d : list (K * list V)) :
  (dict_append k v d).*1 = if decide (k ∈ d.*1) then d.*1 else d.*1 ++ [k].
Proof.
  induction d as [|[k0 vs] d IH]; [done|].
  cbn [dict_append]. destruct (decide (k = k0)) as [->|Hk].
  - rewrite !fmap_cons. cbn [fst].
    rewrite decide_True by set_solver. done.
  - rewrite !fmap_cons, IH. cbn [fst].
    destruct (decide (k ∈ d.*1)) as [Hin|Hnin].
    + rewrite decide_True by set_solver. done.
    + rewrite decide_False by set_solver. done.
Qed.

Lemma dict_append_NoDup (k : K) (v : V) (d : list (K * list V)) :
  NoDup d.*1 -> NoDup (dict_append k v d).*1.
Proof.
  intros Hnd. rewrite dict_append_keys.
  destruct (decide (k ∈ d.*1)); [done|].
  apply NoDup_app. split; [done|]. split; [|apply NoDup_singleton].
  intros x Hx ->%list_elem_of_singleton. done.
Qed.

Lemma assoc_None {W} (k : K) (d : list (K * W)) :
  assoc k d = None <-> k ∉ d.*1.
Proof.
  induction d as [|[k0 w] d IH]; simpl.
  - split; [intros _; apply not_elem_of_nil|done].
  - destruct (decide (k = k0)) as [->|Hne].
    + split; [done|]. intros Hn. exfalso. apply Hn. left.
    + rewrite IH. rewrite not_elem_of_cons. tauto.
Qed.

Section Grouping.
Context {X : Type} (kf : X -> K) (vf : X -> V).

Lemma assoc_grouped (l : list X) (d0 : list (K * list V)) (k : K) :
  assoc k (foldl (fun d x => dict_append (kf x) (vf x) d) d0 l)
  = extend (assoc k d0) (vf <$> filter (fun x => kf x = k) l).
Proof.
  revert d0. induction l as [|x l IH]; intros d0; simpl.
  - unfold extend. destruct (assoc k d0); simpl; [|done].
    by rewrite app_nil_r.
  - rewrite IH, assoc_dict_append.
    destruct (decide (kf x = k)) as [Hx|Hx].
    + rewrite filter_cons_True by done. rewrite decide_True by done.
      subst k. rewrite fmap_cons.
      generalize (vf <$> filter (fun x0 => kf x0 = kf x) l) as new.
      intros new. unfold extend.
      destruct (assoc (kf x) d0) as [vs|]; simpl.
      * by rewrite <- app_assoc.
      * done.
    + rewrite filter_cons_False by done.
      rewrite decide_False by done. done.
Qed.

Lemma grouped_NoDup (l : list X) (d0 : list (K * list V)) :
  NoDup d0.*1 ->
  NoDup (foldl (fun d x => dict_append (kf x) (vf x) d) d0 l).*1.
Proof.
  revert d0. induction l as [|x l IH]; intros d0 Hnd; simpl; [done|].
  by apply IH, dict_append_NoDup.
Qed.
End Grouping.

End Dict.

(** ** Hashtag synchrony *)

Section HashtagSynchrony.
Import CoordinatedCampaignDetector.

(** Every (case-folded hashtag, item) occurrence, in loop order. *)
Definition tagged (contents : list CampaignContent)
  : list (string * CampaignContent) :=
  c ← contents; (fun h => (Text.lower h, c)) <$> cc_hashtags c.

(** The list the loop collects under hashtag [h]: one entry per
    occurrence. *)
Definition uses (h : string) (contents : list CampaignContent)
  : list CampaignContent :=
  snd <$> filter (fun p => p.1 = h) (tagged contents).

(** The items that carry hashtag [h], each once. *)
Definition sharing (h : string) (contents : list CampaignContent)
  : list CampaignContent :=
  filter (fun c => h ∈ Text.lower <$> cc_hashtags c) contents.

Definition hashtag_of (c : campaign) : option string :=
  match c with
  | HashtagCoordination h _ _ _ _ _ => Some h
  | _ => None
  end.

(** Number of hashtag clusters reported for [h]. *)
Definition clusters_for (h : string) (cs : list campaign) : nat :=
  length (filter (fun c => hashtag_of c = Some h) cs).

Lemma hashtag_usage_tagged (contents : list CampaignContent) :
  hashtag_usage contents
  = foldl (fun d p => dict_append p.1 p.2 d) [] (tagged contents).
Proof.
  unfold hashtag_usage. generalize (@nil (string * list CampaignContent)).
  induction contents as [|c cs IH]; intros d; [done|].
  cbn [foldl]. rewrite IH. unfold tagged. rewrite bind_cons, foldl_app.
  f_equal. clear IH. revert d.
  induction (cc_hashtags c) as [|h hs IHh]; intros d; [done|].
  rewrite fmap_cons. cbn [foldl]. by rewrite IHh.
Qed.

Lemma assoc_hashtag_usage (h : string) (contents : list CampaignContent) :
  assoc h (hashtag_usage contents) = extend None (uses h contents).
Proof.
  rewrite hashtag_usage_tagged.
  by rewrite (assoc_grouped fst snd (tagged contents) [] h).
Qed.

Lemma dict_append_nonempty {K V} `{EqDecision K} (k : K) (v : V)
    (d : list (K * list V)) :
  Forall (fun e => e.2 ≠ []) d ->
  Forall (fun e => e.2 ≠ []) (dict_append k v d).
Proof.
  induction 1 as [|[k0 vs] d Hvs Hd IH]; simpl.
  - by repeat constructor.
  - destruct (decide (k = k0)); constructor; simpl in *; try done.
    by destruct vs.
Qed.

Lemma grouped_nonempty {K V X} `{EqDecision K} (kf : X -> K) (vf : X -> V)
    (l : list X) (d0 : list (K * list V)) :
  Forall (fun e => e.2 ≠ []) d0 ->
  Forall (fun e => e.2 ≠ [])
         (foldl (fun d x => dict_append (kf x) (vf x) d) d0 l).
Proof.
  revert d0. induction l as [|x l IH]; intros d0 Hd0; [done|].
  simpl. by apply IH, dict_append_nonempty.
Qed.

Lemma time_span_ok (cs : list CampaignContent) :
  cs ≠ [] -> exists span, _calculate_time_span cs = Ok span.
Proof.
  destruct cs as [|c cs]; [done|]. intros _.
  unfold _calculate_time_span. rewrite fmap_cons. by eexists.
Qed.

Lemma hashtag_campaign_spec (h : string) (cs : list CampaignContent) :
  cs ≠ [] ->
  exists l, hashtag_campaign (h, cs) = Ok l
    /\ forall h', clusters_for h' l
         = if decide (h' = h /\ (5 <= length cs)%nat
                      /\ (3 <= size (unique_authors cs))%nat)
           then 1%nat else 0%nat.
Proof.
  intros Hne. unfold hashtag_campaign.
  destruct (time_span_ok cs Hne) as [span ->].
  destruct (threat_level_ok cs Hne) as (level & -> & _).
  destruct (Nat.leb_spec 5 (length cs)) as [H5|H5].
  - destruct (Nat.leb_spec 3 (size (unique_authors cs))) as [H3|H3].
    + eexists. split; [reflexivity|]. intros h'.
      unfold clusters_for. simpl.
      destruct (decide (h' = h)) as [->|Hh].
      * rewrite filter_cons_True by done.
        rewrite decide_True by done. done.
      * rewrite filter_cons_False by (simpl; congruence).
        rewrite decide_False by tauto. done.
    + exists []. split; [done|]. intros h'.
      rewrite decide_False by lia. done.
  - exists []. split; [done|]. intros h'.
    rewrite decide_False by lia. done.
Qed.

Lemma clusters_for_app (h : string) (l1 l2 : list campaign) :
  clusters_for h (l1 ++ l2) = (clusters_for h l1 + clusters_for h l2)%nat.
Proof. unfold clusters_for. by rewrite filter_app, length_app. Qed.

Lemma hashtag_groups_spec (d : list (string * list CampaignContent)) :
  NoDup d.*1 ->
  Forall (fun e => e.2 ≠ []) d ->
  exists cs, concat_mapM hashtag_campaign d = Ok cs
    /\ forall h, clusters_for h cs
         = match assoc h d with
           | Some l =>
               if decide ((5 <= length l)%nat
                          /\ (3 <= size (unique_authors l))%nat)
               then 1%nat else 0%nat
           | None => 0%nat
           end.
Proof.
  induction d as [|[k l] d IH]; intros Hnd Hne.
  - exists []. split; [done|]. done.
  - rewrite fmap_cons in Hnd. apply NoDup_cons in Hnd as [Hk Hnd].
    apply Forall_cons in Hne as [Hl Hne]. simpl in Hl, Hk.
    destruct (IH Hnd Hne) as (cs & Hcs & Hcount).
    destruct (hashtag_campaign_spec k l Hl) as (l1 & Hl1 & Hcount1).
    exists (l1 ++ cs). split.
    + cbn [concat_mapM]. rewrite Hl1, Hcs. done.
    + intros h. rewrite clusters_for_app, Hcount1, Hcount. cbn [assoc].
      destruct (decide (h = k)) as [->|Hh].
      * apply assoc_None in Hk. rewrite Hk.
        destruct (decide ((5 <= length l)%nat
                          /\ (3 <= size (unique_authors l))%nat)).
        -- rewrite decide_True by tauto. done.
        -- rewrite decide_False by tauto. done.
      * rewrite decide_False by tauto. done.
Qed.

(** The hashtag sub-detector never raises, and it reports one cluster
    for a hashtag when the hashtag occurs at least 5 times over at least
    3 authors, none otherwise; an item that lists the hashtag twice
    counts twice. *)
Lemma hashtag_clusters_spec (contents : list CampaignContent) :
  exists cs, _detect_hashtag_coordination contents = Ok cs
    /\ forall h, clusters_for h cs
         = if decide ((5 <= length (uses h contents))%nat
                      /\ (3 <= size (unique_authors (uses h contents)))%nat)
           then 1%nat else 0%nat.
Proof.
  unfold _detect_hashtag_coordination.
  destruct (hashtag_groups_spec (hashtag_usage contents))
    as (cs & Hcs & Hcount).
  - rewrite hashtag_usage_tagged. apply grouped_NoDup. constructor.
  - rewrite hashtag_usage_tagged. apply grouped_nonempty. constructor.
  - exists cs. split; [done|]. intros h.
    rewrite Hcount, assoc_hashtag_usage. unfold extend.
    destruct (uses h contents) as [|c l] eqn:E; [|done].
    case_decide as Hd; [|done]. destruct Hd as [Hd _]. simpl in Hd. lia.
Qed.

(** How often item [c] lists hashtag [h]. *)
Definition occurrences (h : string) (c : CampaignContent) : nat :=
  length (filter (fun x => x = h) (Text.lower <$> cc_hashtags c)).

Lemma occurrences_pos (h : string) (c : CampaignContent) :
  (0 < occurrences h c)%nat <-> h ∈ Text.lower <$> cc_hashtags c.
Proof.
  unfold occurrences.
  induction (Text.lower <$> cc_hashtags c) as [|x l IH].
  - simpl. split; [lia|]. by intros ?%elem_of_nil.
  - destruct (decide (x = h)) as [->|Hx].
    + rewrite filter_cons_True by done. simpl. split; [|lia].
      intros _. left.
    + rewrite filter_cons_False by done. rewrite IH.
      rewrite elem_of_cons. naive_solver.
Qed.

Lemma occurrences_NoDup (h : string) (c : CampaignContent) :
  NoDup (Text.lower <$> cc_hashtags c) -> (occurrences h c <= 1)%nat.
Proof.
  unfold occurrences.
  induction 1 as [|x l Hx Hnd IH]; [simpl; lia|].
  destruct (decide (x = h)) as [->|Hne].
  - rewrite filter_cons_True by done. simpl.
    assert (filter (fun x => x = h) l = []) as ->; [|simpl; lia].
    clear IH Hnd. induction l as [|y l IHl]; [done|].
    apply not_elem_of_cons in Hx as [Hy Hl].
    rewrite filter_cons_False by done. by apply IHl.
  - rewrite filter_cons_False by done. exact IH.
Qed.

Lemma uses_cons (h : string) (c : CampaignContent)
    (cs : list CampaignContent) :
  uses h (c :: cs) = replicate (occurrences h c) c ++ uses h cs.
Proof.
  unfold uses, tagged, occurrences. rewrite bind_cons, filter_app, fmap_app.
  f_equal. induction (cc_hashtags c) as [|x l IH]; [done|].
  rewrite !fmap_cons. destruct (decide (Text.lower x = h)) as [Hx|Hx].
  - rewrite !filter_cons_True by done. rewrite fmap_cons.
    cbn [length replicate snd]. f_equal. exact IH.
  - rewrite !filter_cons_False by done. exact IH.
Qed.

Lemma sharing_cons (h : string) (c : CampaignContent)
    (cs : list CampaignContent) :
  sharing h (c :: cs)
  = if decide (0 < occurrences h c)%nat then c :: sharing h cs
    else sharing h cs.
Proof.
  unfold sharing. destruct (decide (0 < occurrences h c)%nat) as [Hp|Hp].
  - rewrite filter_cons_True; [done|]. by apply occurrences_pos.
  - rewrite filter_cons_False; [done|]. by rewrite <- occurrences_pos.
Qed.

Lemma sharing_le_uses (h : string) (contents : list CampaignContent) :
  (length (sharing h contents) <= length (uses h contents))%nat.
Proof.
  induction contents as [|c cs IH]; [done|].
  rewrite uses_cons, sharing_cons, length_app, length_replicate.
  destruct (decide (0 < occurrences h c)%nat); simpl; lia.
Qed.

Lemma authors_uses_sharing (h : string) (contents : list CampaignContent) :
  unique_authors (uses h contents) = unique_authors (sharing h contents).
Proof.
  unfold unique_authors.
  induction contents as [|c cs IH]; [done|].
  rewrite uses_cons, sharing_cons, fmap_app, list_to_set_app_L, IH.
  destruct (decide (0 < occurrences h c)%nat) as [Hp|Hp].
  - destruct (occurrences h c) as [|n]; [lia|].
    simpl. rewrite fmap_replicate. clear. induction n; set_solver.
  - replace (occurrences h c) with 0%nat by lia. simpl. set_solver.
Qed.

Lemma uses_sharing (h : string) (contents : list CampaignContent) :
  Forall (fun c => NoDup (Text.lower <$> cc_hashtags c)) contents ->
  uses h contents = sharing h contents.
Proof.
  induction 1 as [|c cs Hc Hcs IH]; [done|].
  rewrite uses_cons, sharing_cons, IH.
  pose proof (occurrences_NoDup h c Hc).
  destruct (decide (0 < occurrences h c)%nat).
  - by replace (occurrences h c) with 1%nat by lia.
  - by replace (occurrences h c) with 0%nat by lia.
Qed.

(** What holds of the claim's thresholds: 5 items of 3 authors sharing a
    hashtag give exactly one cluster for it; sharers of only 2 authors
    give none; and 4 sharing items give none as long as no item lists
    the hashtag twice. *)
Lemma hashtag_cluster_thresholds (contents : list CampaignContent)
    (h : string) :
  exists cs, _detect_hashtag_coordination contents = Ok cs
    /\ (length (sharing h contents) = 5%nat ->
        size (unique_authors (sharing h contents)) = 3%nat ->
        clusters_for h cs = 1%nat)
    /\ (size (unique_authors (sharing h contents)) = 2%nat ->
        clusters_for h cs = 0%nat)
    /\ (Forall (fun c => NoDup (Text.lower <$> cc_hashtags c)) contents ->
        length (sharing h contents) = 4%nat ->
        clusters_for h cs = 0%nat).
Proof.
  destruct (hashtag_clusters_spec contents) as (cs & Hcs & Hcount).
  exists cs. split; [exact Hcs|].
  pose proof (sharing_le_uses h contents) as Hle.
  rewrite Hcount, authors_uses_sharing.
  split; [|split].
  - intros H5 H3. rewrite decide_True by lia. done.
  - intros H2. rewrite decide_False by lia. done.
  - intros Hnd H4. rewrite (uses_sharing h contents Hnd).
    rewrite decide_False by lia. done.
Qed.

(** Four posts of one day by three authors; the first repeats the
    hashtag, as [re.findall] reports it for its text. *)
Definition four_posts : list CampaignContent :=
  [ post "1" "u1" "Join #BoycottIndia now #boycottindia" noon
      ["#BoycottIndia"; "#boycottindia"] "LOW";
    post "2" "u2" "Time to #BoycottIndia" noon ["#BoycottIndia"] "LOW";
    post "3" "u3" "#boycottindia everywhere" noon ["#boycottindia"] "LOW";
    post "4" "u1" "Again: #BOYCOTTINDIA" noon ["#BOYCOTTINDIA"] "LOW" ].

(** C2. Only four items share the hashtag "#boycottindia" in
    [four_posts], yet the hashtag sub-detector reports a cluster for it,
    with a post count of 5: the first item lists the hashtag twice and is
    appended to the group twice.  The driver passes the cluster on. *)
Theorem four_sharing_items_reported :
  length (sharing "#boycottindia" four_posts) = 4%nat
  /\ size (unique_authors (sharing "#boycottindia" four_posts)) = 3%nat
  /\ _detect_hashtag_coordination four_posts
     = Ok [HashtagCoordination "#boycottindia"
             (elements (unique_authors four_posts)) 5 0 ["reddit"] "LOW"]
  /\ (exists cs, detect_coordinated_campaigns four_posts = Ok cs
                 /\ clusters_for "#boycottindia" cs = 1%nat).
Proof.
  split; [vm_compute; reflexivity|].
  split; [vm_compute; reflexivity|].
  split; [vm_compute; reflexivity|].
  eexists. split; [vm_compute; reflexivity|]. vm_compute; reflexivity.
Qed.

End HashtagSynchrony.

(** ** Content-similarity clustering *)

Section SimilarityClustering.
Import CoordinatedCampaignDetector.

(** The items one pass of the inner loop absorbs, with their positions. *)
Fixpoint absorbed (content1 : CampaignContent) (j : nat)
    (rest : list CampaignContent) (processed : gset nat)
  : list (nat * CampaignContent) :=
  match rest with
  | [] => []
  | content2 :: rest' =>
      if decide (j ∈ processed) then absorbed content1 (S j) rest' processed
      else if Qltb similarity_threshold
                (_calculate_content_similarity (content content1)
                                               (content content2))
      then (j, content2) :: absorbed content1 (S j) rest' ({[j]} ∪ processed)
      else absorbed content1 (S j) rest' processed
  end.

Lemma absorb_absorbed content1 j rest sim processed :
  absorb content1 j rest sim processed
  = (sim ++ absorbed content1 j rest processed,
     processed ∪ list_to_set (absorbed content1 j rest processed).*1).
Proof.
  revert j sim processed.
  induction rest as [|c2 rest IH]; intros j sim processed; simpl.
  - rewrite app_nil_r. f_equal. set_solver.
  - destruct (decide (j ∈ processed)); [apply IH|].
    destruct (Qltb _ _); [|apply IH].
    rewrite IH, <- app_assoc. simpl. f_equal. set_solver.
Qed.

Lemma absorbed_spec content1 j rest processed k c :
  (k, c) ∈ absorbed content1 j rest processed ->
  (j <= k)%nat /\ (k ∉ processed) /\ rest !! (k - j)%nat = Some c
  /\ Qltb similarity_threshold
       (_calculate_content_similarity (content content1) (content c))
     = true.
Proof.
  revert j processed.
  induction rest as [|c2 rest IH]; intros j processed; simpl.
  - by intros ?%elem_of_nil.
  - assert (forall p, (k, c) ∈ absorbed content1 (S j) rest p ->
              (j <= k)%nat /\ (k ∉ p) /\ (c2 :: rest) !! (k - j)%nat = Some c
              /\ Qltb similarity_threshold
                   (_calculate_content_similarity (content content1)
                                                  (content c)) = true)
      as Hrec.
    { intros p Hin. destruct (IH _ _ Hin) as (Hle & Hp & Hlook & Hsim).
      split; [lia|]. split; [done|]. split; [|done].
      replace (k - j)%nat with (S (k - S j)) by lia. done. }
    destruct (decide (j ∈ processed)) as [Hj|Hj]; [apply Hrec|].
    destruct (Qltb similarity_threshold
              (_calculate_content_similarity (content content1)
                                             (content c2))) eqn:Hsim;
      [|apply Hrec].
    intros [Heq|Hin]%elem_of_cons.
    + inversion Heq; subst. split; [lia|]. split; [done|].
      rewrite Nat.sub_diag. done.
    + destruct (Hrec _ Hin) as (Hle & Hp & Hlook & Hs).
      split; [done|]. split; [set_solver|]. done.
Qed.

Lemma absorbed_gt content1 j rest processed k :
  k ∈ (absorbed content1 j rest processed).*1 -> (j <= k)%nat.
Proof.
  intros [[k' c] [-> Hin]]%list_elem_of_fmap.
  by destruct (absorbed_spec _ _ _ _ _ _ Hin).
Qed.

Lemma absorbed_NoDup content1 j rest processed :
  NoDup (absorbed content1 j rest processed).*1.
Proof.
  revert j processed.
  induction rest as [|c2 rest IH]; intros j processed; simpl.
  - constructor.
  - destruct (decide (j ∈ processed)); [apply IH|].
    destruct (Qltb _ _); [|apply IH].
    rewrite fmap_cons. constructor; [|apply IH].
    intros Hin%absorbed_gt. simpl in Hin. lia.
Qed.

(** The campaign a group gives rise to, if it is reported. *)
Definition campaign_of (cl : cluster) : option campaign :=
  match similar cl with
  | [] => None
  | (_, content1) :: _ =>
      match similarity_campaign content1 (similar cl).*2 with
      | Ok (Some c) => Some c
      | _ => None
      end
  end.

Lemma similarity_campaign_spec content1 (l : list CampaignContent) :
  if (3 <=? length l)%nat && (2 <=? size (unique_authors l))%nat
  then exists c, similarity_campaign content1 l = Ok (Some c)
  else similarity_campaign content1 l = Ok None.
Proof.
  unfold similarity_campaign.
  destruct (3 <=? length l)%nat eqn:H3; [|reflexivity].
  destruct (2 <=? size (unique_authors l))%nat; [|reflexivity].
  apply Nat.leb_le in H3.
  destruct (threat_level_ok l) as (level & -> & _).
  - destruct l; simpl in *; [lia|done].
  - by eexists.
Qed.

Lemma omap_cons_Some {A B} (f : A -> option B) (x : A) (y : B)
    (l : list A) :
  f x = Some y -> omap f (x :: l) = y :: omap f l.
Proof. intros Hx. simpl. by rewrite Hx. Qed.

Lemma omap_cons_None {A B} (f : A -> option B) (x : A) (l : list A) :
  f x = None -> omap f (x :: l) = omap f l.
Proof. intros Hx. simpl. by rewrite Hx. Qed.

(** The loop of the source and the record of its groups agree: the
    campaigns appended are those of the reported groups, in order, and
    the processed sets coincide. *)
Lemma similarity_loop_clusters rest i campaigns processed :
  similarity_loop i rest campaigns processed
  = Ok (campaigns
        ++ omap campaign_of (similarity_clusters i rest processed).1,
        (similarity_clusters i rest processed).2).
Proof.
  revert i campaigns processed.
  induction rest as [|c1 rest IH]; intros i campaigns processed;
    cbn [similarity_loop similarity_clusters].
  - simpl. by rewrite app_nil_r.
  - destruct (decide (i ∈ processed)); [apply IH|].
    rewrite absorb_absorbed. cbv beta iota zeta.
    generalize (processed ∪ list_to_set (absorbed c1 (S i) rest processed).*1).
    intros p1.
    remember ([(i, c1)] ++ absorbed c1 (S i) rest processed) as sim eqn:Esim.
    destruct sim as [|[j0 c0] tl]; [done|].
    assert (c0 = c1) as -> by (simpl in Esim; congruence).
    clear Esim.
    pose proof (similarity_campaign_spec c1 ((j0, c1) :: tl).*2) as Hspec.
    rewrite length_fmap in Hspec.
    destruct ((3 <=? length ((j0, c1) :: tl))%nat
              && (2 <=? size (unique_authors ((j0, c1) :: tl).*2))%nat)
      eqn:Hrep.
    + destruct Hspec as [c Hc]. rewrite Hc. cbn [mbind result_bind].
      rewrite IH.
      destruct (similarity_clusters (S i) rest ({[i]} ∪ p1)) as [cls final].
      cbn [fst snd].
      rewrite (omap_cons_Some campaign_of _ c)
        by (unfold campaign_of; cbn [similar]; by rewrite Hc).
      by rewrite <- app_assoc.
    + rewrite Hspec. cbn [mbind result_bind]. rewrite IH.
      destruct (similarity_clusters (S i) rest p1) as [cls final].
      cbn [fst snd].
      rewrite (omap_cons_None campaign_of)
        by (unfold campaign_of; cbn [similar]; by rewrite Hspec).
      done.
Qed.

(** What the run guarantees of a group, in a run that started at
    position [lo] with [processed] already marked and ended with
    [final]: its seed and the items it absorbed are positions of
    [contents] that were not marked before, each absorbed item lies
    after the seed, exceeds the threshold against it and is marked at the
    end; the seed is marked if the group was reported. *)
Definition group_ok (contents : list CampaignContent) (lo : nat)
    (processed final : gset nat) (cl : cluster) : Prop :=
  exists s c1 abs,
    similar cl = (s, c1) :: abs
    /\ reported cl
       = (3 <=? length (similar cl))%nat
         && (2 <=? size (unique_authors (similar cl).*2))%nat
    /\ (lo <= s)%nat /\ contents !! s = Some c1 /\ (s ∉ processed)
    /\ NoDup (members cl)
    /\ (reported cl = true -> s ∈ final)
    /\ forall j c2, (j, c2) ∈ abs ->
         (s < j)%nat /\ contents !! j = Some c2 /\ (j ∉ processed)
         /\ j ∈ final
         /\ Qltb similarity_threshold
              (_calculate_content_similarity (content c1) (content c2))
            = true.

Lemma group_ok_members contents lo processed final cl k :
  group_ok contents lo processed final cl -> k ∈ members cl ->
  (lo <= k)%nat /\ k ∉ processed.
Proof.
  intros (s & c1 & abs & Hsim & _ & Hlo & _ & Hs & _ & _ & Habs) Hk.
  unfold members in Hk. rewrite Hsim, fmap_cons in Hk.
  apply elem_of_cons in Hk as [->|Hk]; [done|].
  apply list_elem_of_fmap in Hk as [[j c2] [-> Hin]].
  destruct (Habs _ _ Hin) as (Hlt & _ & Hj & _). simpl. split; [lia|done].
Qed.

Lemma group_ok_weaken contents lo lo' processed processed' final cl :
  (lo' <= lo)%nat -> processed' ⊆ processed ->
  group_ok contents lo processed final cl ->
  group_ok contents lo' processed' final cl.
Proof.
  intros Hlo Hsub
    (s & c1 & abs & Hsim & Hr & Hle & Hlook & Hs & Hnd & Hrep & Habs).
  exists s, c1, abs. split; [done|]. split; [done|].
  split; [lia|]. split; [done|].
  split; [set_solver|]. split; [done|]. split; [done|].
  intros j c2 Hin. destruct (Habs _ _ Hin) as (? & ? & ? & ? & ?).
  split; [done|]. split; [done|]. split; [set_solver|]. done.
Qed.

Lemma clusters_inv rest :
  forall i processed pre cls final,
    length pre = i ->
    similarity_clusters i rest processed = (cls, final) ->
    processed ⊆ final
    /\ Forall (group_ok (pre ++ rest) i processed final) cls
    /\ (forall n1 n2 cl1 cl2 k,
          cls !! n1 = Some cl1 -> cls !! n2 = Some cl2 ->
          k ∈ members cl1 -> k ∈ members cl2 -> n1 = n2).
Proof.
  induction rest as [|c1 rest IH]; intros i processed pre cls final Hlen Hrun.
  - simpl in Hrun. inversion Hrun; subst. split; [done|].
    split; [constructor|]. intros n1 n2 cl1 cl2 k Hn1. done.
  - cbn [similarity_clusters] in Hrun.
    assert (pre ++ c1 :: rest = (pre ++ [c1]) ++ rest) as Happ
      by by rewrite <- app_assoc.
    assert (length (pre ++ [c1]) = S i) as Hlen'
      by (rewrite length_app; simpl; lia).
    destruct (decide (i ∈ processed)) as [Hi|Hi].
    + destruct (IH _ _ _ _ _ Hlen' Hrun) as (Hsub & Hall & Hdisj).
      split; [done|]. split; [|done]. rewrite Happ.
      eapply Forall_impl; [exact Hall|]. intros cl Hcl.
      eapply group_ok_weaken; [| |exact Hcl]; [lia|done].
    + rewrite absorb_absorbed in Hrun. cbv beta iota zeta in Hrun.
      set (abs := absorbed c1 (S i) rest processed) in *.
      set (p1 := processed ∪ list_to_set abs.*1) in *.
      set (rep := (3 <=? length ([(i, c1)] ++ abs))%nat
                  && (2 <=? size (unique_authors ([(i, c1)] ++ abs).*2))%nat)
        in *.
      set (p' := if rep then {[i]} ∪ p1 else p1) in *.
      destruct (similarity_clusters (S i) rest p') as [cls' final'] eqn:E.
      inversion Hrun; subst cls final. clear Hrun.
      destruct (IH _ _ _ _ _ Hlen' E) as (Hsub & Hall & Hdisj).
      assert (p1 ⊆ p') as Hp1 by (unfold p'; destruct rep; set_solver).
      assert (processed ⊆ p1) as Hp by (unfold p1; set_solver).
      assert (forall j c2, (j, c2) ∈ abs -> j ∈ final') as Hfinal.
      { intros j c2 Hin. apply Hsub, Hp1. unfold p1.
        apply elem_of_union_r, elem_of_list_to_set, list_elem_of_fmap.
        by exists (j, c2). }
      assert (group_ok (pre ++ c1 :: rest) i processed final'
                {| similar := [(i, c1)] ++ abs; reported := rep |}) as Hhead.
      { exists i, c1, abs. split; [done|]. split; [done|]. split; [lia|].
        split; [subst i; by apply list_lookup_middle|].
        split; [done|]. split.
        { unfold members. cbn [similar app]. rewrite fmap_cons.
          constructor; [|apply absorbed_NoDup].
          intros Hin%absorbed_gt. simpl in Hin. lia. }
        split.
        { cbn [reported]. intros Hrep. apply Hsub. unfold p'.
          rewrite Hrep. set_solver. }
        intros j c2 Hin.
        destruct (absorbed_spec _ _ _ _ _ _ Hin) as (Hle & Hj & Hlook & Hs).
        split; [lia|]. split.
        { rewrite lookup_app_r by lia.
          replace (j - length pre)%nat with (S (j - S i)) by lia. done. }
        split; [done|]. split; [by eapply Hfinal|done]. }
      split; [set_solver|]. split.
      * constructor; [exact Hhead|]. rewrite Happ.
        eapply Forall_impl; [exact Hall|]. intros cl Hcl.
        eapply group_ok_weaken; [| |exact Hcl]; [lia|set_solver].
      * assert (forall m cl k, cls' !! m = Some cl ->
                  k ∈ members {| similar := [(i, c1)] ++ abs;
                                 reported := rep |} ->
                  k ∈ members cl -> False) as Hhd.
        { intros m cl k Hm Hk1 Hk2.
          assert (group_ok ((pre ++ [c1]) ++ rest) (S i) p' final' cl) as Hcl.
          { eapply Forall_forall; [exact Hall|].
            by eapply list_elem_of_lookup_2. }
          destruct (group_ok_members _ _ _ _ _ _ Hcl Hk2) as [Hge Hnp].
          unfold members in Hk1. cbn [similar app] in Hk1.
          rewrite fmap_cons in Hk1.
          apply elem_of_cons in Hk1 as [->|Hk1]; [simpl in Hge; lia|].
          apply Hnp, Hp1. unfold p1. set_solver. }
        intros n1 n2 cl1 cl2 k Hn1 Hn2 Hk1 Hk2.
        destruct n1 as [|n1], n2 as [|n2]; simpl in Hn1, Hn2.
        -- done.
        -- inversion Hn1; subst cl1. exfalso. by eapply Hhd.
        -- inversion Hn2; subst cl2. exfalso. by eapply Hhd.
        -- f_equal. by eapply Hdisj.
Qed.

Lemma campaign_of_reported contents lo processed final cl :
  group_ok contents lo processed final cl ->
  (reported cl = true <-> is_Some (campaign_of cl))
  /\ forall c, campaign_of cl = Some c ->
       exists accounts template platforms level,
         c = ContentSimilarity (length (members cl)) accounts template
               platforms level.
Proof.
  intros (s & c1 & abs & Hsim & Hr & _).
  unfold campaign_of, members. rewrite Hsim. rewrite Hsim in Hr.
  pose proof (similarity_campaign_spec c1 ((s, c1) :: abs).*2) as Hspec.
  rewrite length_fmap, <- Hr in Hspec. split.
  - destruct (reported cl).
    + destruct Hspec as [c ->]. split; [by eexists|done].
    + rewrite Hspec. split; [done|]. by intros [? ?].
  - intros c Hc. unfold similarity_campaign in Hc.
    rewrite !length_fmap in *.
    destruct (3 <=? length ((s, c1) :: abs))%nat; [|done].
    destruct (2 <=? size (unique_authors ((s, c1) :: abs).*2))%nat; [|done].
    destruct (_calculate_campaign_threat_level ((s, c1) :: abs).*2)
      as [level|e]; [|done].
    cbn [mbind result_bind] in Hc. inversion Hc. by repeat eexists.
Qed.




End SimilarityClustering.

(** ** The driver's day windows *)

Section DayWindows.
Import CoordinatedCampaignDetector.

(** Five posts of one day by three authors sharing a hashtag, stamped as
    [datetime.now()] stamps them: the microseconds differ. *)
Definition five_posts : list CampaignContent :=
  [ post "1" "u1" "#FreeKashmir one" (at_time 739000 9 15 2 120001)
      ["#FreeKashmir"] "LOW";
    post "2" "u2" "#FreeKashmir two" (at_time 739000 9 15 2 480417)
      ["#FreeKashmir"] "LOW";
    post "3" "u3" "#FreeKashmir three" (at_time 739000 11 40 9 3)
      ["#FreeKashmir"] "LOW";
    post "4" "u1" "#FreeKashmir four" (at_time 739000 16 1 30 999000)
      ["#FreeKashmir"] "LOW";
    post "5" "u2" "#FreeKashmir five" (at_time 739000 20 59 59 77)
      ["#FreeKashmir"] "LOW" ].

(** The day key keeps the microsecond field, so posts of one day with
    different microseconds fall into different windows, each below the
    3-post minimum: the driver reports nothing where the hashtag
    sub-detector, given the five posts, reports their cluster. *)
Lemma same_day_split_by_microsecond :
  Forall (fun c => dt_date (timestamp c) = 739000) five_posts
  /\ length (time_grouped five_posts) = 5%nat
  /\ (exists cs, _detect_hashtag_coordination five_posts = Ok cs
                 /\ clusters_for "#freekashmir" cs = 1%nat)
  /\ detect_coordinated_campaigns five_posts = Ok [].
Proof.
  split; [by repeat constructor|].
  split; [vm_compute; reflexivity|].
  split; [|vm_compute; reflexivity].
  eexists. split; vm_compute; reflexivity.
Qed.

End DayWindows.

(** ** The stable descending sort *)

Section SortDesc.
Context {A : Type} (key : A -> Q).

Local Notation "'lt'" := (fun x y => Qltb (key x) (key y)).

Lemma sublist_singleton (x : A) (l : list A) : [x] `sublist_of` l <-> x ∈ l.
Proof.
  induction l as [|y l IH].
  - split; [by intros ?%sublist_nil_r|by intros ?%elem_of_nil].
  - rewrite sublist_cons_r, elem_of_cons, IH. split.
    + intros [?|(l' & Heq & _)]; [by right|]. inversion Heq. by left.
    + intros [->|?]; [|by left]. right. exists []. split; [done|].
      apply sublist_nil_l.
Qed.

Lemma sublist_pair_cons (a b y : A) (l : list A) :
  [a; b] `sublist_of` y :: l <->
  [a; b] `sublist_of` l \/ (a = y /\ b ∈ l).
Proof.
  rewrite sublist_cons_r. split.
  - intros [?|(l' & Heq & Hsub)]; [by left|]. inversion Heq; subst.
    right. split; [done|]. by apply sublist_singleton.
  - intros [?|[-> Hb]]; [by left|]. right. exists [b]. split; [done|].
    by apply sublist_singleton.
Qed.

Lemma insert_desc_perm (x : A) (l : list A) :
  insert_desc lt x l ≡ₚ x :: l.
Proof.
  induction l as [|y l IH]; simpl; [done|].
  destruct (Qltb (key x) (key y)); [|done].
  rewrite IH. apply Permutation_swap.
Qed.


Definition descending (l : list A) : Prop :=
  forall a b, [a; b] `sublist_of` l -> (key b <= key a)%Q.

Lemma descending_tail (y : A) (l : list A) :
  descending (y :: l) -> descending l.
Proof.
  intros Hd a b Hab. apply Hd. apply sublist_pair_cons. by left.
Qed.

(** Where a pair of the list after an insertion comes from. *)
Lemma insert_desc_pairs (x : A) (l : list A) (a b : A) :
  descending l ->
  [a; b] `sublist_of` insert_desc lt x l ->
  [a; b] `sublist_of` l
  \/ (a = x /\ b ∈ l /\ (key b <= key x)%Q)
  \/ (b = x /\ a ∈ l /\ (key x < key a)%Q).
Proof.
  induction l as [|y l IH]; intros Hd; simpl.
  - intros Hsub. apply sublist_pair_cons in Hsub as [Hsub|[_ Hb]].
    + by apply sublist_nil_r in Hsub.
    + by apply elem_of_nil in Hb.
  - destruct (Qltb (key x) (key y)) eqn:Hxy.
    + apply Qltb_lt in Hxy.
      intros [Hsub|[-> Hb]]%sublist_pair_cons.
      * destruct (IH (descending_tail _ _ Hd) Hsub)
          as [Hl|[(-> & Hb & Hle)|(-> & Ha & Hlt)]].
        -- left. apply sublist_pair_cons. by left.
        -- right. left. split; [done|]. split; [by right|done].
        -- right. right. split; [done|]. split; [by right|done].
      * rewrite insert_desc_perm in Hb.
        apply elem_of_cons in Hb as [->|Hb].
        -- right. right. split; [done|]. split; [left|done].
        -- left. apply sublist_pair_cons. by right.
    + unfold Qltb in Hxy. apply negb_false_iff, Qle_bool_iff in Hxy.
      intros [Hsub|[-> Hb]]%sublist_pair_cons; [by left|].
      right. left. split; [done|]. split; [done|].
      apply elem_of_cons in Hb as [->|Hb]; [done|].
      eapply Qle_trans; [|exact Hxy]. apply Hd.
      apply sublist_pair_cons. by right.
Qed.

Lemma sort_desc_descending (l : list A) : descending (sort_desc lt l).
Proof.
  induction l as [|x l IH]; simpl.
  - intros a b Hab. by apply sublist_nil_r in Hab.
  - fold (sort_desc lt l). intros a b Hab.
    destruct (insert_desc_pairs _ _ _ _ IH Hab)
      as [Hl|[(-> & Hb & Hle)|(-> & Ha & Hlt)]].
    + by apply IH.
    + done.
    + by apply Qlt_le_weak.
Qed.


End SortDesc.

(** ** Influencers *)

Section Influencers.
Import EngagementAnalyzer.




Lemma assoc_dict_update {K V} `{EqDecision K} (k k' : K) (f : V -> V)
    (dflt : V) (d : list (K * V)) :
  assoc k' (dict_update k f dflt d)
  = if decide (k' = k) then Some (f (default dflt (assoc k d)))
    else assoc k' d.
Proof.
  induction d as [|[k0 v] d IH]; simpl.
  - by destruct (decide (k' = k)).
  - destruct (decide (k = k0)) as [-> |Hk]; simpl.
    + destruct (decide (k' = k0)) as [-> |Hk']; [done|done].
    + destruct (decide (k' = k0)) as [-> |Hk'].
      * by rewrite decide_False.
      * exact IH.
Qed.

Lemma dict_update_keys {K V} `{EqDecision K} (k : K) (f : V -> V)
    (dflt : V) (d : list (K * V)) :
  (dict_update k f dflt d).*1
  = if decide (k ∈ d.*1) then d.*1 else d.*1 ++ [k].
Proof.
  induction d as [|[k0 v] d IH]; [done|].
  cbn [dict_update]. destruct (decide (k = k0)) as [-> |Hk].
  - rewrite !fmap_cons. cbn [fst].
    rewrite decide_True by set_solver. done.
  - rewrite !fmap_cons, IH. cbn [fst].
    destruct (decide (k ∈ d.*1)) as [Hin|Hnin].
    + rewrite decide_True by set_solver. done.
    + rewrite decide_False by set_solver. done.
Qed.

Lemma assoc_elem_of {K V} `{EqDecision K} (k : K) (v : V)
    (d : list (K * V)) :
  NoDup d.*1 -> (k, v) ∈ d -> assoc k d = Some v.
Proof.
  induction d as [|[k0 v0] d IH]; intros Hnd Hin.
  - by apply elem_of_nil in Hin.
  - rewrite fmap_cons in Hnd. apply NoDup_cons in Hnd as [Hk0 Hnd].
    simpl. apply elem_of_cons in Hin as [Heq|Hin].
    + inversion Heq; subst. by rewrite decide_True.
    + destruct (decide (k = k0)) as [-> |Hne]; [|by apply IH].
      exfalso. apply Hk0. simpl. apply list_elem_of_fmap.
      by exists (k0, v).
Qed.























End Influencers.

(** ** Adding rules *)

Section AddRule.
Import EnhancedKeywordDatabase.








End AddRule.

(** ** Trending anomalies *)

Section Anomalies.
Context `{FloatOps}.
Import TrendingAnomalies.



Lemma insert_desc_perm_any {A} (lt : A -> A -> bool) (x : A) (l : list A) :
  insert_desc lt x l ≡ₚ x :: l.
Proof.
  induction l as [|y l IH]; simpl; [done|].
  destruct (lt x y); [|done]. rewrite IH. apply Permutation_swap.
Qed.

Lemma sort_desc_perm_any {A} (lt : A -> A -> bool) (l : list A) :
  sort_desc lt l ≡ₚ l.
Proof.
  induction l as [|x l IH]; simpl; [done|].
  fold (sort_desc lt l). by rewrite insert_desc_perm_any, IH.
Qed.

Lemma assoc_Some_elem_of {K V} `{EqDecision K} (k : K) (v : V)
    (d : list (K * V)) :
  assoc k d = Some v -> (k, v) ∈ d.
Proof.
  induction d as [|[k0 v0] d IH]; simpl; [done|].
  destruct (decide (k = k0)) as [->|Hne].
  - intros [= ->]. left.
  - intros Hd. right. by apply IH.
Qed.






End Anomalies.

(** An arithmetic to run the detector with: exact rationals, the sample
    standard deviation rounded down to 12 decimal places. *)
Definition Qsqrt (q : Q) : Q :=
  Z.sqrt (Qnum q * 10 ^ 24 / Zpos (Qden q)) # 10 ^ 12.

Definition Qmean (l : list Z) : Q :=
  (inject_Z (Zsum l) / inject_Z (Z.of_nat (length l)))%Q.

Definition Qstd (l : list Z) : Q :=
  let mean := Qmean l in
  Qsqrt (Qred (Qsum ((fun x => (inject_Z x - mean) * (inject_Z x - mean))%Q <$> l)
               / inject_Z (Z.of_nat (length l) - 1))%Q).

Definition decimal_floats : FloatOps :=
  {| float := Q; of_int := inject_Z; agg_mean := Qmean; agg_std := Qstd;
     fsub := Qminus; fdiv := Qdiv; fabs := Qabs;
     fgt x y := Qltb y x; is_zero x := Qeq_bool x 0;
     notna _ := true |}.

(** Two days of hourly counters: "#x" on twitter has one row for each of
    the last 12 hours, quiet until a burst of 100 in the last one; "#y"
    has three rows, the last a burst of 1000. *)
Definition sample_counters : list TrendingAnomalies.pattern_row :=
  ((fun h : Z =>
      {| TrendingAnomalies.keyword_or_hashtag := "#x";
         TrendingAnomalies.tp_platform := "twitter";
         TrendingAnomalies.hour_timestamp := h * 3600;
         TrendingAnomalies.mention_count := if h =? 48 then 100 else 10;
         TrendingAnomalies.engagement_sum := 0;
         TrendingAnomalies.unique_users := 1 |})
   <$> [37; 38; 39; 40; 41; 42; 43; 44; 45; 46; 47; 48])
  ++ ((fun h : Z =>
         {| TrendingAnomalies.keyword_or_hashtag := "#y";
            TrendingAnomalies.tp_platform := "twitter";
            TrendingAnomalies.hour_timestamp := h * 3600;
            TrendingAnomalies.mention_count := if h =? 48 then 1000 else 1;
            TrendingAnomalies.engagement_sum := 0;
            TrendingAnomalies.unique_users := 1 |})
      <$> [46; 47; 48]).

Lemma sample_counters_anomalies :
  (fun a => (TrendingAnomalies.a_keyword_or_hashtag a,
             TrendingAnomalies.current_mentions a,
             TrendingAnomalies.a_threat_level a))
  <$> @TrendingAnomalies.detect_trending_anomalies decimal_floats
        sample_counters (48 * 3600) 48
  = [("#x", 100, "MEDIUM")].
Proof. vm_compute. reflexivity. Qed.


(** * Further properties of the coordination detectors *)

Section SimilarityMeasure.
Import CoordinatedCampaignDetector.


End SimilarityMeasure.

Section UniformTiers.
Import CoordinatedCampaignDetector.

Lemma Zsum_uniform (f : CampaignContent -> Z) (z : Z)
    (cs : list CampaignContent) :
  Forall (fun c => f c = z) cs -> Zsum (f <$> cs) = Z.of_nat (length cs) * z.
Proof.
  induction 1 as [|c cs Hc _ IH]; [done|].
  rewrite fmap_cons. cbn [Zsum foldr length]. fold (Zsum (f <$> cs)).
  rewrite IH, Hc. lia.
Qed.

(** X2. When every member of a non-empty campaign carries the same tier,
    one of LOW, MEDIUM, HIGH, CRITICAL, the campaign's threat level is that
    tier. *)
Theorem uniform_campaign_threat_level (level : string)
    (contents : list CampaignContent) :
  level ∈ known_levels ->
  contents ≠ [] ->
  Forall (fun c => cc_threat_level c = level) contents ->
  _calculate_campaign_threat_level contents = Ok level.
Proof.
  intros Hlevel Hne Hall.
  apply threat_scores_known in Hlevel as [z Hz].
  assert (Forall (fun c => member_score c = z) contents) as Hscores.
  { eapply Forall_impl; [exact Hall|]. intros c Hc.
    unfold member_score. by rewrite Hc, Hz. }
  destruct contents as [|c cs]; [done|].
  unfold _calculate_campaign_threat_level.
  rewrite (Zsum_uniform member_score z) by done.
  set (n := Z.of_nat (length (c :: cs))).
  assert (0 < n) as Hn by (unfold n; simpl; lia).
  assert ((inject_Z (n * z) / inject_Z n == inject_Z z)%Q) as Havg.
  { rewrite inject_Z_mult. rewrite Qmult_comm. apply Qdiv_mult_l.
    unfold Qeq. simpl. lia. }
  rewrite !(Qleb_comp _ _ (Qeq_refl _) _ _ Havg).
  unfold threat_scores in Hz.
  destruct (String.eqb_spec level "LOW") as [->|_];
    [by inversion Hz; subst|].
  destruct (String.eqb_spec level "MEDIUM") as [->|_];
    [by inversion Hz; subst|].
  destruct (String.eqb_spec level "HIGH") as [->|_];
    [by inversion Hz; subst|].
  destruct (String.eqb_spec level "CRITICAL") as [->|_];
    [by inversion Hz; subst|done].
Qed.

Lemma uniform_campaign_threat_level_witness :
  _calculate_campaign_threat_level
    [post "1" "u1" "x" noon [] "HIGH"; post "2" "u2" "y" noon [] "HIGH"]
  = Ok "HIGH".
Proof.
  apply uniform_campaign_threat_level.
  - unfold known_levels. set_solver.
  - done.
  - by repeat constructor.
Defined.

End UniformTiers.

Section GroupDetectors.
Import CoordinatedCampaignDetector.

(** A loop that appends at most one campaign per dictionary entry. *)
Lemma concat_mapM_select {E B} (f : E -> result (list B)) (cond : E -> bool)
    (mk : E -> B) (d : list E) :
  Forall (fun e => f e = Ok (if cond e then [mk e] else [])) d ->
  concat_mapM f d = Ok (mk <$> filter (fun e => cond e = true) d).
Proof.
  induction 1 as [|e d He _ IH]; [done|].
  cbn [concat_mapM]. rewrite He, IH. cbn [mbind result_bind].
  destruct (cond e) eqn:Hc.
  - by rewrite filter_cons_True.
  - rewrite filter_cons_False by congruence. done.
Qed.

Lemma filter_keyed {K V} `{EqDecision K} (d : list (K * V))
    (cond : K * V -> bool) (h : K) :
  NoDup d.*1 ->
  filter (fun e => e.1 = h) (filter (fun e => cond e = true) d)
  = match assoc h d with
    | Some v => if cond (h, v) then [(h, v)] else []
    | None => []
    end.
Proof.
  induction d as [|[k v] d IH]; intros Hnd; [done|].
  rewrite fmap_cons in Hnd. apply NoDup_cons in Hnd as [Hk Hnd].
  cbn [fst] in Hk.
  cbn [assoc]. destruct (decide (h = k)) as [->|Hne].
  - assert (filter (fun e : K * V => e.1 = k)
              (filter (fun e => cond e = true) d) = []) as Hrest.
    { rewrite IH by done. apply assoc_None in Hk. by rewrite Hk. }
    destruct (cond (k, v)) eqn:Hc.
    + rewrite (filter_cons_True _ (k, v)) by done.
      rewrite filter_cons_True by done. by rewrite Hrest.
    + rewrite (filter_cons_False _ (k, v)) by congruence. exact Hrest.
  - destruct (cond (k, v)) eqn:Hc.
    + rewrite (filter_cons_True _ (k, v)) by done.
      rewrite filter_cons_False by (simpl; congruence). by apply IH.
    + rewrite (filter_cons_False _ (k, v)) by congruence. by apply IH.
Qed.

(** The items of one clock hour. *)
Definition in_hour (h : datetime) (contents : list CampaignContent)
  : list CampaignContent :=
  filter (fun c => hour_key (timestamp c) = h) contents.

Definition window_of (c : campaign) : option datetime :=
  match c with
  | TimingCoordination h _ _ _ _ => Some h
  | _ => None
  end.

Definition level_of (l : list CampaignContent) : string :=
  match _calculate_campaign_threat_level l with
  | Ok level => level
  | Raise _ => ""
  end.

Definition span_of (l : list CampaignContent) : Z :=
  match _calculate_time_span l with
  | Ok span => span
  | Raise _ => 0
  end.

(** The dictionary a timing cluster is built from. *)
Definition timing_cluster (e : datetime * list CampaignContent) : campaign :=
  TimingCoordination e.1 (length e.2) (elements (unique_authors e.2))
    (elements (unique_platforms e.2)) (level_of e.2).

Definition hashtag_cluster (e : string * list CampaignContent) : campaign :=
  HashtagCoordination e.1 (elements (unique_authors e.2)) (length e.2)
    (span_of e.2) (elements (unique_platforms e.2)) (level_of e.2).

(** The reporting thresholds shared by the two detectors. *)
Definition crowded {K} (e : K * list CampaignContent) : bool :=
  (5 <=? length e.2)%nat && (3 <=? size (unique_authors e.2))%nat.

Lemma timing_campaign_select (e : datetime * list CampaignContent) :
  e.2 ≠ [] ->
  timing_campaign e = Ok (if crowded e then [timing_cluster e] else []).
Proof.
  destruct e as [h l]. intros Hne. simpl in Hne.
  unfold timing_campaign, crowded, timing_cluster, level_of. cbn [fst snd].
  destruct (threat_level_ok l Hne) as (level & -> & _).
  destruct (5 <=? length l)%nat; [|done].
  by destruct (3 <=? size (unique_authors l))%nat.
Qed.

Lemma hashtag_campaign_select (e : string * list CampaignContent) :
  e.2 ≠ [] ->
  hashtag_campaign e = Ok (if crowded e then [hashtag_cluster e] else []).
Proof.
  destruct e as [h l]. intros Hne. simpl in Hne.
  unfold hashtag_campaign, crowded, hashtag_cluster, level_of, span_of.
  cbn [fst snd].
  destruct (threat_level_ok l Hne) as (level & -> & _).
  destruct (time_span_ok l Hne) as (span & ->).
  destruct (5 <=? length l)%nat; [|done].
  by destruct (3 <=? size (unique_authors l))%nat.
Qed.

Lemma hour_groups_assoc (h : datetime) (contents : list CampaignContent) :
  assoc h (hour_groups contents) = extend None (in_hour h contents).
Proof.
  unfold hour_groups, in_hour.
  rewrite (assoc_grouped (fun c => hour_key (timestamp c)) (fun c => c)).
  by rewrite list_fmap_id.
Qed.

Lemma hour_groups_wf (contents : list CampaignContent) :
  NoDup (hour_groups contents).*1
  /\ Forall (fun e => e.2 ≠ []) (hour_groups contents).
Proof.
  unfold hour_groups. split.
  - apply (grouped_NoDup (fun c => hour_key (timestamp c)) (fun c => c)).
    constructor.
  - apply (grouped_nonempty (fun c => hour_key (timestamp c)) (fun c => c)).
    constructor.
Qed.

Lemma detect_timing_select (contents : list CampaignContent) :
  _detect_timing_coordination contents
  = Ok (timing_cluster
        <$> filter (fun e => crowded e = true) (hour_groups contents)).
Proof.
  unfold _detect_timing_coordination. apply concat_mapM_select.
  eapply Forall_impl; [apply hour_groups_wf|].
  intros e He. by apply timing_campaign_select.
Qed.

Lemma hashtag_usage_wf (contents : list CampaignContent) :
  NoDup (hashtag_usage contents).*1
  /\ Forall (fun e => e.2 ≠ []) (hashtag_usage contents).
Proof.
  rewrite hashtag_usage_tagged. split.
  - apply grouped_NoDup. constructor.
  - apply grouped_nonempty. constructor.
Qed.

Lemma detect_hashtag_select (contents : list CampaignContent) :
  _detect_hashtag_coordination contents
  = Ok (hashtag_cluster
        <$> filter (fun e => crowded e = true) (hashtag_usage contents)).
Proof.
  unfold _detect_hashtag_coordination. apply concat_mapM_select.
  eapply Forall_impl; [apply hashtag_usage_wf|].
  intros e He. by apply hashtag_campaign_select.
Qed.

End GroupDetectors.

Section ClusterTheorems.
Import CoordinatedCampaignDetector.

Lemma filter_fmap_keyed {E B} (mk : E -> B) (P : B -> Prop)
    `{forall b, Decision (P b)} (l : list E) :
  filter P (mk <$> l) = mk <$> filter (fun e => P (mk e)) l.
Proof.
  induction l as [|e l IH]; [done|]. rewrite fmap_cons.
  destruct (decide (P (mk e))) as [Hp|Hp].
  - rewrite !filter_cons_True by done. by rewrite fmap_cons, IH.
  - rewrite !filter_cons_False by done. exact IH.
Qed.

Lemma crowded_spec {K} (k : K) (l : list CampaignContent) :
  crowded (k, l) = true
  <-> (5 <= length l)%nat /\ (3 <= size (unique_authors l))%nat.
Proof.
  unfold crowded. cbn [snd].
  by rewrite andb_true_iff, !Nat.leb_le.
Qed.

(** X3. The timing detector never raises.  For every clock hour it reports
    exactly one cluster when the hour holds at least 5 items of at least 3
    distinct authors, built from all items of that hour, and none
    otherwise; items of different clock hours are never counted together,
    and it reports nothing else. *)
Theorem timing_clusters (contents : list CampaignContent) :
  exists cs,
    _detect_timing_coordination contents = Ok cs
    /\ (forall h,
          filter (fun c => window_of c = Some h) cs
          = if decide ((5 <= length (in_hour h contents))%nat
                       /\ (3 <= size (unique_authors (in_hour h contents)))%nat)
            then [timing_cluster (h, in_hour h contents)]
            else [])
    /\ (forall c, c ∈ cs -> is_Some (window_of c)).
Proof.
  eexists. split; [apply detect_timing_select|]. split.
  - intros h. rewrite filter_fmap_keyed.
    rewrite (list_filter_iff _ (fun e : datetime * list CampaignContent => e.1 = h))
      by (intros [k l]; simpl; split; congruence).
    rewrite filter_keyed by apply hour_groups_wf.
    rewrite hour_groups_assoc. unfold extend.
    destruct (in_hour h contents) as [|c l] eqn:E.
    + rewrite decide_False by (simpl; lia). done.
    + cbn [default app fmap list_fmap].
      destruct (crowded (h, c :: l)) eqn:Hc.
      * apply crowded_spec in Hc. by rewrite decide_True.
      * rewrite decide_False; [done|]. intros Hc'.
        apply (proj2 (crowded_spec h _)) in Hc'. congruence.
  - intros c (e & -> & _)%list_elem_of_fmap. by eexists.
Qed.

(** X4. The hashtag detector never raises.  For every case-folded hashtag
    it reports exactly one cluster when the hashtag occurs at least 5
    times, over items of at least 3 distinct authors, and none otherwise.
    The cluster's post_count is the number of occurrences: an item that
    lists the hashtag twice counts twice. *)
Theorem hashtag_clusters (contents : list CampaignContent) :
  exists cs,
    _detect_hashtag_coordination contents = Ok cs
    /\ (forall h,
          filter (fun c => hashtag_of c = Some h) cs
          = if decide ((5 <= length (uses h contents))%nat
                       /\ (3 <= size (unique_authors (sharing h contents)))%nat)
            then [hashtag_cluster (h, uses h contents)]
            else [])
    /\ (forall h, length (uses h contents)
                  = foldr Nat.add 0%nat (occurrences h <$> contents))
    /\ (forall c, c ∈ cs -> is_Some (hashtag_of c)).
Proof.
  eexists. split; [apply detect_hashtag_select|]. split; [|split].
  - intros h. rewrite filter_fmap_keyed.
    rewrite (list_filter_iff _ (fun e : string * list CampaignContent => e.1 = h))
      by (intros [k l]; simpl; split; congruence).
    rewrite filter_keyed by apply hashtag_usage_wf.
    rewrite assoc_hashtag_usage, <- authors_uses_sharing. unfold extend.
    destruct (uses h contents) as [|c l] eqn:E.
    + rewrite decide_False by (simpl; lia). done.
    + cbn [default app fmap list_fmap].
      destruct (crowded (h, c :: l)) eqn:Hc.
      * apply crowded_spec in Hc. by rewrite decide_True.
      * rewrite decide_False; [done|]. intros Hc'.
        apply (proj2 (crowded_spec h _)) in Hc'. congruence.
  - intros h. induction contents as [|c cs IH]; [done|].
    rewrite uses_cons, length_app, length_replicate, IH. done.
  - intros c (e & -> & _)%list_elem_of_fmap. by eexists.
Qed.

End ClusterTheorems.

Section Driver.
Import CoordinatedCampaignDetector.

(** The items of one window of the driver. *)
Definition in_window (k : datetime) (contents : list CampaignContent)
  : list CampaignContent :=
  filter (fun c => time_key (timestamp c) = k) contents.

Lemma time_grouped_assoc (k : datetime) (contents : list CampaignContent) :
  assoc k (time_grouped contents) = extend None (in_window k contents).
Proof.
  unfold time_grouped, in_window.
  rewrite (assoc_grouped (fun c => time_key (timestamp c)) (fun c => c)).
  by rewrite list_fmap_id.
Qed.

Lemma time_grouped_NoDup (contents : list CampaignContent) :
  NoDup (time_grouped contents).*1.
Proof.
  apply (grouped_NoDup (fun c => time_key (timestamp c)) (fun c => c)).
  constructor.
Qed.

Lemma time_grouped_elem (k : datetime) (l : list CampaignContent)
    (contents : list CampaignContent) :
  (k, l) ∈ time_grouped contents <-> l = in_window k contents /\ l ≠ [].
Proof.
  split.
  - intros Hin. apply assoc_elem_of in Hin; [|apply time_grouped_NoDup].
    rewrite time_grouped_assoc in Hin. unfold extend in Hin.
    destruct (in_window k contents); [done|]. by inversion Hin.
  - intros [-> Hne]. apply assoc_Some_elem_of.
    rewrite time_grouped_assoc. unfold extend.
    by destruct (in_window k contents).
Qed.

Lemma window_campaigns_ok (e : datetime * list CampaignContent) :
  exists cs, window_campaigns e = Ok cs.
Proof.
  unfold window_campaigns. destruct (length e.2 <? 3)%nat; [by eexists|].
  rewrite detect_hashtag_select, detect_timing_select.
  unfold _detect_content_similarity. rewrite similarity_loop_clusters.
  by eexists.
Qed.

Lemma concat_mapM_ok {E B} (f : E -> result (list B)) (d : list E) :
  Forall (fun e => exists l, f e = Ok l) d ->
  exists cs, concat_mapM f d = Ok cs
    /\ forall c, c ∈ cs <-> exists e l, e ∈ d /\ f e = Ok l /\ c ∈ l.
Proof.
  induction 1 as [|e d [l He] _ (cs & Hcs & Hmem)].
  - exists []. split; [done|]. intros c. split; [by intros ?%elem_of_nil|].
    by intros (e & l & ?%elem_of_nil & _).
  - exists (l ++ cs). split.
    + cbn [concat_mapM]. rewrite He, Hcs. done.
    + intros c. rewrite elem_of_app, Hmem. split.
      * intros [Hc|(e' & l' & He' & Hl' & Hc)].
        -- exists e, l. split; [left|done].
        -- exists e', l'. split; [by right|done].
      * intros (e' & l' & [->|He']%elem_of_cons & Hl' & Hc).
        -- left. congruence.
        -- right. by exists e', l'.
Qed.

Lemma driver_windows_aux (contents : list CampaignContent) :
  exists cs,
    detect_coordinated_campaigns contents = Ok cs
    /\ forall c, c ∈ cs <->
         exists k found,
           (3 <= length (in_window k contents))%nat
           /\ window_campaigns (k, in_window k contents) = Ok found
           /\ c ∈ found.
Proof.
  destruct (concat_mapM_ok window_campaigns (time_grouped contents))
    as (cs & Hcs & Hmem).
  { apply Forall_forall. intros e _. apply window_campaigns_ok. }
  exists cs. split; [exact Hcs|]. intros c. rewrite Hmem. split.
  - intros ([k l] & found & He & Hfound & Hc).
    apply time_grouped_elem in He as [-> Hne].
    exists k, found. split; [|done].
    unfold window_campaigns in Hfound. cbn [snd] in Hfound.
    destruct (Nat.ltb_spec (length (in_window k contents)) 3) as [Hlt|Hge];
      [|done].
    inversion Hfound; subst. by apply elem_of_nil in Hc.
  - intros (k & found & Hlen & Hfound & Hc).
    exists (k, in_window k contents), found. split; [|done].
    apply time_grouped_elem. split; [done|].
    destruct (in_window k contents); simpl in Hlen; [lia|done].
Qed.

(** X5. The driver never raises.  Its windows are keyed by calendar date
    and microsecond: two items share a window exactly when their
    timestamps agree on both, whatever the hour, minute and second.  Every
    campaign it returns comes from the sub-detectors run on one such window
    holding at least 3 items. *)
Theorem driver_windows (contents : list CampaignContent) :
  (forall t1 t2, time_key t1 = time_key t2
                 <-> dt_date t1 = dt_date t2
                     /\ dt_microsecond t1 = dt_microsecond t2)
  /\ (forall k l, (k, l) ∈ time_grouped contents
                  <-> l = in_window k contents /\ l ≠ [])
  /\ exists cs,
       detect_coordinated_campaigns contents = Ok cs
       /\ forall c, c ∈ cs <->
            exists k found,
              (3 <= length (in_window k contents))%nat
              /\ window_campaigns (k, in_window k contents) = Ok found
              /\ c ∈ found.
Proof.
  split; [|split].
  - intros t1 t2. unfold time_key. split.
    + intros Heq. by inversion Heq.
    + intros [-> ->]. done.
  - intros k l. apply time_grouped_elem.
  - apply driver_windows_aux.
Qed.

(** X6. When no three items of a batch agree on calendar date and
    microsecond, the driver returns no campaign, however many items share
    a hashtag, a text or a clock hour. *)
Theorem scattered_microseconds_hide_campaigns
    (contents : list CampaignContent) :
  (forall k, (length (in_window k contents) < 3)%nat) ->
  detect_coordinated_campaigns contents = Ok [].
Proof.
  intros Hsmall.
  destruct (driver_windows_aux contents) as (cs & Hcs & Hmem).
  rewrite Hcs. f_equal. destruct cs as [|c cs]; [done|].
  destruct (proj1 (Hmem c)) as (k & found & Hlen & _); [left|].
  specialize (Hsmall k). lia.
Qed.

Lemma scattered_microseconds_hide_campaigns_witness :
  (forall k, (length (in_window k five_posts) < 3)%nat)
  /\ detect_coordinated_campaigns five_posts = Ok [].
Proof.
  assert (forall k, (length (in_window k five_posts) < 3)%nat) as Hsmall.
  { intros k. unfold in_window, five_posts.
    rewrite !filter_cons, filter_nil. cbn [timestamp post time_key at_time].
    repeat case_decide; cbn [length]; try lia; subst k; discriminate. }
  split; [exact Hsmall|].
  exact (scattered_microseconds_hide_campaigns five_posts Hsmall).
Defined.

End Driver.

Section SimilarityPartition.
Import CoordinatedCampaignDetector.

Lemma clusters_cover (rest : list CampaignContent) :
  forall i processed cls final,
    similarity_clusters i rest processed = (cls, final) ->
    forall k, (i <= k < i + length rest)%nat ->
              k ∈ processed \/ exists cl, cl ∈ cls /\ k ∈ members cl.
Proof.
  induction rest as [|c1 rest IH]; intros i processed cls final Hrun k Hk.
  - simpl in Hk. lia.
  - cbn [similarity_clusters] in Hrun. cbn [length] in Hk.
    destruct (decide (i ∈ processed)) as [Hi|Hi].
    + destruct (decide (k = i)) as [->|Hne]; [by left|].
      apply (IH _ _ _ _ Hrun). lia.
    + rewrite absorb_absorbed in Hrun. cbv beta iota zeta in Hrun.
      set (abs := absorbed c1 (S i) rest processed) in *.
      set (p1 := processed ∪ list_to_set abs.*1) in *.
      set (rep := (3 <=? length ([(i, c1)] ++ abs))%nat
                  && (2 <=? size (unique_authors ([(i, c1)] ++ abs).*2))%nat)
        in *.
      set (p' := if rep then {[i]} ∪ p1 else p1) in *.
      destruct (similarity_clusters (S i) rest p') as [cls' final'] eqn:E.
      inversion Hrun; subst cls final. clear Hrun.
      destruct (decide (k = i)) as [->|Hne].
      * right. eexists. split; [left|]. unfold members. cbn. left.
      * destruct (IH _ _ _ _ E k) as [Hp|(cl & Hcl & Hmem)]; [lia| |].
        -- assert (k ∈ processed \/ k ∈ abs.*1) as [?|Habs].
           { unfold p', p1 in Hp. destruct rep; set_solver. }
           ++ by left.
           ++ right. eexists. split; [left|]. unfold members. cbn.
              by right.
        -- right. exists cl. split; [by right|done].
Qed.

Lemma NoDup_bind_disjoint {A} (f : A -> list nat) (l : list A) :
  Forall (fun x => NoDup (f x)) l ->
  (forall n1 n2 x1 x2 k,
      l !! n1 = Some x1 -> l !! n2 = Some x2 ->
      k ∈ f x1 -> k ∈ f x2 -> n1 = n2) ->
  NoDup (l ≫= f).
Proof.
  induction 1 as [|x l Hx _ IH]; intros Hdisj; [constructor|].
  rewrite bind_cons. apply NoDup_app. split; [done|]. split.
  - intros k Hk (y & Hky & Hy)%list_elem_of_bind.
    apply list_elem_of_lookup in Hy as [n Hn].
    assert (0%nat = S n) by (eapply (Hdisj 0%nat (S n) x y k); done).
    lia.
  - apply IH. intros n1 n2 x1 x2 k H1 H2 Hk1 Hk2.
    assert (S n1 = S n2) by (eapply (Hdisj (S n1) (S n2) x1 x2 k); done).
    lia.
Qed.

Lemma length_below (l : list nat) (n : nat) :
  NoDup l -> (forall k, k ∈ l -> (k < n)%nat) -> (length l <= n)%nat.
Proof.
  intros Hnd Hlt.
  assert (l ⊆+ seq 0 n) as Hsub.
  { apply NoDup_submseteq; [done|]. intros k Hk. apply elem_of_seq.
    specialize (Hlt k Hk). lia. }
  apply submseteq_length in Hsub. by rewrite length_seq in Hsub.
Qed.

Lemma reported_need_three (cls : list cluster) :
  Forall (fun cl => is_Some (campaign_of cl) ->
                    (3 <= length (members cl))%nat) cls ->
  (3 * length (omap campaign_of cls) <= length (cls ≫= members))%nat.
Proof.
  induction 1 as [|cl cls Hcl _ IH]; [done|].
  rewrite bind_cons, length_app.
  destruct (campaign_of cl) as [c|] eqn:E.
  - rewrite (omap_cons_Some _ _ c) by done. cbn [length].
    assert (3 <= length (members cl))%nat by (apply Hcl; by eexists). lia.
  - rewrite omap_cons_None by done. lia.
Qed.

(** X7. The groups of one run of the content-similarity detector
    partition the batch: every position of the input lies in exactly one
    group.  Hence the detector, which never raises, reports at most one
    cluster for every three items. *)
Theorem similarity_groups_partition (contents : list CampaignContent) :
  let cls := (similarity_clusters 0 contents ∅).1 in
  (forall k, (k < length contents)%nat
             <-> exists cl, cl ∈ cls /\ k ∈ members cl)
  /\ (forall cl cl' k, cl ∈ cls -> cl' ∈ cls ->
        k ∈ members cl -> k ∈ members cl' -> cl = cl')
  /\ exists cs, _detect_content_similarity contents = Ok cs
                /\ (3 * length cs <= length contents)%nat.
Proof.
  intros cls.
  destruct (similarity_clusters 0 contents ∅) as [cls0 final] eqn:E.
  subst cls. cbn [fst].
  destruct (clusters_inv contents 0 ∅ [] cls0 final eq_refl E)
    as (_ & Hall & Hdisj).
  rewrite app_nil_l in Hall.
  assert (forall cl k, cl ∈ cls0 -> k ∈ members cl ->
            (k < length contents)%nat) as Hrange.
  { intros cl k Hcl Hk.
    assert (group_ok contents 0 ∅ final cl) as Hok
      by (eapply Forall_forall; [exact Hall|exact Hcl]).
    destruct Hok as (s & c1 & abs & Hsim & _ & _ & Hs & _ & _ & _ & Habs).
    unfold members in Hk. rewrite Hsim, fmap_cons in Hk.
    apply elem_of_cons in Hk as [->|Hk].
    - by apply lookup_lt_Some in Hs.
    - apply list_elem_of_fmap in Hk as ([j c2] & -> & Hin).
      destruct (Habs _ _ Hin) as (_ & Hj & _). by apply lookup_lt_Some in Hj. }
  split; [|split].
  - intros k. split.
    + intros Hk.
      destruct (clusters_cover contents 0 ∅ cls0 final E k) as [Hp|Hcl];
        [lia|set_solver|done].
    + intros (cl & Hcl & Hk). by eapply Hrange.
  - intros cl cl' k Hcl Hcl' Hk Hk'.
    apply list_elem_of_lookup in Hcl as [n Hn].
    apply list_elem_of_lookup in Hcl' as [n' Hn'].
    assert (n = n') as -> by by eapply Hdisj. congruence.
  - exists (omap campaign_of cls0). split.
    + unfold _detect_content_similarity.
      rewrite similarity_loop_clusters, E. done.
    + etransitivity; [apply reported_need_three|].
      * eapply Forall_impl; [exact Hall|]. intros cl Hok Hsome.
        destruct (campaign_of_reported _ _ _ _ _ Hok) as [Hrep _].
        apply Hrep in Hsome.
        destruct Hok as (s & c1 & abs & Hsim & Hr & _).
        rewrite Hr in Hsome. apply andb_true_iff in Hsome as [H3 _].
        apply Nat.leb_le in H3. unfold members. by rewrite length_fmap.
      * apply length_below.
        -- apply NoDup_bind_disjoint; [|exact Hdisj].
           eapply Forall_impl; [exact Hall|].
           by intros cl (s & c1 & abs & _ & _ & _ & _ & _ & Hnd & _).
        -- intros k (cl & Hk & Hcl)%list_elem_of_bind. by eapply Hrange.
Qed.

End SimilarityPartition.

(** * Further properties of the scorer and its rule store *)

Section ScorerExtras.
Context `{Collaborators}.
Import NLPProcessor.

(** X8. The sentiment branch of the relevance test never decides: a text
    is classified relevant exactly when a keyword, a hashtag or a pattern
    matched it.  A text without a match has total severity 0 and threat
    level LOW. *)
Theorem relevance_is_matching nlp db content now :
  let r := is_anti_india_content nlp db content now in
  let f := r.1.2 in
  let matched :=
    matched_keywords f ≠ [] \/ matched_hashtags f ≠ []
    \/ matched_patterns f ≠ [] in
  (r.1.1 = true <-> matched)
  /\ (~ matched -> (total_severity f == 0)%Q /\ threat_level f = "LOW").
Proof.
  intros r f matched.
  assert (f = (extract_features nlp db content now).1) as Hf.
  { unfold f, r, is_anti_india_content.
    by destruct (extract_features nlp db content now). }
  destruct (extract_features_spec nlp db content now)
    as (_ & _ & _ & Htotal & Hlevel & _).
  rewrite <- Hf in Htotal, Hlevel.
  assert (~ matched -> (total_severity f == 0)%Q) as Hzero.
  { intros Hno. rewrite Htotal.
    destruct (matched_keywords f); [|exfalso; apply Hno; by left].
    destruct (matched_hashtags f); [|exfalso; apply Hno; right; by left].
    destruct (matched_patterns f); [|exfalso; apply Hno; right; by right].
    reflexivity. }
  assert (matched \/ ~ matched) as Hdec.
  { unfold matched.
    destruct (matched_keywords f); [|left; by left].
    destruct (matched_hashtags f); [|left; right; by left].
    destruct (matched_patterns f); [|left; right; by right].
    right. intros [?|[?|?]]; done. }
  assert (r.1.1 = true <->
          matched \/ ((sentiment_score f < - (3 # 10))%Q
                      /\ (3 < total_severity f)%Q)) as Hgate.
  { unfold matched, f, r, is_anti_india_content.
    destruct (extract_features nlp db content now) as [g db']. cbn [fst snd].
    rewrite !orb_true_iff, andb_true_iff, !length_pos_nonempty, !Qltb_lt.
    tauto. }
  split.
  - rewrite Hgate. split; [|tauto]. intros [Hm|[_ Hsev]]; [exact Hm|].
    destruct Hdec as [Hm|Hno]; [exact Hm|].
    exfalso. rewrite (Hzero Hno) in Hsev. by apply (Qlt_irrefl 0), (Qlt_trans _ 3).
  - intros Hno. split; [by apply Hzero|].
    rewrite Hlevel. unfold threat_level_of.
    by rewrite !(Qleb_comp _ _ (Qeq_refl _) _ _ (Hzero Hno)).
Qed.

End ScorerExtras.

Lemma relevance_is_matching_witness :
  let r := @NLPProcessor.is_anti_india_content literal_collaborators
             shipped_nlp shipped_db "I hate mondays" 1 in
  (NLPProcessor.sentiment_score r.1.2 < - (3 # 10))%Q
  /\ r.1.1 = false
  /\ (NLPProcessor.total_severity r.1.2 == 0)%Q
  /\ NLPProcessor.threat_level r.1.2 = "LOW".
Proof.
  intros r.
  destruct (@relevance_is_matching literal_collaborators shipped_nlp
              shipped_db "I hate mondays" 1) as [Hiff Hnone].
  fold r in Hiff, Hnone.
  assert (~ (NLPProcessor.matched_keywords r.1.2 ≠ []
             \/ NLPProcessor.matched_hashtags r.1.2 ≠ []
             \/ NLPProcessor.matched_patterns r.1.2 ≠ [])) as Hno.
  { vm_compute. intros [?|[?|?]]; congruence. }
  split; [apply Qltb_lt; vm_compute; reflexivity|].
  split.
  - destruct (r.1.1) eqn:E; [|done]. exfalso. by apply Hno, Hiff.
  - by apply Hnone.
Defined.

Section CountedRows.
Context `{Collaborators}.
Import NLPProcessor.

(** How many snapshot rules matched the text and, lower-cased, spell the
    stored text [k]: the number of [UPDATE]s that select a row holding
    [k]. *)
Definition hits (content_lower : string) (rules : list (string * string * Q))
    (k : string) : nat :=
  length (filter (fun rule => rule_matches content_lower rule = true
                              /\ Text.lower rule.1.1 = k) rules).

(** A keyword row after [n] updates at time [now]. *)
Definition counted_keyword (n : nat) (now : Z)
    (r : KeywordDatabase.keyword_row) : KeywordDatabase.keyword_row :=
  match n with
  | O => r
  | S _ =>
      {| KeywordDatabase.kw_id := KeywordDatabase.kw_id r;
         KeywordDatabase.kw_keyword := KeywordDatabase.kw_keyword r;
         KeywordDatabase.kw_category := KeywordDatabase.kw_category r;
         KeywordDatabase.kw_severity := KeywordDatabase.kw_severity r;
         KeywordDatabase.kw_detection_count :=
           KeywordDatabase.kw_detection_count r + Z.of_nat n;
         KeywordDatabase.kw_last_detected := Some now;
         KeywordDatabase.kw_created_at := KeywordDatabase.kw_created_at r;
         KeywordDatabase.kw_is_active := KeywordDatabase.kw_is_active r |}
  end.

Definition counted_hashtag (n : nat) (now : Z)
    (r : KeywordDatabase.hashtag_row) : KeywordDatabase.hashtag_row :=
  match n with
  | O => r
  | S _ =>
      {| KeywordDatabase.ht_id := KeywordDatabase.ht_id r;
         KeywordDatabase.ht_hashtag := KeywordDatabase.ht_hashtag r;
         KeywordDatabase.ht_category := KeywordDatabase.ht_category r;
         KeywordDatabase.ht_severity := KeywordDatabase.ht_severity r;
         KeywordDatabase.ht_detection_count :=
           KeywordDatabase.ht_detection_count r + Z.of_nat n;
         KeywordDatabase.ht_last_detected := Some now;
         KeywordDatabase.ht_created_at := KeywordDatabase.ht_created_at r |}
  end.

Lemma counted_keyword_bump (k : string) (n : nat) (now : Z)
    (r : KeywordDatabase.keyword_row) :
  counted_keyword n now (KeywordDatabase.bump_keyword k now r)
  = counted_keyword
      ((if decide (k = KeywordDatabase.kw_keyword r) then 1 else 0) + n)
      now r.
Proof.
  unfold KeywordDatabase.bump_keyword.
  destruct (String.eqb_spec (KeywordDatabase.kw_keyword r) k) as [Heq|Hne].
  - rewrite decide_True by done. destruct n as [|n]; cbn -[Z.of_nat].
    + done.
    + f_equal. lia.
  - rewrite decide_False by done. done.
Qed.

Lemma counted_hashtag_bump (k : string) (n : nat) (now : Z)
    (r : KeywordDatabase.hashtag_row) :
  counted_hashtag n now (KeywordDatabase.bump_hashtag k now r)
  = counted_hashtag
      ((if decide (k = KeywordDatabase.ht_hashtag r) then 1 else 0) + n)
      now r.
Proof.
  unfold KeywordDatabase.bump_hashtag.
  destruct (String.eqb_spec (KeywordDatabase.ht_hashtag r) k) as [Heq|Hne].
  - rewrite decide_True by done. destruct n as [|n]; cbn -[Z.of_nat].
    + done.
    + f_equal. lia.
  - rewrite decide_False by done. done.
Qed.

Lemma hits_cons (content_lower : string) (rule : string * string * Q)
    (rules : list (string * string * Q)) (k : string) :
  hits content_lower (rule :: rules) k
  = ((if rule_matches content_lower rule
      then if decide (Text.lower rule.1.1 = k) then 1 else 0
      else 0) + hits content_lower rules k)%nat.
Proof.
  unfold hits. destruct (rule_matches content_lower rule) eqn:Hm.
  - destruct (decide (Text.lower rule.1.1 = k)) as [Hk|Hk].
    + by rewrite filter_cons_True.
    + rewrite filter_cons_False by tauto. done.
  - rewrite filter_cons_False; [done|]. intros [? _]. congruence.
Qed.

Lemma keyword_loop_rows content_lower now rules matched total db :
  let db' :=
    (foldl (keyword_step content_lower now) (matched, total, db) rules).2 in
  KeywordDatabase.keywords db'
  = (fun r => counted_keyword
                (hits content_lower rules (KeywordDatabase.kw_keyword r))
                now r) <$> KeywordDatabase.keywords db
  /\ KeywordDatabase.hashtags db' = KeywordDatabase.hashtags db
  /\ KeywordDatabase.phrase_patterns db' = KeywordDatabase.phrase_patterns db
  /\ KeywordDatabase.keywords_seq db' = KeywordDatabase.keywords_seq db
  /\ KeywordDatabase.hashtags_seq db' = KeywordDatabase.hashtags_seq db
  /\ KeywordDatabase.patterns_seq db' = KeywordDatabase.patterns_seq db.
Proof.
  revert matched total db.
  induction rules as [|[[k c] s] rules IH]; intros matched total db.
  - cbn [foldl snd]. split; [|done].
    rewrite <- (list_fmap_id (KeywordDatabase.keywords db)) at 1.
    apply list_fmap_ext. intros _ r _. done.
  - cbn [foldl].
    change (keyword_step content_lower now (matched, total, db) (k, c, s))
      with (if Text.contains (Text.lower k) content_lower
            then (matched ++ [(k, c, s)], (total + s)%Q,
                  KeywordDatabase.update_detection_count db k "keyword" now)
            else (matched, total, db)).
    assert (forall r : KeywordDatabase.keyword_row,
              hits content_lower ((k, c, s) :: rules)
                   (KeywordDatabase.kw_keyword r)
              = ((if Text.contains (Text.lower k) content_lower
                  then if decide (Text.lower k = KeywordDatabase.kw_keyword r)
                       then 1 else 0
                  else 0)
                 + hits content_lower rules (KeywordDatabase.kw_keyword r))%nat)
      as Hhits by (intros r; apply hits_cons).
    destruct (Text.contains (Text.lower k) content_lower) eqn:Hm.
    + destruct (IH (matched ++ [(k, c, s)]) (total + s)%Q
                   (KeywordDatabase.update_detection_count db k "keyword" now))
        as (Hk & Hrest).
      split; [|exact Hrest].
      rewrite Hk. cbn [KeywordDatabase.update_detection_count String.eqb
                       KeywordDatabase.keywords].
      unfold KeywordDatabase.update_detection_count.
      cbn [String.eqb Ascii.eqb Bool.eqb KeywordDatabase.keywords].
      rewrite <- list_fmap_compose. apply list_fmap_ext. intros _ r _.
      cbn [compose]. rewrite Hhits.
      assert (KeywordDatabase.kw_keyword
                (KeywordDatabase.bump_keyword (Text.lower k) now r)
              = KeywordDatabase.kw_keyword r) as ->.
      { unfold KeywordDatabase.bump_keyword.
        by destruct (String.eqb _ _). }
      apply counted_keyword_bump.
    + destruct (IH matched total db) as (Hk & Hrest).
      split; [|exact Hrest]. rewrite Hk.
      apply list_fmap_ext. intros _ r _. by rewrite Hhits.
Qed.

Lemma hashtag_loop_rows content_lower now rules matched total db :
  let db' :=
    (foldl (hashtag_step content_lower now) (matched, total, db) rules).2 in
  KeywordDatabase.hashtags db'
  = (fun r => counted_hashtag
                (hits content_lower rules (KeywordDatabase.ht_hashtag r))
                now r) <$> KeywordDatabase.hashtags db
  /\ KeywordDatabase.keywords db' = KeywordDatabase.keywords db
  /\ KeywordDatabase.phrase_patterns db' = KeywordDatabase.phrase_patterns db
  /\ KeywordDatabase.keywords_seq db' = KeywordDatabase.keywords_seq db
  /\ KeywordDatabase.hashtags_seq db' = KeywordDatabase.hashtags_seq db
  /\ KeywordDatabase.patterns_seq db' = KeywordDatabase.patterns_seq db.
Proof.
  revert matched total db.
  induction rules as [|[[k c] s] rules IH]; intros matched total db.
  - cbn [foldl snd]. split; [|done].
    rewrite <- (list_fmap_id (KeywordDatabase.hashtags db)) at 1.
    apply list_fmap_ext. intros _ r _. done.
  - cbn [foldl].
    change (hashtag_step content_lower now (matched, total, db) (k, c, s))
      with (if Text.contains (Text.lower k) content_lower
            then (matched ++ [(k, c, s)], (total + s)%Q,
                  KeywordDatabase.update_detection_count db k "hashtag" now)
            else (matched, total, db)).
    assert (forall r : KeywordDatabase.hashtag_row,
              hits content_lower ((k, c, s) :: rules)
                   (KeywordDatabase.ht_hashtag r)
              = ((if Text.contains (Text.lower k) content_lower
                  then if decide (Text.lower k = KeywordDatabase.ht_hashtag r)
                       then 1 else 0
                  else 0)
                 + hits content_lower rules (KeywordDatabase.ht_hashtag r))%nat)
      as Hhits by (intros r; apply hits_cons).
    destruct (Text.contains (Text.lower k) content_lower) eqn:Hm.
    + destruct (IH (matched ++ [(k, c, s)]) (total + s)%Q
                   (KeywordDatabase.update_detection_count db k "hashtag" now))
        as (Hk & Hrest).
      split; [|exact Hrest].
      rewrite Hk. unfold KeywordDatabase.update_detection_count.
      cbn [String.eqb Ascii.eqb Bool.eqb KeywordDatabase.hashtags].
      rewrite <- list_fmap_compose. apply list_fmap_ext. intros _ r _.
      cbn [compose]. rewrite Hhits.
      assert (KeywordDatabase.ht_hashtag
                (KeywordDatabase.bump_hashtag (Text.lower k) now r)
              = KeywordDatabase.ht_hashtag r) as ->.
      { unfold KeywordDatabase.bump_hashtag.
        by destruct (String.eqb _ _). }
      apply counted_hashtag_bump.
    + destruct (IH matched total db) as (Hk & Hrest).
      split; [|exact Hrest]. rewrite Hk.
      apply list_fmap_ext. intros _ r _. by rewrite Hhits.
Qed.

End CountedRows.

Section DetectionCounters.
Context `{Collaborators}.
Import NLPProcessor.

(** X9. One call of [extract_features] leaves the rule store with the
    same rows in the same order; a keyword row is raised by the number
    of matching keyword rules whose lower-cased text equals the row's
    stored text, a hashtag row likewise by the hashtag rules, every row
    raised at least once carries the time of the call, and the pattern
    table and the three row counters stay as they were. *)
Theorem detection_counts_exact nlp db content now :
  let db' := (extract_features nlp db content now).2 in
  KeywordDatabase.keywords db'
  = (fun r => counted_keyword
                (hits (Text.lower content) (keywords nlp)
                      (KeywordDatabase.kw_keyword r)) now r)
    <$> KeywordDatabase.keywords db
  /\ KeywordDatabase.hashtags db'
     = (fun r => counted_hashtag
                   (hits (Text.lower content) (hashtags nlp)
                         (KeywordDatabase.ht_hashtag r)) now r)
       <$> KeywordDatabase.hashtags db
  /\ KeywordDatabase.phrase_patterns db' = KeywordDatabase.phrase_patterns db
  /\ KeywordDatabase.keywords_seq db' = KeywordDatabase.keywords_seq db
  /\ KeywordDatabase.hashtags_seq db' = KeywordDatabase.hashtags_seq db
  /\ KeywordDatabase.patterns_seq db' = KeywordDatabase.patterns_seq db.
Proof.
  cbv zeta. rewrite extract_features_db.
  set (st1 := foldl (keyword_step (Text.lower content) now) ([], 0%Q, db)
                    (keywords nlp)).
  destruct (keyword_loop_rows (Text.lower content) now (keywords nlp) [] 0%Q db)
    as (Hk1 & Hh1 & Hp1 & Hks1 & Hhs1 & Hps1).
  fold st1 in Hk1, Hh1, Hp1, Hks1, Hhs1, Hps1.
  destruct (hashtag_loop_rows (Text.lower content) now (hashtags nlp) []
              st1.1.2 st1.2)
    as (Hh2 & Hk2 & Hp2 & Hks2 & Hhs2 & Hps2).
  rewrite Hk2, Hh2, Hp2, Hks2, Hhs2, Hps2.
  by rewrite Hk1, Hh1, Hp1, Hks1, Hhs1, Hps1.
Qed.

(** [s] holds one of the letters [A]..[Z]. *)
Definition has_upper (s : string) : bool :=
  existsb Text.is_upper (String.list_ascii_of_string s).

Lemma lower_char_not_upper c : Text.is_upper (Text.lower_char c) = false.
Proof.
  destruct c as [[] [] [] [] [] [] [] []]; vm_compute; reflexivity.
Qed.

Lemma lower_has_no_upper s : has_upper (Text.lower s) = false.
Proof.
  unfold has_upper. induction s as [|c s IH]; [done|].
  cbn [Text.lower String.list_ascii_of_string existsb].
  by rewrite lower_char_not_upper, IH.
Qed.

Lemma hits_upper content_lower rules k :
  has_upper k = true -> hits content_lower rules k = 0%nat.
Proof.
  intros Hup. unfold hits.
  induction rules as [|rule rules IH]; [done|].
  rewrite filter_cons_False; [exact IH|].
  intros [_ Hk]. rewrite <- Hk, lower_has_no_upper in Hup. done.
Qed.

(** X10. A stored keyword or hashtag whose text holds an upper-case
    letter is never counted: whatever the rules and the text scored,
    [extract_features] leaves such a row exactly as it was. *)
Theorem upper_case_rows_never_counted nlp db content now :
  let db' := (extract_features nlp db content now).2 in
  (forall i r, KeywordDatabase.keywords db !! i = Some r ->
               has_upper (KeywordDatabase.kw_keyword r) = true ->
               KeywordDatabase.keywords db' !! i = Some r)
  /\ (forall i r, KeywordDatabase.hashtags db !! i = Some r ->
                  has_upper (KeywordDatabase.ht_hashtag r) = true ->
                  KeywordDatabase.hashtags db' !! i = Some r).
Proof.
  cbv zeta. rewrite extract_features_db.
  set (st1 := foldl (keyword_step (Text.lower content) now) ([], 0%Q, db)
                    (keywords nlp)).
  destruct (keyword_loop_rows (Text.lower content) now (keywords nlp) [] 0%Q db)
    as (Hk1 & Hh1 & _).
  fold st1 in Hk1, Hh1.
  destruct (hashtag_loop_rows (Text.lower content) now (hashtags nlp) []
              st1.1.2 st1.2)
    as (Hh2 & Hk2 & _).
  rewrite Hk2, Hh2, Hk1, Hh1.
  split; intros i r Hi Hup; rewrite list_lookup_fmap, Hi; cbn [fmap option_fmap option_map];
    by rewrite hits_upper.
Qed.

End DetectionCounters.

Lemma upper_case_rows_never_counted_witness :
  let db' := (@NLPProcessor.extract_features literal_collaborators
                shipped_nlp shipped_db "We must boycott India now" 7).2 in
  exists r, KeywordDatabase.keywords shipped_db !! 4%nat = Some r
            /\ KeywordDatabase.kw_keyword r = "boycott India"
            /\ KeywordDatabase.keywords db' !! 4%nat = Some r.
Proof.
  cbv zeta.
  destruct (KeywordDatabase.keywords shipped_db !! 4%nat) as [r|] eqn:Hr;
    [|by vm_compute in Hr].
  exists r. split; [done|]. split.
  - vm_compute in Hr. by injection Hr as <-.
  - apply (proj1 (@upper_case_rows_never_counted literal_collaborators
                    shipped_nlp shipped_db "We must boycott India now" 7)
                 4%nat r Hr).
    vm_compute in Hr. by injection Hr as <-.
Defined.

(** * The rule store across openings *)

Section Reopening.
Import KeywordDatabase.

Lemma has_keyword_elem db k :
  has_keyword db k = true <-> k ∈ kw_keyword <$> keywords db.
Proof.
  unfold has_keyword. rewrite existsb_exists, list_elem_of_fmap.
  split.
  - intros (r & Hr & Heq). apply String.eqb_eq in Heq.
    exists r. split; [done|]. by apply list_elem_of_In.
  - intros (r & -> & Hr). exists r. split; [by apply list_elem_of_In|].
    apply String.eqb_refl.
Qed.

Lemma has_hashtag_elem db k :
  has_hashtag db k = true <-> k ∈ ht_hashtag <$> hashtags db.
Proof.
  unfold has_hashtag. rewrite existsb_exists, list_elem_of_fmap.
  split.
  - intros (r & Hr & Heq). apply String.eqb_eq in Heq.
    exists r. split; [done|]. by apply list_elem_of_In.
  - intros (r & -> & Hr). exists r. split; [by apply list_elem_of_In|].
    apply String.eqb_refl.
Qed.

(** What the three insertion loops leave alone. *)
Lemma keyword_inserts_frame now rules db :
  let db' := foldl (insert_or_ignore_keyword now) db rules in
  hashtags db' = hashtags db /\ hashtags_seq db' = hashtags_seq db
  /\ phrase_patterns db' = phrase_patterns db
  /\ patterns_seq db' = patterns_seq db.
Proof.
  revert db. induction rules as [|[[k c] s] rules IH]; intros db; [done|].
  cbn [foldl]. destruct (IH (insert_or_ignore_keyword now db (k, c, s)))
    as (-> & -> & -> & ->).
  unfold insert_or_ignore_keyword. by destruct (has_keyword db k).
Qed.

Lemma hashtag_inserts_frame now rules db :
  let db' := foldl (insert_or_ignore_hashtag now) db rules in
  keywords db' = keywords db /\ keywords_seq db' = keywords_seq db
  /\ phrase_patterns db' = phrase_patterns db
  /\ patterns_seq db' = patterns_seq db.
Proof.
  revert db. induction rules as [|[[k c] s] rules IH]; intros db; [done|].
  cbn [foldl]. destruct (IH (insert_or_ignore_hashtag now db (k, c, s)))
    as (-> & -> & -> & ->).
  unfold insert_or_ignore_hashtag. by destruct (has_hashtag db k).
Qed.

(** The rows the pattern loop appends: one per rule, under the next
    ids. *)
Definition appended_patterns (seq : Z) (now : Z)
    (rules : list (string * string * Q)) : list pattern_row :=
  imap (fun i rule =>
          new_pattern (seq + Z.of_nat i + 1) rule.1.1 rule.1.2 rule.2 now)
       rules.

Lemma pattern_inserts now rules db :
  let db' := foldl (insert_or_ignore_pattern now) db rules in
  keywords db' = keywords db /\ keywords_seq db' = keywords_seq db
  /\ hashtags db' = hashtags db /\ hashtags_seq db' = hashtags_seq db
  /\ phrase_patterns db'
     = phrase_patterns db ++ appended_patterns (patterns_seq db) now rules
  /\ patterns_seq db' = patterns_seq db + Z.of_nat (length rules).
Proof.
  revert db. induction rules as [|[[p d] s] rules IH]; intros db.
  - cbn [foldl length]. unfold appended_patterns.
    rewrite app_nil_r. repeat split; lia.
  - cbn [foldl]. destruct (IH (insert_or_ignore_pattern now db (p, d, s)))
      as (-> & -> & -> & -> & -> & ->).
    cbn [insert_or_ignore_pattern keywords keywords_seq hashtags hashtags_seq
         phrase_patterns patterns_seq length].
    repeat split; [|lia].
    rewrite <- app_assoc. f_equal. unfold appended_patterns.
    rewrite imap_cons. cbn [app fst snd]. f_equal.
    + f_equal. lia.
    + apply imap_ext. intros i rule _. cbn [compose]. f_equal. lia.
Qed.

Lemma keyword_inserts_keep now rules db k :
  has_keyword db k = true ->
  has_keyword (foldl (insert_or_ignore_keyword now) db rules) k = true.
Proof.
  revert db. induction rules as [|[[k' c] s] rules IH]; intros db Hk; [done|].
  cbn [foldl]. apply IH. unfold insert_or_ignore_keyword.
  destruct (has_keyword db k'); [done|].
  apply has_keyword_elem. cbn [keywords]. rewrite fmap_app.
  apply elem_of_app. left. by apply has_keyword_elem.
Qed.

Lemma keyword_inserts_present now rules db rule :
  rule ∈ rules ->
  has_keyword (foldl (insert_or_ignore_keyword now) db rules) rule.1.1 = true.
Proof.
  revert db. induction rules as [|[[k c] s] rules IH]; intros db Hin.
  - by apply elem_of_nil in Hin.
  - cbn [foldl]. apply elem_of_cons in Hin as [-> | Hin]; [|by apply IH].
    apply keyword_inserts_keep. cbn [fst]. unfold insert_or_ignore_keyword.
    destruct (has_keyword db k) eqn:Hk; [done|].
    apply has_keyword_elem. cbn [keywords]. rewrite fmap_app.
    apply elem_of_app. right. cbn. apply list_elem_of_singleton. done.
Qed.

Lemma keyword_inserts_noop now rules db :
  (forall rule, rule ∈ rules -> has_keyword db rule.1.1 = true) ->
  foldl (insert_or_ignore_keyword now) db rules = db.
Proof.
  induction rules as [|[[k c] s] rules IH]; intros Hall; [done|].
  cbn [foldl].
  assert (insert_or_ignore_keyword now db (k, c, s) = db) as ->.
  { pose proof (Hall (k, c, s) ltac:(apply elem_of_cons; by left)) as Hk.
    cbn [fst] in Hk. unfold insert_or_ignore_keyword. by rewrite Hk. }
  apply IH. intros rule Hin. apply Hall, elem_of_cons. by right.
Qed.

Lemma hashtag_inserts_keep now rules db k :
  has_hashtag db k = true ->
  has_hashtag (foldl (insert_or_ignore_hashtag now) db rules) k = true.
Proof.
  revert db. induction rules as [|[[k' c] s] rules IH]; intros db Hk; [done|].
  cbn [foldl]. apply IH. unfold insert_or_ignore_hashtag.
  destruct (has_hashtag db k'); [done|].
  apply has_hashtag_elem. cbn [hashtags]. rewrite fmap_app.
  apply elem_of_app. left. by apply has_hashtag_elem.
Qed.

Lemma hashtag_inserts_present now rules db rule :
  rule ∈ rules ->
  has_hashtag (foldl (insert_or_ignore_hashtag now) db rules) rule.1.1 = true.
Proof.
  revert db. induction rules as [|[[k c] s] rules IH]; intros db Hin.
  - by apply elem_of_nil in Hin.
  - cbn [foldl]. apply elem_of_cons in Hin as [-> | Hin]; [|by apply IH].
    apply hashtag_inserts_keep. cbn [fst]. unfold insert_or_ignore_hashtag.
    destruct (has_hashtag db k) eqn:Hk; [done|].
    apply has_hashtag_elem. cbn [hashtags]. rewrite fmap_app.
    apply elem_of_app. right. cbn. apply list_elem_of_singleton. done.
Qed.

Lemma hashtag_inserts_noop now rules db :
  (forall rule, rule ∈ rules -> has_hashtag db rule.1.1 = true) ->
  foldl (insert_or_ignore_hashtag now) db rules = db.
Proof.
  induction rules as [|[[k c] s] rules IH]; intros Hall; [done|].
  cbn [foldl].
  assert (insert_or_ignore_hashtag now db (k, c, s) = db) as ->.
  { pose proof (Hall (k, c, s) ltac:(apply elem_of_cons; by left)) as Hk.
    cbn [fst] in Hk. unfold insert_or_ignore_hashtag. by rewrite Hk. }
  apply IH. intros rule Hin. apply Hall, elem_of_cons. by right.
Qed.

Lemma has_keyword_rows db db' k :
  keywords db' = keywords db -> has_keyword db' k = has_keyword db k.
Proof. unfold has_keyword. by intros ->. Qed.

Lemma has_hashtag_rows db db' k :
  hashtags db' = hashtags db -> has_hashtag db' k = has_hashtag db k.
Proof. unfold has_hashtag. by intros ->. Qed.

Lemma loaded_has_keywords db0 now0 rule :
  rule ∈ initial_keywords ->
  has_keyword (load_initial_keywords db0 now0) rule.1.1 = true.
Proof.
  intros Hin. unfold load_initial_keywords.
  destruct (pattern_inserts now0 initial_patterns
              (foldl (insert_or_ignore_hashtag now0)
                 (foldl (insert_or_ignore_keyword now0) db0
                    initial_keywords) initial_hashtags))
    as (Hk & _).
  rewrite (has_keyword_rows _ _ _ Hk).
  destruct (hashtag_inserts_frame now0 initial_hashtags
              (foldl (insert_or_ignore_keyword now0) db0 initial_keywords))
    as (Hk' & _).
  rewrite (has_keyword_rows _ _ _ Hk').
  by apply keyword_inserts_present.
Qed.

Lemma loaded_has_hashtags db0 now0 rule :
  rule ∈ initial_hashtags ->
  has_hashtag (load_initial_keywords db0 now0) rule.1.1 = true.
Proof.
  intros Hin. unfold load_initial_keywords.
  destruct (pattern_inserts now0 initial_patterns
              (foldl (insert_or_ignore_hashtag now0)
                 (foldl (insert_or_ignore_keyword now0) db0
                    initial_keywords) initial_hashtags))
    as (_ & _ & Hh & _).
  rewrite (has_hashtag_rows _ _ _ Hh).
  by apply hashtag_inserts_present.
Qed.

(** On a store opened before, only the pattern loop does anything. *)
Lemma load_again db0 now0 now1 :
  load_initial_keywords (load_initial_keywords db0 now0) now1
  = foldl (insert_or_ignore_pattern now1) (load_initial_keywords db0 now0)
          initial_patterns.
Proof.
  unfold load_initial_keywords at 1.
  rewrite (keyword_inserts_noop now1 _ (load_initial_keywords db0 now0))
    by (intros rule Hin; by apply loaded_has_keywords).
  rewrite (hashtag_inserts_noop now1 _ (load_initial_keywords db0 now0))
    by (intros rule Hin; by apply loaded_has_hashtags).
  done.
Qed.


End Reopening.

Lemma lookup_pair_sublist {A} (l : list A) (i j : nat) (a b : A) :
  (i < j)%nat -> l !! i = Some a -> l !! j = Some b ->
  [a; b] `sublist_of` l.
Proof.
  revert i j. induction l as [|x l IH]; intros i j Hij Hi Hj; [done|].
  destruct j as [|j]; [lia|]. cbn in Hj.
  destruct i as [|i].
  - cbn in Hi. injection Hi as ->. apply sublist_skip.
    apply sublist_singleton. by apply list_elem_of_lookup_2 in Hj.
  - cbn in Hi. apply sublist_cons. apply (IH i j); [lia|done|done].
Qed.

Section AddKeyword.
Import KeywordDatabase.

(** X12. After [add_keyword] the active rules are the rule just added,
    under its lower-cased text, and the earlier active rules with any
    other text; they come back by descending severity; and the one row
    holding the added text is a new row: fresh id, detection count 0 and
    no detection time, whatever an earlier row of that text had
    gathered. *)
Theorem add_keyword_round_trip db keyword category severity now :
  let k := Text.lower keyword in
  let db' := add_keyword db keyword category severity now in
  let rules := get_active_keywords db' in
  rules ≡ₚ (k, category, severity)
           :: filter (fun rule => rule.1.1 ≠ k) (get_active_keywords db)
  /\ (forall i j a b, (i < j)%nat -> rules !! i = Some a ->
                      rules !! j = Some b -> (b.2 <= a.2)%Q)
  /\ (forall r, r ∈ keywords db' -> kw_keyword r = k ->
                r = new_keyword (keywords_seq db + 1) k category severity
                      now).
Proof.
  intros k db' rules. split; [|split].
  - unfold rules, get_active_keywords, db', add_keyword. cbn [keywords].
    fold k.
    rewrite (sort_desc_perm_any _ _), filter_app.
    rewrite filter_cons_True by done. rewrite filter_nil.
    rewrite fmap_app. cbn [fmap list_fmap new_keyword kw_keyword kw_category
                           kw_severity].
    rewrite <- Permutation_cons_append. constructor.
    rewrite filter_fmap_keyed.
    rewrite (sort_desc_perm_any _ (filter _ (keywords db))).
    rewrite !list_filter_filter. f_equiv.
    apply Permutation_refl'. apply list_filter_iff. intros r. cbn. tauto.
  - intros i j a b Hij Hi Hj. unfold rules, get_active_keywords in Hi, Hj.
    rewrite list_lookup_fmap in Hi, Hj.
    destruct (sort_desc _ _ !! i) as [ra|] eqn:Hra; [|done].
    destruct (sort_desc _ _ !! j) as [rb|] eqn:Hrb; [|done].
    cbn in Hi, Hj. injection Hi as <-. injection Hj as <-. cbn [snd].
    eapply (sort_desc_descending kw_severity).
    by apply (lookup_pair_sublist _ i j).
  - intros r Hr Hk. unfold db', add_keyword in Hr. cbn [keywords] in Hr.
    fold k in Hr. apply elem_of_app in Hr as [Hr|Hr].
    + apply list_elem_of_filter in Hr as [Hne _]. done.
    + by apply list_elem_of_singleton in Hr.
Qed.

End AddKeyword.

(** * Further properties of the influencer ranking *)

Section InfluencerTotals.
Import EngagementAnalyzer.


(** A quantity every update raises by [delta] grows by [delta] over the
    whole dictionary with each update. *)
Lemma dict_update_sum {K V} `{EqDecision K} (g : V -> Z) (delta : Z)
    (k : K) (f : V -> V) (dflt : V) (d : list (K * V)) :
  g dflt = 0 -> (forall v, g (f v) = g v + delta) ->
  Zsum (g ∘ snd <$> dict_update k f dflt d) = Zsum (g ∘ snd <$> d) + delta.
Proof.
  intros H0 Hf. induction d as [|[k' v] d IH].
  - cbn. rewrite Hf, H0. lia.
  - cbn [dict_update]. destruct (decide (k = k')).
    + cbn. rewrite Hf. fold (Zsum (g ∘ snd <$> d)). lia.
    + rewrite !fmap_cons. cbn [Zsum foldr].
      fold (Zsum (g ∘ snd <$> dict_update k f dflt d))
           (Zsum (g ∘ snd <$> d)).
      rewrite IH. lia.
Qed.




End InfluencerTotals.

(** * Engagement analysis *)

Section BotScore.
Import EngagementAnalyzer.

Lemma Qlt_div_pos (a : Q) (n d : Z) :
  0 < d -> (a < inject_Z n / inject_Z d)%Q -> (a * inject_Z d < inject_Z n)%Q.
Proof.
  intros Hd Hlt.
  assert (0 < inject_Z d)%Q as Hd' by (rewrite <- (Zlt_Qlt 0); lia).
  apply (Qmult_lt_r _ _ (inject_Z d)) in Hlt; [|done].
  assert (inject_Z n / inject_Z d * inject_Z d == inject_Z n)%Q as Heq.
  { field. intros Hz. rewrite Hz in Hd'. by apply Qlt_irrefl in Hd'. }
  by rewrite Heq in Hlt.
Qed.

Lemma Qdiv_lt_pos (b : Q) (n d : Z) :
  0 < d -> (inject_Z n / inject_Z d < b)%Q -> (inject_Z n < b * inject_Z d)%Q.
Proof.
  intros Hd Hlt.
  assert (0 < inject_Z d)%Q as Hd' by (rewrite <- (Zlt_Qlt 0); lia).
  apply (Qmult_lt_r _ _ (inject_Z d)) in Hlt; [|done].
  assert (inject_Z n / inject_Z d * inject_Z d == inject_Z n)%Q as Heq.
  { field. intros Hz. rewrite Hz in Hd'. by apply Qlt_irrefl in Hd'. }
  by rewrite Heq in Hlt.
Qed.

(** X14. [bot_score] takes one of the four values 0, 0.2, 0.3 and 0.5,
    and a post is flagged suspicious exactly when it reaches 0.5, that is
    when both heuristics fire.  A flagged post has more than 100 likes,
    more than 20 likes for each share (a missing or zero share count
    counting as one share) and fewer than one comment per 100 likes. *)
Theorem suspicious_needs_both_signals (c : CampaignContent) :
  let a := analyze_engagement c in
  let likes := get (engagement c) "likes" 0 in
  ((bot_score a == 0)%Q \/ (bot_score a == 2 # 10)%Q
   \/ (bot_score a == 3 # 10)%Q \/ (bot_score a == 1 # 2)%Q)
  /\ (is_suspicious a = true <-> (bot_score a == 1 # 2)%Q)
  /\ (is_suspicious a = true ->
      100 < likes
      /\ 20 * Z.max (get (engagement c) "shares" 1) 1 < likes
      /\ 100 * get (engagement c) "comments" 0 < likes).
Proof.
  cbv zeta. unfold analyze_engagement.
  cbn [bot_score is_suspicious engagement_thresholds bot_like_ratio].
  set (likes := get (engagement c) "likes" 0).
  set (shares := Z.max (get (engagement c) "shares" 1) 1).
  set (comments := get (engagement c) "comments" 0).
  set (l2s := (inject_Z likes / inject_Z shares)%Q).
  set (c2l := (inject_Z comments
               / inject_Z (Z.max (get (engagement c) "likes" 1) 1))%Q).
  destruct (Qltb 20 l2s) eqn:H1;
    destruct (Qltb c2l (1 # 100) && (100 <? likes)) eqn:H2.
  - split; [by do 3 right|]. split; [done|]. intros _.
    apply andb_prop in H2 as [H2 H3]. apply Z.ltb_lt in H3.
    apply Qltb_lt in H1, H2. unfold l2s in H1. unfold c2l in H2.
    assert (get (engagement c) "likes" 1 = likes) as Hl.
    { unfold likes, get in *. by destruct (engagement c !! "likes"). }
    rewrite Hl in H2. rewrite Z.max_l in H2 by lia.
    split; [done|]. split.
    + apply Qlt_div_pos in H1; [|unfold shares; lia].
      rewrite Zlt_Qlt, inject_Z_mult. exact H1.
    + apply Qdiv_lt_pos in H2; [|lia].
      rewrite Zlt_Qlt, inject_Z_mult.
      apply (Qmult_lt_l _ _ (1 # 100)); [done|].
      assert ((1 # 100) * (inject_Z 100 * inject_Z comments)
              == inject_Z comments)%Q as -> by (unfold Qeq; cbn; lia).
      exact H2.
  - split; [by right; right; left|]. split; [|done].
    split; [done|]. intros Heq. by vm_compute in Heq.
  - split; [by right; left|]. split; [|done].
    split; [done|]. intros Heq. by vm_compute in Heq.
  - split; [by left|]. split; [|done].
    split; [done|]. intros Heq. by vm_compute in Heq.
Qed.

End BotScore.

(** * campaign_detector.py: the monitor *)

(** Python's [str()] of a number, as the f-strings of the monitor use it
    on a severity total. *)
Class NumberFormat := {
  str_number : Q -> string
}.

Module RealTimeMonitor.

(** A post as [_simulate_reddit_posts] (or a platform API) hands it
    over. *)
Record post_data := {
  pd_id : string;
  pd_content : string;
  pd_author : string;
  pd_engagement : gmap string Z;
  pd_url : string
}.

Record alert := {
  al_timestamp : datetime;
  al_content_id : string;
  al_platform : string;
  al_author : string;
  al_threat_level : string;
  al_reasons : list string;
  al_content_preview : string;
  al_url : string
}.

(** The two lists a monitor gathers; its rule store and scorer are passed
    beside it. *)
Record t := {
  detected_contents : list CampaignContent;
  alerts : list alert
}.

(** [RealTimeMonitor(keyword_db, nlp_processor)] *)
Definition create : t := {| detected_contents := []; alerts := [] |}.

Section Monitor.
Context `{Collaborators} `{NumberFormat}.

(** [_check_alert_conditions]; [now] is the [datetime.now()] of the
    alert. *)
Definition _check_alert_conditions (self : t) (c : CampaignContent)
    (features : NLPProcessor.features) (now : datetime) : t :=
  let reasons1 :=
    if String.eqb (cc_threat_level c) "HIGH"
       || String.eqb (cc_threat_level c) "CRITICAL"
    then ["High threat level: " +:+ cc_threat_level c]
    else [] in
  let engagement_analysis := EngagementAnalyzer.analyze_engagement c in
  let reasons2 :=
    if EngagementAnalyzer.is_viral engagement_analysis
    then reasons1 ++ ["Viral engagement detected"]
    else reasons1 in
  let reasons3 :=
    if Qltb 20 (NLPProcessor.total_severity features)
    then reasons2
         ++ ["High severity score: "
             +:+ str_number (NLPProcessor.total_severity features)]
    else reasons2 in
  let alert_triggered :=
    (String.eqb (cc_threat_level c) "HIGH"
     || String.eqb (cc_threat_level c) "CRITICAL")
    || EngagementAnalyzer.is_viral engagement_analysis
    || Qltb 20 (NLPProcessor.total_severity features) in
  if alert_triggered then
    {| detected_contents := detected_contents self;
       alerts := alerts self
         ++ [{| al_timestamp := now;
                al_content_id := cc_id c;
                al_platform := platform c;
                al_author := author c;
                al_threat_level := cc_threat_level c;
                al_reasons := reasons3;
                al_content_preview := Text.take 200 (content c);
                al_url := url c |}] |}
  else self.

(** The body of [for post_data in simulated_posts] in [_monitor_reddit]:
    [db_now] is the store's [CURRENT_TIMESTAMP], [now] the
    [datetime.now()] of the detection and [alert_now] that of the
    alert. *)
Definition monitor_post (nlp : NLPProcessor.t) (db : KeywordDatabase.t)
    (self : t) (post : post_data) (db_now : Z) (now alert_now : datetime)
  : t * KeywordDatabase.t :=
  let '(is_anti_india, features, db') :=
    NLPProcessor.is_anti_india_content nlp db (pd_content post) db_now in
  if is_anti_india then
    let detected :=
      {| cc_id := pd_id post;
         platform := "reddit";
         content := pd_content post;
         author := pd_author post;
         timestamp := now;
         engagement := pd_engagement post;
         cc_hashtags := NLPProcessor.hashtags_found features;
         mentions := NLPProcessor.mentions_found features;
         url := pd_url post;
         cc_sentiment_score := NLPProcessor.sentiment_score features;
         cc_threat_level := NLPProcessor.threat_level features;
         keywords_matched :=
           (fun kw => kw.1.1) <$> NLPProcessor.matched_keywords features |} in
    let self' :=
      {| detected_contents := detected_contents self ++ [detected];
         alerts := alerts self |} in
    (_check_alert_conditions self' detected features alert_now, db')
  else (self, db').

End Monitor.

(** [timedelta(hours=hours)] in microseconds. *)
Definition hours_micros (hours : Z) : Z := hours * 3600000000.

(** [get_recent_detections]; [now] is its [datetime.now()]. *)
Definition get_recent_detections (self : t) (hours : Z) (now : datetime)
  : list CampaignContent :=
  filter (fun c => (dt_micros now - hours_micros hours
                    <= dt_micros (timestamp c))%Z)
         (detected_contents self).

(** [get_recent_alerts] *)
Definition get_recent_alerts (self : t) (hours : Z) (now : datetime)
  : list alert :=
  filter (fun a => (dt_micros now - hours_micros hours
                    <= dt_micros (al_timestamp a))%Z)
         (alerts self).

Record trending := {
  tr_keyword : string;
  tr_mentions : Z;
  tr_trend_score : Z
}.

(** [keyword_counts] after both loops, keys in insertion order. *)
Definition keyword_counts (contents : list CampaignContent)
  : list (string * Z) :=
  foldl (fun counts c =>
           foldl (fun counts keyword =>
                    dict_update keyword (fun n => n + 1) 0 counts)
                 counts (keywords_matched c))
        [] contents.

Definition _get_trending_keywords (contents : list CampaignContent)
  : list trending :=
  (fun entry => {| tr_keyword := entry.1; tr_mentions := entry.2;
                   tr_trend_score := entry.2 * 10 |})
  <$> take 10 (sort_desc (fun x y => x.2 <? y.2) (keyword_counts contents)).

(** [defaultdict(int)] counted over [key(content)]. *)
Definition tally (key : CampaignContent -> string)
    (contents : list CampaignContent) : list (string * Z) :=
  foldl (fun stats c => dict_update (key c) (fun n => n + 1) 0 stats)
        [] contents.

(** [max(items, key=lambda x: x[1])]: the first entry with the largest
    count; [None] stands for the [ValueError] on an empty sequence. *)
Definition max_by_count (items : list (string * Z)) : option (string * Z) :=
  match items with
  | [] => None
  | x :: rest =>
      Some (foldl (fun best y => if best.2 <? y.2 then y else best) x rest)
  end.

(** [c.get('threat_level')] *)
Definition campaign_threat_level (c : campaign) : string :=
  match c with
  | HashtagCoordination _ _ _ _ _ level => level
  | ContentSimilarity _ _ _ _ level => level
  | TimingCoordination _ _ _ _ level => level
  end.

Definition _generate_recommendations (contents : list CampaignContent)
    (campaigns : list campaign)
    (influencers : list EngagementAnalyzer.influencer) : list string :=
  let critical_content :=
    filter (fun c => cc_threat_level c = "CRITICAL") contents in
  let r1 :=
    match critical_content with
    | [] => []
    | _ => ["Immediate action required: "
            +:+ pretty (length critical_content)
            +:+ " critical threat posts detected"]
    end in
  let high_threat_campaigns :=
    filter (fun c => campaign_threat_level c = "HIGH"
                     \/ campaign_threat_level c = "CRITICAL") campaigns in
  let r2 :=
    match high_threat_campaigns with
    | [] => r1
    | _ => r1 ++ ["Investigate " +:+ pretty (length high_threat_campaigns)
                  +:+ " high-threat coordinated campaigns"]
    end in
  let high_influence :=
    filter (fun i => Qltb 5000 (EngagementAnalyzer.influence_score i) = true)
           influencers in
  let r3 :=
    match high_influence with
    | [] => r2
    | _ => r2 ++ ["Monitor " +:+ pretty (length high_influence)
                  +:+ " high-influence accounts spreading anti-India content"]
    end in
  let platform_stats := tally platform contents in
  match max_by_count platform_stats with
  | None => r3
  | Some top_platform =>
      r3 ++ ["Focus monitoring efforts on " +:+ top_platform.1 +:+ " ("
             +:+ pretty top_platform.2 +:+ " detections)"]
  end.

Record summary := {
  total_detections_24h : nat;
  total_alerts_24h : nat;
  sm_coordinated_campaigns : nat;
  sm_top_influencers : nat
}.

(** The report; [report_timestamp] is the moment whose [isoformat()] the
    dictionary carries. *)
Record report := {
  report_timestamp : datetime;
  rp_summary : summary;
  platform_breakdown : list (string * Z);
  threat_level_breakdown : list (string * Z);
  coordinated_campaigns : list campaign;
  top_influencers : list EngagementAnalyzer.influencer;
  recent_alerts : list alert;
  trending_keywords : list trending;
  recommendations : list string
}.

(** [generate_threat_report]; the three arguments after [self] are its
    three readings of the clock, in order. *)
Definition generate_threat_report (self : t)
    (detections_now alerts_now report_now : datetime) : result report :=
  let recent_contents := get_recent_detections self 24 detections_now in
  let recent_alerts := get_recent_alerts self 24 alerts_now in
  campaigns ←
    CoordinatedCampaignDetector.detect_coordinated_campaigns recent_contents;
  let influencers := EngagementAnalyzer.identify_influencers recent_contents in
  let platform_stats := tally platform recent_contents in
  let threat_stats := tally cc_threat_level recent_contents in
  Ok {| report_timestamp := report_now;
        rp_summary :=
          {| total_detections_24h := length recent_contents;
             total_alerts_24h := length recent_alerts;
             sm_coordinated_campaigns := length campaigns;
             sm_top_influencers :=
               length (filter (fun i =>
                                 Qltb 1000 (EngagementAnalyzer.influence_score i)
                                 = true)
                              influencers) |};
        platform_breakdown := platform_stats;
        threat_level_breakdown := threat_stats;
        coordinated_campaigns := take 10 campaigns;
        top_influencers := take 20 influencers;
        recent_alerts := recent_alerts;
        trending_keywords := _get_trending_keywords recent_contents;
        recommendations :=
          _generate_recommendations recent_contents campaigns influencers |}.

End RealTimeMonitor.

(** * Properties of the monitor's report *)

Section Counting.

(** A [defaultdict(int)] counted over a list of keys. *)
Definition counts_of (ks : list string) : list (string * Z) :=
  foldl (fun d k => dict_update k (fun n => n + 1) 0 d) [] ks.

(** How often [k] occurs in [ks]. *)
Definition tally_count (k : string) (ks : list string) : Z :=
  Z.of_nat (length (filter (fun x => x = k) ks)).

Lemma tally_count_snoc (k x : string) (ks : list string) :
  tally_count k (ks ++ [x]) = tally_count k ks + (if decide (x = k) then 1 else 0).
Proof.
  unfold tally_count. rewrite filter_app, length_app, filter_cons, filter_nil.
  destruct (decide (x = k)); cbn [length]; lia.
Qed.

Lemma tally_count_pos (k : string) (ks : list string) : k ∈ ks <-> 1 <= tally_count k ks.
Proof.
  unfold tally_count. split.
  - intros Hin.
    assert (k ∈ filter (fun x => x = k) ks) as Hf
      by by apply list_elem_of_filter.
    destruct (filter _ ks); [by apply elem_of_nil in Hf|cbn [length]; lia].
  - intros Hpos. destruct (filter (fun x => x = k) ks) as [|y l] eqn:Hf;
      [cbn in Hpos; lia|].
    assert (y ∈ filter (fun x => x = k) ks) as Hy by (rewrite Hf; left).
    by apply list_elem_of_filter in Hy as [-> Hy].
Qed.

Lemma tally_count_pos' (k : string) (ks : list string) :
  k ∉ ks -> tally_count k ks = 0.
Proof.
  intros Hnin. destruct (decide (1 <= tally_count k ks)) as [Hpos|Hpos].
  - by apply tally_count_pos in Hpos.
  - unfold tally_count in *. lia.
Qed.

Lemma counts_of_snoc (ks : list string) (k : string) :
  counts_of (ks ++ [k]) = dict_update k (fun n => n + 1) 0 (counts_of ks).
Proof. unfold counts_of. by rewrite foldl_app. Qed.

Lemma counts_of_assoc (k : string) (ks : list string) :
  assoc k (counts_of ks)
  = if decide (k ∈ ks) then Some (tally_count k ks) else None.
Proof.
  induction ks as [|x ks IH] using rev_ind.
  - cbn. rewrite decide_False; [done|apply not_elem_of_nil].
  - rewrite counts_of_snoc, assoc_dict_update, tally_count_snoc.
    destruct (decide (k = x)) as [->|Hne].
    + rewrite (decide_True (P := x ∈ ks ++ [x]))
        by (apply elem_of_app; right; left).
      rewrite (decide_True (P := x = x)) by done. f_equal.
      rewrite IH. destruct (decide (x ∈ ks)) as [Hin|Hnin]; [done|].
      cbn [default]. apply tally_count_pos' in Hnin. lia.
    + rewrite IH. rewrite (decide_False (P := x = k)) by done.
      rewrite Z.add_0_r.
      destruct (decide (k ∈ ks)) as [Hin|Hnin].
      * rewrite decide_True; [done|]. apply elem_of_app. by left.
      * rewrite decide_False; [done|]. rewrite elem_of_app.
        intros [?|?%list_elem_of_singleton]; done.
Qed.

Lemma counts_of_NoDup (ks : list string) : NoDup (counts_of ks).*1.
Proof.
  induction ks as [|x ks IH] using rev_ind; [constructor|].
  rewrite counts_of_snoc, dict_update_keys.
  destruct (decide (x ∈ (counts_of ks).*1)); [done|].
  apply NoDup_app. split; [done|]. split; [|apply NoDup_singleton].
  intros y Hy ->%list_elem_of_singleton. done.
Qed.

Lemma counts_of_elem (k : string) (n : Z) (ks : list string) :
  (k, n) ∈ counts_of ks <-> k ∈ ks /\ n = tally_count k ks.
Proof.
  split.
  - intros Hin. apply assoc_elem_of in Hin; [|apply counts_of_NoDup].
    rewrite counts_of_assoc in Hin.
    destruct (decide (k ∈ ks)); [|done]. by injection Hin as <-.
  - intros [Hin ->]. apply assoc_Some_elem_of.
    by rewrite counts_of_assoc, decide_True.
Qed.

Lemma counts_of_sum (ks : list string) :
  Zsum (counts_of ks).*2 = Z.of_nat (length ks).
Proof.
  induction ks as [|x ks IH] using rev_ind; [done|].
  rewrite counts_of_snoc, length_app. cbn [length].
  change (Zsum (dict_update x (fun n => n + 1) 0 (counts_of ks)).*2)
    with (Zsum (id ∘ snd <$> dict_update x (fun n => n + 1) 0 (counts_of ks))).
  rewrite (dict_update_sum id 1) by done.
  change (Zsum (id ∘ snd <$> counts_of ks)) with (Zsum (counts_of ks).*2).
  rewrite IH. lia.
Qed.

Lemma tally_counts (key : CampaignContent -> string)
    (contents : list CampaignContent) :
  RealTimeMonitor.tally key contents = counts_of (key <$> contents).
Proof.
  unfold RealTimeMonitor.tally, counts_of.
  generalize ([] : list (string * Z)). induction contents as [|c cs IH];
    intros d; [done|]. cbn [foldl fmap list_fmap]. apply IH.
Qed.

Lemma keyword_counts_counts (contents : list CampaignContent) :
  RealTimeMonitor.keyword_counts contents
  = counts_of (concat (keywords_matched <$> contents)).
Proof.
  unfold RealTimeMonitor.keyword_counts, counts_of.
  generalize ([] : list (string * Z)). induction contents as [|c cs IH];
    intros d; [done|].
  cbn [foldl fmap list_fmap concat]. by rewrite foldl_app, IH.
Qed.

Lemma tally_count_fmap (key : CampaignContent -> string) (p : string)
    (contents : list CampaignContent) :
  tally_count p (key <$> contents)
  = Z.of_nat (length (filter (fun c => key c = p) contents)).
Proof.
  unfold tally_count. by rewrite filter_fmap_keyed, length_fmap.
Qed.

Lemma sort_desc_ext {A} (lt1 lt2 : A -> A -> bool) (l : list A) :
  (forall x y, lt1 x y = lt2 x y) -> sort_desc lt1 l = sort_desc lt2 l.
Proof.
  intros Hext. induction l as [|x l IH]; [done|].
  change (insert_desc lt1 x (sort_desc lt1 l)
          = insert_desc lt2 x (sort_desc lt2 l)).
  rewrite IH. generalize (sort_desc lt2 l). intros s.
  induction s as [|y s IHs]; [done|].
  cbn [insert_desc]. by rewrite Hext, IHs.
Qed.

Lemma Qltb_inject_Z (a b : Z) : Qltb (inject_Z a) (inject_Z b) = (a <? b).
Proof.
  destruct (a <? b) eqn:Hab.
  - apply Qltb_lt. rewrite <- Zlt_Qlt. by apply Z.ltb_lt.
  - apply Z.ltb_ge in Hab. unfold Qltb. apply negb_false_iff.
    apply Qle_bool_iff. by rewrite <- Zle_Qle.
Qed.

(** Sorting by an integer count, descending. *)
Lemma sort_desc_counts (d : list (string * Z)) (i j : nat)
    (a b : string * Z) :
  let sorted := sort_desc (fun x y => x.2 <? y.2) d in
  (i < j)%nat -> sorted !! i = Some a -> sorted !! j = Some b -> b.2 <= a.2.
Proof.
  intros sorted Hij Hi Hj.
  assert (sorted = sort_desc (fun x y => Qltb (inject_Z x.2) (inject_Z y.2)) d)
    as Hs by (apply sort_desc_ext; intros; by rewrite Qltb_inject_Z).
  rewrite Hs in Hi, Hj.
  pose proof (sort_desc_descending (fun x : string * Z => inject_Z x.2) d a b
                (lookup_pair_sublist _ i j a b Hij Hi Hj)) as Hle.
  cbv beta in Hle. by rewrite <- Zle_Qle in Hle.
Qed.

End Counting.

Section Trending.
Import RealTimeMonitor.

(** X15. The trending list is the top ten of the matched keywords: at
    most ten entries with distinct keywords; an entry's [mentions] is the
    number of times its keyword occurs in the [keywords_matched] lists of
    the batch, at least once, and its [trend_score] ten tally_count that; the
    entries stand by descending mentions; and a matched keyword left out
    of the list means the list is full and holds no entry with fewer
    mentions. *)
Theorem trending_is_top_ten (contents : list CampaignContent) :
  let out := _get_trending_keywords contents in
  let matched := concat (keywords_matched <$> contents) in
  (length out <= 10)%nat
  /\ NoDup (tr_keyword <$> out)
  /\ (forall e, e ∈ out ->
        tr_keyword e ∈ matched
        /\ tr_mentions e = tally_count (tr_keyword e) matched
        /\ 1 <= tr_mentions e
        /\ tr_trend_score e = tr_mentions e * 10)
  /\ (forall i j a b, (i < j)%nat -> out !! i = Some a -> out !! j = Some b ->
        tr_mentions b <= tr_mentions a)
  /\ (forall k, k ∈ matched -> k ∉ tr_keyword <$> out ->
        length out = 10%nat
        /\ forall e, e ∈ out -> tally_count k matched <= tr_mentions e).
Proof.
  intros out matched.
  set (mk := fun entry : string * Z =>
               {| tr_keyword := entry.1; tr_mentions := entry.2;
                  tr_trend_score := entry.2 * 10 |}).
  set (sorted := sort_desc (fun x y : string * Z => x.2 <? y.2)
                           (keyword_counts contents)).
  assert (out = mk <$> take 10 sorted) as Hout by done.
  assert (sorted ≡ₚ counts_of matched) as Hperm.
  { unfold sorted. rewrite sort_desc_perm_any.
    by rewrite keyword_counts_counts. }
  assert (tr_keyword <$> out = (take 10 sorted).*1) as Hkeys.
  { rewrite Hout, <- list_fmap_compose. by apply list_fmap_ext. }
  assert (forall e, e ∈ out ->
            exists i, (i < 10)%nat /\ sorted !! i = Some (tr_keyword e, tr_mentions e)
                      /\ tr_trend_score e = tr_mentions e * 10) as Hsrc.
  { intros e He. rewrite Hout in He.
    apply list_elem_of_fmap in He as ([k n] & -> & He).
    apply list_elem_of_lookup in He as [i Hi].
    apply lookup_take_Some in Hi as [Hi Hlt]. by exists i. }
  split; [|split; [|split; [|split]]].
  - rewrite Hout, length_fmap, length_take. lia.
  - rewrite Hkeys.
    assert (NoDup sorted.*1) as Hnd
      by (rewrite Hperm; apply counts_of_NoDup).
    apply (sublist_NoDup _ _ Hnd), fmap_sublist, sublist_take.
  - intros e He. destruct (Hsrc e He) as (i & _ & Hi & Hscore).
    apply list_elem_of_lookup_2 in Hi. rewrite Hperm in Hi.
    apply counts_of_elem in Hi as [Hin Hn].
    split; [done|]. split; [done|]. split; [|done].
    rewrite Hn. by apply tally_count_pos.
  - intros i j a b Hij Hi Hj. rewrite Hout in Hi, Hj.
    rewrite list_lookup_fmap in Hi, Hj.
    destruct (take 10 sorted !! i) as [ea|] eqn:Ha; [|done].
    destruct (take 10 sorted !! j) as [eb|] eqn:Hb; [|done].
    injection Hi as <-. injection Hj as <-. cbn [mk tr_mentions].
    apply lookup_take_Some in Ha as [Ha _].
    apply lookup_take_Some in Hb as [Hb _].
    by apply (sort_desc_counts (keyword_counts contents) i j).
  - intros k Hk Hnot.
    assert ((k, tally_count k matched) ∈ sorted) as Hin
      by (rewrite Hperm; by apply counts_of_elem).
    apply list_elem_of_lookup in Hin as [j Hj].
    assert (10 <= j)%nat as Hj10.
    { destruct (decide (10 <= j)%nat) as [|Hlt]; [done|]. exfalso.
      apply Hnot. rewrite Hkeys. apply list_elem_of_fmap.
      exists (k, tally_count k matched). split; [done|].
      apply (list_elem_of_lookup_2 _ j). apply lookup_take_Some.
      split; [done|lia]. }
    split.
    + rewrite Hout, length_fmap, length_take.
      apply lookup_lt_Some in Hj. lia.
    + intros e He. destruct (Hsrc e He) as (i & Hi10 & Hi & _).
      apply (sort_desc_counts (keyword_counts contents) i j
               (tr_keyword e, tr_mentions e) (k, tally_count k matched));
        [lia|done|done].
Qed.

End Trending.

Section Report.
Import RealTimeMonitor EngagementAnalyzer.

(** In a list that stands by descending key, the entries above a bound
    are exactly the first ones. *)
Lemma descending_above_prefix {A} (key : A -> Q) (bound : Q) (l : list A) :
  descending key l ->
  forall i x, l !! i = Some x ->
    (Qltb bound (key x) = true
     <-> (i < length (filter (fun y => Qltb bound (key y) = true) l))%nat).
Proof.
  induction l as [|y l IH]; intros Hd i x Hi; [done|].
  assert (forall z, z ∈ l -> (key z <= key y)%Q) as Hbelow.
  { intros z Hz. apply Hd. apply sublist_pair_cons. by right. }
  specialize (IH (descending_tail key y l Hd)).
  destruct (Qltb bound (key y)) eqn:Hy.
  - rewrite filter_cons_True by done. cbn [length].
    destruct i as [|i]; cbn in Hi.
    + injection Hi as <-. split; [lia|done].
    + rewrite (IH i x Hi). lia.
  - rewrite filter_cons_False by congruence.
    assert (forall z, z ∈ l -> Qltb bound (key z) = false) as Hnone.
    { intros z Hz. destruct (Qltb bound (key z)) eqn:Hzb; [|done].
      apply Qltb_lt in Hzb. apply not_true_iff_false in Hy.
      exfalso. apply Hy. apply Qltb_lt.
      eapply Qlt_le_trans; [exact Hzb|by apply Hbelow]. }
    assert (filter (fun z => Qltb bound (key z) = true) l = []) as ->.
    { destruct (filter _ l) as [|z f] eqn:Hf; [done|].
      assert (z ∈ filter (fun z => Qltb bound (key z) = true) l) as Hz
        by (rewrite Hf; left).
      apply list_elem_of_filter in Hz as [Hz1 Hz2].
      rewrite (Hnone z Hz2) in Hz1. done. }
    cbn [length]. split; [|lia]. intros Hx. exfalso.
    destruct i as [|i]; cbn in Hi.
    + injection Hi as <-. congruence.
    + apply list_elem_of_lookup_2 in Hi. rewrite (Hnone x Hi) in Hx. done.
Qed.

(** X16. A threat report never fails, and its figures agree with one
    another: the platform counts and the threat-level counts each add up
    to [total_detections_24h], every count is the number of recent
    detections with that platform or level, the report lists the first
    ten of the [coordinated_campaigns] the summary counts and the first
    twenty influencers, and the influencers the summary counts as top
    (score above 1000) are the first entries of the ranking. *)
Theorem report_figures_agree (self : RealTimeMonitor.t)
    (detections_now alerts_now report_now : datetime) :
  let recent := get_recent_detections self 24 detections_now in
  exists rep campaigns,
    generate_threat_report self detections_now alerts_now report_now = Ok rep
    /\ CoordinatedCampaignDetector.detect_coordinated_campaigns recent
       = Ok campaigns
    /\ total_detections_24h (rp_summary rep) = length recent
    /\ Zsum (platform_breakdown rep).*2
       = Z.of_nat (total_detections_24h (rp_summary rep))
    /\ Zsum (threat_level_breakdown rep).*2
       = Z.of_nat (total_detections_24h (rp_summary rep))
    /\ (forall p n, (p, n) ∈ platform_breakdown rep <->
          p ∈ platform <$> recent
          /\ n = Z.of_nat (length (filter (fun c => platform c = p) recent)))
    /\ (forall l n, (l, n) ∈ threat_level_breakdown rep <->
          l ∈ cc_threat_level <$> recent
          /\ n = Z.of_nat (length (filter (fun c => cc_threat_level c = l)
                                          recent)))
    /\ sm_coordinated_campaigns (rp_summary rep) = length campaigns
    /\ coordinated_campaigns rep = take 10 campaigns
    /\ top_influencers rep = take 20 (identify_influencers recent)
    /\ (forall i inf, identify_influencers recent !! i = Some inf ->
          ((1000 < influence_score inf)%Q
           <-> (i < sm_top_influencers (rp_summary rep))%nat))
    /\ total_alerts_24h (rp_summary rep) = length (recent_alerts rep).
Proof.
  intros recent. unfold generate_threat_report. fold recent.
  destruct (driver_windows_aux recent) as (campaigns & -> & _).
  cbn. eexists _, campaigns. split; [reflexivity|].
  cbn. split; [done|]. split; [done|].
  rewrite !tally_counts, !counts_of_sum, !length_fmap.
  split; [done|]. split; [done|]. split.
  { intros p n. by rewrite counts_of_elem, tally_count_fmap. }
  split.
  { intros l n. by rewrite counts_of_elem, tally_count_fmap. }
  split; [done|]. split; [done|]. split; [done|]. split; [|done].
  intros i inf Hi. rewrite <- Qltb_lt.
  apply (descending_above_prefix influence_score 1000 _
           (sort_desc_descending influence_score _) i inf Hi).
Qed.

(** X17. When no detection falls in the last 24 hours the report is the
    empty one, never an error: zero detections and campaigns, no
    influencer, no trending keyword and no recommendation; only the
    recent alerts are carried. *)
Theorem quiet_day_report (self : RealTimeMonitor.t)
    (detections_now alerts_now report_now : datetime) :
  get_recent_detections self 24 detections_now = [] ->
  generate_threat_report self detections_now alerts_now report_now
  = Ok {| report_timestamp := report_now;
          rp_summary :=
            {| total_detections_24h := 0;
               total_alerts_24h :=
                 length (get_recent_alerts self 24 alerts_now);
               sm_coordinated_campaigns := 0;
               sm_top_influencers := 0 |};
          platform_breakdown := [];
          threat_level_breakdown := [];
          coordinated_campaigns := [];
          top_influencers := [];
          recent_alerts := get_recent_alerts self 24 alerts_now;
          trending_keywords := [];
          recommendations := [] |}.
Proof.
  intros Hquiet. unfold generate_threat_report. rewrite Hquiet. done.
Qed.

End Report.

(** A monitor whose one detection is two days old. *)
Definition stale_monitor : RealTimeMonitor.t :=
  {| RealTimeMonitor.detected_contents :=
       [post "1" "u1" "boycott india" (at_time 738998 12 0 0 0) [] "HIGH"];
     RealTimeMonitor.alerts := [] |}.

Lemma quiet_day_report_witness :
  RealTimeMonitor.get_recent_detections stale_monitor 24 noon = []
  /\ RealTimeMonitor.recommendations
       <$> RealTimeMonitor.generate_threat_report stale_monitor noon noon noon
     = Ok [].
Proof.
  split; [vm_compute; reflexivity|].
  rewrite (quiet_day_report stale_monitor noon noon noon);
    [reflexivity|vm_compute; reflexivity].
Defined.

Section Alerts.
Context `{Collaborators} `{NumberFormat}.
Import RealTimeMonitor NLPProcessor EngagementAnalyzer.

Lemma is_anti_india_content_features nlp db text now :
  (is_anti_india_content nlp db text now).1.2
  = (extract_features nlp db text now).1
  /\ (is_anti_india_content nlp db text now).2
     = (extract_features nlp db text now).2.
Proof.
  unfold is_anti_india_content.
  by destruct (extract_features nlp db text now).
Qed.

(** The level test of the alert check, read on the severity total. *)
Lemma high_or_critical (total : Q) :
  String.eqb (threat_level_of total) "HIGH"
  || String.eqb (threat_level_of total) "CRITICAL"
  = Qle_bool 15 total.
Proof.
  unfold threat_level_of.
  destruct (Qle_bool 25 total) eqn:H25.
  - apply Qle_bool_iff in H25. symmetry. apply Qle_bool_iff.
    eapply Qle_trans; [|exact H25]. done.
  - destruct (Qle_bool 15 total); [done|].
    by destruct (Qle_bool 8 total).
Qed.

Lemma above_twenty (total : Q) :
  Qltb 20 total = true -> Qle_bool 15 total = true.
Proof.
  intros Hlt%Qltb_lt. apply Qle_bool_iff. apply Qlt_le_weak.
  eapply Qle_lt_trans; [|exact Hlt]. done.
Qed.

(** [_check_alert_conditions] on a content that carries the threat
    level of the severity total it is checked against. *)
Lemma check_alert_conditions_spec self c f now :
  cc_threat_level c = threat_level_of (total_severity f) ->
  let total := total_severity f in
  let viral := is_viral (analyze_engagement c) in
  _check_alert_conditions self c f now
  = if Qle_bool 15 total || viral then
      {| detected_contents := detected_contents self;
         alerts := alerts self
           ++ [{| al_timestamp := now;
                  al_content_id := cc_id c;
                  al_platform := platform c;
                  al_author := author c;
                  al_threat_level := threat_level_of total;
                  al_reasons :=
                    (if Qle_bool 15 total
                     then ["High threat level: " +:+ threat_level_of total]
                     else [])
                    ++ (if viral then ["Viral engagement detected"] else [])
                    ++ (if Qltb 20 total
                        then ["High severity score: " +:+ str_number total]
                        else []);
                  al_content_preview := Text.take 200 (content c);
                  al_url := url c |}] |}
    else self.
Proof.
  intros Hlevel total viral. unfold _check_alert_conditions.
  fold viral. fold total. rewrite Hlevel. fold total.
  rewrite high_or_critical.
  destruct (Qle_bool 15 total) eqn:H15.
  - cbn [orb]. by destruct viral, (Qltb 20 total).
  - assert (Qltb 20 total = false) as ->.
    { destruct (Qltb 20 total) eqn:E; [|done].
      apply above_twenty in E. congruence. }
    cbn [orb]. rewrite orb_false_r. by destruct viral.
Qed.

(** X18. What the monitor does with one post.  A post the scorer does
    not flag leaves the monitor as it was.  A flagged post is appended to
    the detections under the threat level of its severity total, and
    raises an alert exactly when that total is at least 15 or the post is
    viral; the alert lists its reasons in the order level, virality,
    severity.  The severity test (total above 20) never raises an alert
    on its own: it only adds a third line to an alert the level test has
    already raised.  The rule store is the one the scorer returns. *)
Theorem monitor_post_alerts nlp db self post db_now now alert_now :
  let r := is_anti_india_content nlp db (pd_content post) db_now in
  let total := total_severity r.1.2 in
  let out := monitor_post nlp db self post db_now now alert_now in
  out.2 = r.2
  /\ (r.1.1 = false -> out.1 = self)
  /\ (r.1.1 = true ->
      exists c,
        detected_contents out.1 = detected_contents self ++ [c]
        /\ cc_id c = pd_id post
        /\ platform c = "reddit"
        /\ author c = pd_author post
        /\ timestamp c = now
        /\ engagement c = pd_engagement post
        /\ cc_threat_level c = threat_level_of total
        /\ keywords_matched c = (fun kw => kw.1.1) <$> matched_keywords r.1.2
        /\ let viral := is_viral (analyze_engagement c) in
           if Qle_bool 15 total || viral then
             exists a,
               alerts out.1 = alerts self ++ [a]
               /\ al_timestamp a = alert_now
               /\ al_content_id a = pd_id post
               /\ al_threat_level a = threat_level_of total
               /\ al_content_preview a = Text.take 200 (pd_content post)
               /\ al_reasons a
                  = (if Qle_bool 15 total
                     then ["High threat level: " +:+ threat_level_of total]
                     else [])
                    ++ (if viral then ["Viral engagement detected"] else [])
                    ++ (if Qltb 20 total
                        then ["High severity score: " +:+ str_number total]
                        else [])
           else alerts out.1 = alerts self).
Proof.
  intros r total out.
  destruct (is_anti_india_content_features nlp db (pd_content post) db_now)
    as [Hf Hdb].
  destruct (extract_features_spec nlp db (pd_content post) db_now)
    as (_ & _ & _ & _ & Hlevel & _).
  cbv zeta in Hlevel. rewrite <- Hf in Hlevel.
  fold r in Hf, Hdb, Hlevel. fold total in Hlevel.
  unfold out, monitor_post. fold r.
  destruct r as [[flag f] db'] eqn:Hr. cbn [fst snd] in *.
  destruct flag; [|done].
  set (c := {| cc_id := pd_id post; cc_threat_level := threat_level f |}).
  rewrite (check_alert_conditions_spec _ c f alert_now Hlevel).
  fold total.
  split; [by destruct (Qle_bool 15 total || is_viral (analyze_engagement c))|].
  split; [done|]. intros _. exists c.
  rewrite <- Hlevel.
  destruct (Qle_bool 15 total || is_viral (analyze_engagement c)) eqn:Hraise.
  - cbn [fst detected_contents alerts]. repeat (split; [reflexivity|]).
    eexists. split; [reflexivity|]. by repeat split.
  - cbn [fst detected_contents alerts]. by repeat (split; [reflexivity|]).
Qed.

End Alerts.

Section MonitorRun.
Context `{Collaborators} `{NumberFormat}.
Import RealTimeMonitor NLPProcessor EngagementAnalyzer.

(** The loop [for post_data in simulated_posts] of [_monitor_reddit]:
    each post comes with the three clock readings of its turn, the
    store's, the detection's and the alert's. *)
Definition monitor_posts (nlp : NLPProcessor.t)
    (st : RealTimeMonitor.t * KeywordDatabase.t)
    (posts : list (post_data * Z * datetime * datetime))
  : RealTimeMonitor.t * KeywordDatabase.t :=
  foldl (fun st turn =>
           let '(post, db_now, now, alert_now) := turn in
           monitor_post nlp st.2 st.1 post db_now now alert_now)
        st posts.

(** What every monitor reached from a fresh one satisfies. *)
Definition backed (self : RealTimeMonitor.t) (posts : list post_data)
  : Prop :=
  (length (alerts self) <= length (detected_contents self))%nat
  /\ (length (detected_contents self) <= length posts)%nat
  /\ (forall a, a ∈ alerts self ->
        exists c, c ∈ detected_contents self
          /\ al_content_id a = cc_id c
          /\ al_author a = author c
          /\ al_platform a = platform c
          /\ al_threat_level a = cc_threat_level c
          /\ al_content_preview a = Text.take 200 (content c)
          /\ al_reasons a ≠ []
          /\ (cc_threat_level c = "HIGH" \/ cc_threat_level c = "CRITICAL"
              \/ is_viral (analyze_engagement c) = true))
  /\ (forall c, c ∈ detected_contents self ->
        platform c = "reddit"
        /\ cc_threat_level c ∈ known_levels
        /\ exists post, post ∈ posts
             /\ cc_id c = pd_id post /\ content c = pd_content post
             /\ author c = pd_author post).

Lemma threat_level_of_known (total : Q) :
  threat_level_of total ∈ known_levels.
Proof.
  unfold threat_level_of, known_levels.
  destruct (Qle_bool 25 total); [set_solver|].
  destruct (Qle_bool 15 total); [set_solver|].
  destruct (Qle_bool 8 total); set_solver.
Qed.

Lemma threat_level_of_high (total : Q) :
  Qle_bool 15 total = true ->
  threat_level_of total = "HIGH" \/ threat_level_of total = "CRITICAL".
Proof.
  intros H15. unfold threat_level_of. rewrite H15.
  destruct (Qle_bool 25 total); [by right|by left].
Qed.

Lemma backed_weaken self posts post :
  backed self posts -> backed self (posts ++ [post]).
Proof.
  intros (H1 & H2 & H3 & H4). split; [done|].
  split; [rewrite length_app; cbn [length]; lia|]. split; [done|].
  intros c Hc. destruct (H4 c Hc) as (Hp & Hl & p & Hin & Hrest).
  split; [done|]. split; [done|]. exists p.
  split; [|done]. apply elem_of_app. by left.
Qed.

Lemma monitor_post_backed nlp db self posts post db_now now alert_now :
  backed self posts ->
  backed (monitor_post nlp db self post db_now now alert_now).1
         (posts ++ [post]).
Proof.
  intros Hb. pose proof (backed_weaken self posts post Hb) as Hw.
  destruct Hb as (H1 & H2 & _).
  destruct (is_anti_india_content_features nlp db (pd_content post) db_now)
    as [Hf _].
  destruct (extract_features_spec nlp db (pd_content post) db_now)
    as (_ & _ & _ & _ & Hlevel & _).
  cbv zeta in Hlevel. rewrite <- Hf in Hlevel.
  unfold monitor_post.
  destruct (is_anti_india_content nlp db (pd_content post) db_now)
    as [[flag f] db'].
  cbn [fst snd] in Hlevel. destruct flag; [|done].
  set (c := {| cc_id := pd_id post; cc_threat_level := threat_level f |}).
  rewrite (check_alert_conditions_spec _ c f alert_now Hlevel).
  destruct Hw as (_ & _ & H3 & H4).
  assert (forall c', c' ∈ detected_contents self ++ [c] ->
            platform c' = "reddit"
            /\ cc_threat_level c' ∈ known_levels
            /\ exists p, p ∈ posts ++ [post]
                 /\ cc_id c' = pd_id p /\ content c' = pd_content p
                 /\ author c' = pd_author p) as H4'.
  { intros c' [Hc'|Hc']%elem_of_app; [by apply H4|].
    apply list_elem_of_singleton in Hc' as ->.
    split; [done|]. split.
    - cbn [c cc_threat_level]. rewrite Hlevel. apply threat_level_of_known.
    - exists post. split; [|done]. apply elem_of_app. right. left. }
  assert (forall a, a ∈ alerts self ->
            exists c', c' ∈ detected_contents self ++ [c]
              /\ al_content_id a = cc_id c'
              /\ al_author a = author c'
              /\ al_platform a = platform c'
              /\ al_threat_level a = cc_threat_level c'
              /\ al_content_preview a = Text.take 200 (content c')
              /\ al_reasons a ≠ []
              /\ (cc_threat_level c' = "HIGH"
                  \/ cc_threat_level c' = "CRITICAL"
                  \/ is_viral (analyze_engagement c') = true)) as H3'.
  { intros a Ha. destruct (H3 a Ha) as (c' & Hc' & Hrest).
    exists c'. split; [|done]. apply elem_of_app. by left. }
  destruct (Qle_bool 15 (total_severity f)
            || is_viral (analyze_engagement c)) eqn:Hraise;
    unfold backed; cbn [fst detected_contents alerts].
  - split; [rewrite !length_app; cbn [length]; lia|].
    split; [rewrite !length_app; cbn [length]; lia|].
    split; [|done].
    intros a [Ha|Ha]%elem_of_app; [by apply H3'|].
    apply list_elem_of_singleton in Ha as ->.
    exists c. split; [apply elem_of_app; right; left|].
    cbn [al_content_id al_author al_platform al_threat_level
         al_content_preview al_reasons].
    split; [done|]. split; [done|]. split; [done|].
    split; [by rewrite <- Hlevel|]. split; [done|].
    apply orb_prop in Hraise as [H15|Hv].
    + rewrite H15. split; [done|].
      change (cc_threat_level c) with (threat_level f). rewrite Hlevel.
      destruct (threat_level_of_high _ H15); [by left|by right; left].
    + rewrite Hv. split; [|by right; right].
      by destruct (Qle_bool 15 (total_severity f)).
  - split; [rewrite !length_app; cbn [length]; lia|].
    split; [rewrite !length_app; cbn [length]; lia|]. done.
Qed.

(** X19. However many posts a fresh monitor is fed, its alerts stay
    backed by its detections: there are no more alerts than detections
    and no more detections than posts; every alert repeats the id,
    author, platform and threat level of a detection that is HIGH,
    CRITICAL or viral, previews its first 200 characters and gives at
    least one reason; and every detection is a reddit item taken from
    one of the posts, with one of the four threat levels. *)
Theorem alerts_backed_by_detections nlp db
    (turns : list (post_data * Z * datetime * datetime)) :
  backed (monitor_posts nlp (RealTimeMonitor.create, db) turns).1
         ((fun turn => turn.1.1.1) <$> turns).
Proof.
  induction turns as [|[[[post db_now] now] alert_now] turns IH]
    using rev_ind.
  - cbn. split; [done|]. split; [done|].
    split; intros ? ?%elem_of_nil; done.
  - unfold monitor_posts. rewrite foldl_app, fmap_app. cbn [foldl].
    fold (monitor_posts nlp (RealTimeMonitor.create, db) turns).
    cbn [fmap list_fmap fst]. by apply monitor_post_backed.
Qed.

End MonitorRun.

Section Recommendations.
Import RealTimeMonitor.

Lemma max_by_count_fold (best : string * Z) (rest : list (string * Z)) :
  let r := foldl (fun best y => if best.2 <? y.2 then y else best) best rest in
  r ∈ best :: rest /\ best.2 <= r.2 /\ forall y, y ∈ rest -> y.2 <= r.2.
Proof.
  revert best. induction rest as [|x rest IH]; intros best.
  - cbn. split; [left|]. split; [lia|]. by intros y ?%elem_of_nil.
  - cbn [foldl].
    destruct (IH (if best.2 <? x.2 then x else best)) as (Hin & Hle & Hall).
    cbv zeta. split; [|split].
    + apply elem_of_cons in Hin as [->|Hin].
      * destruct (best.2 <? x.2); [right; left|left].
      * right. by right.
    + destruct (Z.ltb_spec best.2 x.2); lia.
    + intros y [->|Hy]%elem_of_cons; [|by apply Hall].
      destruct (Z.ltb_spec best.2 x.2); lia.
Qed.

Lemma max_by_count_spec (items : list (string * Z)) :
  items ≠ [] ->
  exists top, max_by_count items = Some top /\ top ∈ items
              /\ forall y, y ∈ items -> y.2 <= top.2.
Proof.
  destruct items as [|x rest]; [done|]. intros _.
  destruct (max_by_count_fold x rest) as (Hin & Hle & Hall).
  eexists. split; [reflexivity|]. split; [exact Hin|].
  intros y [->|Hy]%elem_of_cons; [exact Hle|by apply Hall].
Qed.

(** X20. On a non-empty batch the recommendations, at most four, end
    with the platform line, and the platform it names is one with the
    most detections in the batch, printed with that number. *)
Theorem focus_on_busiest_platform (contents : list CampaignContent)
    (campaigns : list campaign)
    (influencers : list EngagementAnalyzer.influencer) :
  contents ≠ [] ->
  let recs := _generate_recommendations contents campaigns influencers in
  let detections p := length (filter (fun c => platform c = p) contents) in
  (length recs <= 4)%nat
  /\ exists p,
       p ∈ platform <$> contents
       /\ (forall q, (detections q <= detections p)%nat)
       /\ last recs
          = Some ("Focus monitoring efforts on " +:+ p +:+ " ("
                  +:+ pretty (Z.of_nat (detections p)) +:+ " detections)").
Proof.
  intros Hne recs detections. unfold recs, _generate_recommendations.
  set (r1 := match filter _ contents with [] => [] | _ => _ end).
  set (r2 := match filter _ campaigns with [] => r1 | _ => _ end).
  set (r3 := match filter _ influencers with [] => r2 | _ => _ end).
  assert (length r3 <= 3)%nat as Hlen.
  { unfold r3, r2, r1.
    destruct (filter _ contents), (filter _ campaigns),
      (filter _ influencers); rewrite ?length_app; cbn [length]; lia. }
  destruct (max_by_count_spec (tally platform contents))
    as ([p n] & -> & Hin & Hmax).
  { rewrite tally_counts. destruct contents as [|c cs]; [done|].
    intros Hnil.
    assert (platform c ∈ (counts_of (platform <$> c :: cs)).*1) as Hc.
    { apply list_elem_of_fmap. exists (platform c, tally_count (platform c)
                                            (platform <$> c :: cs)).
      split; [done|]. apply counts_of_elem. split; [left|done]. }
    rewrite Hnil in Hc. by apply elem_of_nil in Hc. }
  rewrite tally_counts in Hin, Hmax.
  apply counts_of_elem in Hin as [Hp Hn]. rewrite tally_count_fmap in Hn.
  split; [rewrite length_app; cbn [length]; lia|].
  exists p. split; [done|]. split.
  - intros q. destruct (decide (q ∈ platform <$> contents)) as [Hq|Hq].
    + specialize (Hmax (q, tally_count q (platform <$> contents))).
      rewrite counts_of_elem in Hmax. specialize (Hmax (conj Hq eq_refl)).
      cbn [snd] in Hmax. rewrite tally_count_fmap, Hn in Hmax.
      unfold detections. lia.
    + apply tally_count_pos' in Hq. rewrite tally_count_fmap in Hq.
      unfold detections. lia.
  - rewrite last_snoc. cbn [fst snd]. by rewrite Hn.
Qed.

End Recommendations.

Lemma focus_on_busiest_platform_witness :
  four_posts ≠ []
  /\ let recs := RealTimeMonitor._generate_recommendations four_posts [] [] in
     let detections p :=
       length (filter (fun c => platform c = p) four_posts) in
     (length recs <= 4)%nat
     /\ exists p,
          p ∈ platform <$> four_posts
          /\ (forall q, (detections q <= detections p)%nat)
          /\ last recs
             = Some ("Focus monitoring efforts on " +:+ p +:+ " ("
                     +:+ pretty (Z.of_nat (detections p))
                     +:+ " detections)").
Proof.
  split; [done|]. apply (focus_on_busiest_platform four_posts [] []). done.
Defined.

(** * enhanced_keyword_database.py: detection *)

(** SQLite's [REAL] and Python's [float] are the same doubles; a double
    is written as the rational it denotes, so comparisons are the exact
    ones.  What rounds is kept abstract: reading a decimal literal and
    adding. *)
Class Doubles := {
  double_of : Q -> Q;
  double_add : Q -> Q -> Q
}.

(** [re.search(pattern, text, re.IGNORECASE) is not None] *)
Class Regex := {
  re_search : string -> string -> bool
}.

Module EnhancedStore.

Record pattern_row := {
  pt_id : Z;
  pt_pattern : string;
  pt_regex_pattern : string;
  pt_category : string;
  pt_weight : Q;
  pt_description : option string;
  pt_created_date : Z;
  pt_detection_count : Z
}.

(** The database file: the two rule tables and the pattern table. *)
Record t := {
  rules : EnhancedKeywordDatabase.t;
  phrase_patterns : list pattern_row;
  patterns_seq : Z
}.

(** [init_keyword_tables] on a fresh file. *)
Definition init_keyword_tables : t :=
  {| rules :=
       {| EnhancedKeywordDatabase.keywords := [];
          EnhancedKeywordDatabase.keywords_seq := 0;
          EnhancedKeywordDatabase.hashtags := [];
          EnhancedKeywordDatabase.hashtags_seq := 0 |};
     phrase_patterns := []; patterns_seq := 0 |}.

Section Defaults.
Context `{Doubles}.

Definition default_keywords : list (string * string * Q) :=
  [ ("anti India", "direct_hate", double_of 3);
    ("boycott India", "boycott_campaign", double_of (28 # 10));
    ("hate India", "direct_hate", double_of (29 # 10));
    ("down with India", "direct_hate", double_of (27 # 10));
    ("India terrorist state", "propaganda", double_of (25 # 10));
    ("India genocide", "disinformation", double_of (26 # 10));
    ("Kashmir boycott India", "kashmir_campaign", double_of (24 # 10));
    ("Kashmir liberation from India", "separatist", double_of (23 # 10));
    ("free Kashmir from India", "separatist", double_of (22 # 10));
    ("India occupation Kashmir", "political_criticism", double_of (21 # 10));
    ("कश्मीर", "kashmir_term", double_of (25 # 10));
    ("कश्मीर आज़ादी", "separatist", double_of (23 # 10));
    ("कश्मीर स्वतंत्रता", "separatist", double_of (23 # 10));
    ("Modi fascist", "political_attack", double_of 2);
    ("BJP terrorist", "political_attack", double_of (19 # 10));
    ("India fascism", "political_criticism", double_of (18 # 10));
    ("Hindutva terrorism", "religious_hate", double_of (22 # 10));
    ("India human rights abuse", "human_rights", double_of (17 # 10));
    ("India war crimes", "accusations", double_of (16 # 10));
    ("India ethnic cleansing", "accusations", double_of (18 # 10));
    ("India apartheid", "accusations", double_of (15 # 10));
    ("boycott Indian products", "economic_campaign", double_of (14 # 10));
    ("ban Indian goods", "economic_campaign", double_of (13 # 10));
    ("economic sanctions India", "economic_campaign", double_of (12 # 10));
    ("fake news India", "disinformation", double_of (11 # 10));
    ("India propaganda", "disinformation", double_of (12 # 10));
    ("Indian lies", "disinformation", double_of 1) ].

Definition default_hashtags : list (string * string * Q * string) :=
  [ ("#BoycottIndia", "boycott_campaign", double_of (25 # 10), "twitter");
    ("#AntiIndia", "direct_hate", double_of (28 # 10), "twitter");
    ("#KashmirBleeds", "kashmir_campaign", double_of (22 # 10), "twitter");
    ("#ModiFascist", "political_attack", double_of 2, "twitter");
    ("#IndiaExposed", "propaganda", double_of (18 # 10), "twitter");
    ("#FreeKashmir", "separatist", double_of (21 # 10), "twitter");
    ("#IndianTerrorism", "propaganda", double_of (24 # 10), "twitter");
    ("#HatePropaganda", "general_hate", double_of (15 # 10), "general") ].

Definition default_patterns : list (string * string * string * Q) :=
  [ ("India should be destroyed",
     "india\s+should\s+be\s+(destroyed|eliminated|wiped)",
     "direct_threat", double_of 3);
    ("Death to India", "death\s+to\s+india", "direct_threat", double_of 3);
    ("India is terrorist nation",
     "india\s+is\s+(a\s+)?terrorist\s+(nation|state|country)",
     "propaganda", double_of (25 # 10));
    ("Break India movement", "break\s+india\s+(movement|campaign|agenda)",
     "separatist", double_of (23 # 10));
    ("India behind terrorism",
     "india\s+(behind|funding|supporting)\s+terrorism",
     "conspiracy", double_of (21 # 10)) ].

(** [INSERT OR IGNORE INTO keywords (keyword, category, weight)]; the
    language column takes its default. *)
Definition insert_or_ignore_keyword (now : Z) (db : t)
    (rule : string * string * Q) : t :=
  let '(keyword, category, weight) := rule in
  match EnhancedKeywordDatabase.insert_keyword (rules db) keyword category
          weight "en" now with
  | Ok rules' =>
      {| rules := rules'; phrase_patterns := phrase_patterns db;
         patterns_seq := patterns_seq db |}
  | Raise _ => db
  end.

(** [INSERT OR IGNORE INTO hashtags (hashtag, category, weight,
    platform)] *)
Definition insert_or_ignore_hashtag (now : Z) (db : t)
    (rule : string * string * Q * string) : t :=
  let '(hashtag, category, weight, platform) := rule in
  match EnhancedKeywordDatabase.insert_hashtag (rules db) hashtag category
          weight platform now with
  | Ok rules' =>
      {| rules := rules'; phrase_patterns := phrase_patterns db;
         patterns_seq := patterns_seq db |}
  | Raise _ => db
  end.

(** [INSERT OR IGNORE INTO phrase_patterns (pattern, regex_pattern,
    category, weight)]: the table has no uniqueness constraint. *)
Definition insert_or_ignore_pattern (now : Z) (db : t)
    (rule : string * string * string * Q) : t :=
  let '(pattern, regex, category, weight) := rule in
  {| rules := rules db;
     phrase_patterns := phrase_patterns db
       ++ [{| pt_id := patterns_seq db + 1; pt_pattern := pattern;
              pt_regex_pattern := regex; pt_category := category;
              pt_weight := weight; pt_description := None;
              pt_created_date := now; pt_detection_count := 0 |}];
     patterns_seq := patterns_seq db + 1 |}.

(** [load_default_keywords]: nothing is loaded once the keywords table
    holds a row. *)
Definition load_default_keywords (db : t) (now : Z) : t :=
  if (0 <? length (EnhancedKeywordDatabase.keywords (rules db)))%nat then db
  else
    let db1 := foldl (insert_or_ignore_keyword now) db default_keywords in
    let db2 := foldl (insert_or_ignore_hashtag now) db1 default_hashtags in
    foldl (insert_or_ignore_pattern now) db2 default_patterns.

(** [KeywordDatabase(db_path)] of enhanced_keyword_database.py on a fresh
    file. *)
Definition create (now : Z) : t :=
  load_default_keywords init_keyword_tables now.

End Defaults.

(** The dictionaries the two getters return. *)
Record keyword_entry := {
  ke_keyword : string;
  ke_category : string;
  ke_weight : Q;
  ke_detection_count : Z
}.

Record hashtag_entry := {
  he_hashtag : string;
  he_category : string;
  he_weight : Q;
  he_platform : string;
  he_usage_count : Z
}.

Record pattern_entry := {
  pe_pattern : string;
  pe_category : string;
  pe_weight : Q
}.

(** [ORDER BY weight DESC, count DESC]: [a] sorts after [b]. *)
Definition below (wa : Q) (ca : Z) (wb : Q) (cb : Z) : bool :=
  Qltb wa wb || (Qeq_bool wa wb && (ca <? cb)).

(** [if category:] / [if platform:] on an optional string argument. *)
Definition truthy (arg : option string) : option string :=
  match arg with
  | Some "" => None
  | other => other
  end.

(** [get_active_keywords(category, min_weight)] *)
Definition get_active_keywords (db : t) (category : option string)
    (min_weight : Q) : list keyword_entry :=
  let selected :=
    filter (fun r =>
              EnhancedKeywordDatabase.kw_is_active r
              && Qle_bool min_weight (EnhancedKeywordDatabase.kw_weight r)
              && match truthy category with
                 | Some c =>
                     String.eqb (EnhancedKeywordDatabase.kw_category r) c
                 | None => true
                 end = true)
           (EnhancedKeywordDatabase.keywords (rules db)) in
  (fun r => {| ke_keyword := EnhancedKeywordDatabase.kw_keyword r;
               ke_category := EnhancedKeywordDatabase.kw_category r;
               ke_weight := EnhancedKeywordDatabase.kw_weight r;
               ke_detection_count :=
                 EnhancedKeywordDatabase.kw_detection_count r |})
  <$> sort_desc (fun a b =>
                   below (EnhancedKeywordDatabase.kw_weight a)
                         (EnhancedKeywordDatabase.kw_detection_count a)
                         (EnhancedKeywordDatabase.kw_weight b)
                         (EnhancedKeywordDatabase.kw_detection_count b))
                selected.

(** [get_active_hashtags(platform)]: no row is left out for being
    inactive, the table has no such column. *)
Definition get_active_hashtags (db : t) (platform : option string)
  : list hashtag_entry :=
  let selected :=
    filter (fun r =>
              match truthy platform with
              | Some p =>
                  String.eqb (EnhancedKeywordDatabase.ht_platform r) p
                  || String.eqb (EnhancedKeywordDatabase.ht_platform r)
                                "general"
              | None => true
              end = true)
           (EnhancedKeywordDatabase.hashtags (rules db)) in
  (fun r => {| he_hashtag := EnhancedKeywordDatabase.ht_hashtag r;
               he_category := EnhancedKeywordDatabase.ht_category r;
               he_weight := EnhancedKeywordDatabase.ht_weight r;
               he_platform := EnhancedKeywordDatabase.ht_platform r;
               he_usage_count := EnhancedKeywordDatabase.ht_usage_count r |})
  <$> sort_desc (fun a b =>
                   below (EnhancedKeywordDatabase.ht_weight a)
                         (EnhancedKeywordDatabase.ht_usage_count a)
                         (EnhancedKeywordDatabase.ht_weight b)
                         (EnhancedKeywordDatabase.ht_usage_count b))
                selected.

(** [UPDATE keywords SET detection_count = detection_count + 1,
    last_detected = CURRENT_TIMESTAMP WHERE keyword = ?] *)
Definition bump_keyword (k : string) (now : Z)
    (r : EnhancedKeywordDatabase.keyword_row)
  : EnhancedKeywordDatabase.keyword_row :=
  if String.eqb (EnhancedKeywordDatabase.kw_keyword r) k then
    {| EnhancedKeywordDatabase.kw_id := EnhancedKeywordDatabase.kw_id r;
       EnhancedKeywordDatabase.kw_keyword :=
         EnhancedKeywordDatabase.kw_keyword r;
       EnhancedKeywordDatabase.kw_category :=
         EnhancedKeywordDatabase.kw_category r;
       EnhancedKeywordDatabase.kw_weight :=
         EnhancedKeywordDatabase.kw_weight r;
       EnhancedKeywordDatabase.kw_language :=
         EnhancedKeywordDatabase.kw_language r;
       EnhancedKeywordDatabase.kw_created_date :=
         EnhancedKeywordDatabase.kw_created_date r;
       EnhancedKeywordDatabase.kw_last_detected := Some now;
       EnhancedKeywordDatabase.kw_detection_count :=
         EnhancedKeywordDatabase.kw_detection_count r + 1;
       EnhancedKeywordDatabase.kw_is_active :=
         EnhancedKeywordDatabase.kw_is_active r |}
  else r.

(** [UPDATE hashtags SET usage_count = usage_count + 1, last_used =
    CURRENT_TIMESTAMP WHERE hashtag = ?] *)
Definition bump_hashtag (k : string) (now : Z)
    (r : EnhancedKeywordDatabase.hashtag_row)
  : EnhancedKeywordDatabase.hashtag_row :=
  if String.eqb (EnhancedKeywordDatabase.ht_hashtag r) k then
    {| EnhancedKeywordDatabase.ht_id := EnhancedKeywordDatabase.ht_id r;
       EnhancedKeywordDatabase.ht_hashtag :=
         EnhancedKeywordDatabase.ht_hashtag r;
       EnhancedKeywordDatabase.ht_category :=
         EnhancedKeywordDatabase.ht_category r;
       EnhancedKeywordDatabase.ht_weight :=
         EnhancedKeywordDatabase.ht_weight r;
       EnhancedKeywordDatabase.ht_platform :=
         EnhancedKeywordDatabase.ht_platform r;
       EnhancedKeywordDatabase.ht_created_date :=
         EnhancedKeywordDatabase.ht_created_date r;
       EnhancedKeywordDatabase.ht_last_used := Some now;
       EnhancedKeywordDatabase.ht_usage_count :=
         EnhancedKeywordDatabase.ht_usage_count r + 1;
       EnhancedKeywordDatabase.ht_is_trending :=
         EnhancedKeywordDatabase.ht_is_trending r |}
  else r.

(** [UPDATE phrase_patterns SET detection_count = detection_count + 1
    WHERE pattern = ?] *)
Definition bump_pattern (p : string) (r : pattern_row) : pattern_row :=
  if String.eqb (pt_pattern r) p then
    {| pt_id := pt_id r; pt_pattern := pt_pattern r;
       pt_regex_pattern := pt_regex_pattern r; pt_category := pt_category r;
       pt_weight := pt_weight r; pt_description := pt_description r;
       pt_created_date := pt_created_date r;
       pt_detection_count := pt_detection_count r + 1 |}
  else r.

Record detection := {
  detected_keywords : list keyword_entry;
  detected_hashtags : list hashtag_entry;
  detected_patterns : list pattern_entry;
  total_score : Q;
  threat_level : string;
  categories : list string
}.

Section Detection.
Context `{Doubles} `{Regex}.

(** One turn of [for kw in keywords]; the state is the list appended to,
    the running score and the keywords table. *)
Definition keyword_turn (text_lower : string) (now : Z)
    (st : list keyword_entry * Q * list EnhancedKeywordDatabase.keyword_row)
    (kw : keyword_entry)
  : list keyword_entry * Q * list EnhancedKeywordDatabase.keyword_row :=
  let '(detected, total, table) := st in
  if Text.contains (ke_keyword kw) text_lower then
    (detected ++ [kw], double_add total (ke_weight kw),
     bump_keyword (ke_keyword kw) now <$> table)
  else st.

Definition hashtag_turn (text_lower : string) (now : Z)
    (st : list hashtag_entry * Q * list EnhancedKeywordDatabase.hashtag_row)
    (ht : hashtag_entry)
  : list hashtag_entry * Q * list EnhancedKeywordDatabase.hashtag_row :=
  let '(detected, total, table) := st in
  if Text.contains (he_hashtag ht) text_lower then
    (detected ++ [ht], double_add total (he_weight ht),
     bump_hashtag (he_hashtag ht) now <$> table)
  else st.

(** One turn of the pattern loop over the rows as first selected. *)
Definition pattern_turn (text_lower : string)
    (st : list pattern_entry * Q * list pattern_row) (row : pattern_row)
  : list pattern_entry * Q * list pattern_row :=
  let '(detected, total, table) := st in
  if re_search (pt_regex_pattern row) text_lower then
    (detected ++ [{| pe_pattern := pt_pattern row;
                     pe_category := pt_category row;
                     pe_weight := pt_weight row |}],
     double_add total (pt_weight row),
     bump_pattern (pt_pattern row) <$> table)
  else st.

Definition threat_level_of (total_score : Q) : string :=
  if Qle_bool 5 total_score then "HIGH"
  else if Qle_bool 3 total_score then "MEDIUM"
  else if Qle_bool 1 total_score then "LOW"
  else "NONE".

(** [detect_keywords_in_text]; [now] is the store's
    [CURRENT_TIMESTAMP]. *)
Definition detect_keywords_in_text (db : t) (text : string) (now : Z)
  : detection * t :=
  let text_lower := Text.lower text in
  let keywords := get_active_keywords db None 0 in
  let '(detected_keywords, total1, keywords_table) :=
    foldl (keyword_turn text_lower now)
          ([], 0%Q, EnhancedKeywordDatabase.keywords (rules db)) keywords in
  let hashtags := get_active_hashtags db None in
  let '(detected_hashtags, total2, hashtags_table) :=
    foldl (hashtag_turn text_lower now)
          ([], total1, EnhancedKeywordDatabase.hashtags (rules db))
          hashtags in
  let '(detected_patterns, total3, patterns_table) :=
    foldl (pattern_turn text_lower)
          ([], total2, phrase_patterns db) (phrase_patterns db) in
  ({| detected_keywords := detected_keywords;
      detected_hashtags := detected_hashtags;
      detected_patterns := detected_patterns;
      total_score := total3;
      threat_level := threat_level_of total3;
      categories :=
        elements (list_to_set
                    ((ke_category <$> detected_keywords)
                     ++ (he_category <$> detected_hashtags)
                     ++ (pe_category <$> detected_patterns))
                  : gset string) |},
   {| rules :=
        {| EnhancedKeywordDatabase.keywords := keywords_table;
           EnhancedKeywordDatabase.keywords_seq :=
             EnhancedKeywordDatabase.keywords_seq (rules db);
           EnhancedKeywordDatabase.hashtags := hashtags_table;
           EnhancedKeywordDatabase.hashtags_seq :=
             EnhancedKeywordDatabase.hashtags_seq (rules db) |};
      phrase_patterns := patterns_table;
      patterns_seq := patterns_seq db |}).

End Detection.

End EnhancedStore.

(** * Properties of the enhanced store's detection *)

Section SubstringCase.

Lemma prefix_no_upper (needle hay : string) :
  String.prefix needle hay = true -> has_upper hay = false ->
  has_upper needle = false.
Proof.
  revert hay. induction needle as [|a needle IH]; intros hay; [done|].
  destruct hay as [|b hay]; [done|]. cbn [String.prefix].
  destruct (Ascii.ascii_dec a b) as [->|]; [|done].
  unfold has_upper. cbn [String.list_ascii_of_string existsb].
  intros Hp [Hb Hhay]%orb_false_elim. rewrite Hb. cbn [orb].
  by apply (IH hay).
Qed.

Lemma contains_no_upper (needle hay : string) :
  Text.contains needle hay = true -> has_upper hay = false ->
  has_upper needle = false.
Proof.
  induction hay as [|b hay IH]; cbn [Text.contains].
  - rewrite orb_false_r. apply prefix_no_upper.
  - intros [Hp|Hc]%orb_prop Hup; [by apply (prefix_no_upper _ _ Hp)|].
    apply IH; [done|]. unfold has_upper in *.
    cbn [String.list_ascii_of_string existsb] in Hup.
    by apply orb_false_elim in Hup as [_ Hup].
Qed.

(** A text with an upper-case letter is in no lower-cased text. *)
Lemma upper_never_in_lowered (needle text : string) :
  has_upper needle = true -> Text.contains needle (Text.lower text) = false.
Proof.
  intros Hup. destruct (Text.contains needle (Text.lower text)) eqn:Hc; [|done].
  apply contains_no_upper in Hc; [congruence|apply lower_has_no_upper].
Qed.

End SubstringCase.

Section EnhancedDetection.
Context `{Doubles} `{Regex}.
Import EnhancedStore.

Lemma keyword_turns_detected text_lower now kws detected total table :
  (foldl (keyword_turn text_lower now) (detected, total, table) kws).1.1
  = detected
    ++ filter (fun kw => Text.contains (ke_keyword kw) text_lower = true) kws.
Proof.
  revert detected total table.
  induction kws as [|kw kws IH]; intros detected total table.
  - cbn. by rewrite app_nil_r.
  - cbn [foldl keyword_turn].
    destruct (Text.contains (ke_keyword kw) text_lower) eqn:Hc.
    + rewrite IH, filter_cons_True by done. by rewrite <- app_assoc.
    + rewrite IH, filter_cons_False by congruence. done.
Qed.

Lemma hashtag_turns_detected text_lower now hts detected total table :
  (foldl (hashtag_turn text_lower now) (detected, total, table) hts).1.1
  = detected
    ++ filter (fun ht => Text.contains (he_hashtag ht) text_lower = true) hts.
Proof.
  revert detected total table.
  induction hts as [|ht hts IH]; intros detected total table.
  - cbn. by rewrite app_nil_r.
  - cbn [foldl hashtag_turn].
    destruct (Text.contains (he_hashtag ht) text_lower) eqn:Hc.
    + rewrite IH, filter_cons_True by done. by rewrite <- app_assoc.
    + rewrite IH, filter_cons_False by congruence. done.
Qed.

Lemma detect_detected db text now :
  let d := (detect_keywords_in_text db text now).1 in
  detected_keywords d
  = filter (fun kw => Text.contains (ke_keyword kw) (Text.lower text) = true)
           (get_active_keywords db None 0)
  /\ detected_hashtags d
     = filter (fun ht => Text.contains (he_hashtag ht) (Text.lower text)
                         = true)
              (get_active_hashtags db None).
Proof.
  unfold detect_keywords_in_text.
  pose proof (keyword_turns_detected (Text.lower text) now
                (get_active_keywords db None 0) [] 0%Q
                (EnhancedKeywordDatabase.keywords (rules db))) as HK.
  destruct (foldl (keyword_turn (Text.lower text) now) _ _)
    as [[dk t1] kt].
  pose proof (hashtag_turns_detected (Text.lower text) now
                (get_active_hashtags db None) [] t1
                (EnhancedKeywordDatabase.hashtags (rules db))) as HH.
  destruct (foldl (hashtag_turn (Text.lower text) now) _ _)
    as [[dh t2] ht].
  destruct (foldl (pattern_turn (Text.lower text)) _ _) as [[dp t3] pt].
  cbn in *. by subst.
Qed.

Lemma active_keywords_texts db category min_weight kw :
  kw ∈ get_active_keywords db category min_weight ->
  ke_keyword kw
  ∈ EnhancedKeywordDatabase.kw_keyword
    <$> EnhancedKeywordDatabase.keywords (rules db).
Proof.
  unfold get_active_keywords. intros Hin.
  apply list_elem_of_fmap in Hin as (r & -> & Hr).
  rewrite sort_desc_perm_any in Hr.
  apply list_elem_of_filter in Hr as [_ Hr].
  apply list_elem_of_fmap. by exists r.
Qed.

Lemma active_hashtags_texts db platform ht :
  ht ∈ get_active_hashtags db platform ->
  he_hashtag ht
  ∈ EnhancedKeywordDatabase.ht_hashtag
    <$> EnhancedKeywordDatabase.hashtags (rules db).
Proof.
  unfold get_active_hashtags. intros Hin.
  apply list_elem_of_fmap in Hin as (r & -> & Hr).
  rewrite sort_desc_perm_any in Hr.
  apply list_elem_of_filter in Hr as [_ Hr].
  apply list_elem_of_fmap. by exists r.
Qed.


Lemma shipped_keyword_texts now0 :
  EnhancedKeywordDatabase.kw_keyword
  <$> EnhancedKeywordDatabase.keywords (rules (create now0))
  = (fun rule => rule.1.1) <$> default_keywords.
Proof. vm_compute. reflexivity. Qed.

Lemma shipped_hashtag_texts now0 :
  EnhancedKeywordDatabase.ht_hashtag
  <$> EnhancedKeywordDatabase.hashtags (rules (create now0))
  = (fun rule => rule.1.1.1) <$> default_hashtags.
Proof. vm_compute. reflexivity. Qed.

(** X22. In the store as shipped, every default hashtag and every
    English default keyword holds an upper-case letter, so whatever the
    text, no hashtag is detected and the only keywords that can be are
    the three Devanagari ones. *)
Theorem shipped_rules_never_fire now0 text now :
  let d := (detect_keywords_in_text (create now0) text now).1 in
  detected_hashtags d = []
  /\ forall kw, kw ∈ detected_keywords d ->
       ke_keyword kw ∈ ["कश्मीर"; "कश्मीर आज़ादी"; "कश्मीर स्वतंत्रता"].
Proof.
  destruct (detect_detected (create now0) text now) as [HK HH]. cbv zeta.
  rewrite HK, HH. split.
  - destruct (filter _ (get_active_hashtags (create now0) None))
      as [|ht l] eqn:Hf; [done|]. exfalso.
    assert (ht ∈ filter (fun ht => Text.contains (he_hashtag ht)
                                     (Text.lower text) = true)
                        (get_active_hashtags (create now0) None)) as Hin
      by (rewrite Hf; left).
    apply list_elem_of_filter in Hin as [Hc Hin].
    apply active_hashtags_texts in Hin. rewrite shipped_hashtag_texts in Hin.
    assert (forallb has_upper ((fun rule => rule.1.1.1) <$> default_hashtags)
            = true) as Hall by (vm_compute; reflexivity).
    rewrite forallb_forall in Hall. apply list_elem_of_In, Hall in Hin.
    by rewrite (upper_never_in_lowered _ _ Hin) in Hc.
  - intros kw [Hc Hin]%list_elem_of_filter.
    apply active_keywords_texts in Hin. rewrite shipped_keyword_texts in Hin.
    assert (has_upper (ke_keyword kw) = false) as Hlow
      by apply (contains_no_upper _ _ Hc), lower_has_no_upper.
    assert (forallb (fun k => has_upper k
                              || bool_decide
                                   (k ∈ ["कश्मीर"; "कश्मीर आज़ादी";
                                         "कश्मीर स्वतंत्रता"]))
                    ((fun rule => rule.1.1) <$> default_keywords)
            = true) as Hall by (vm_compute; reflexivity).
    rewrite forallb_forall in Hall. apply list_elem_of_In, Hall in Hin.
    rewrite Hlow in Hin. cbn [orb] in Hin. by apply bool_decide_eq_true in Hin.
Qed.

Lemma keyword_insert_nonempty now db rule :
  EnhancedKeywordDatabase.keywords
    (rules (insert_or_ignore_keyword now db rule)) ≠ [].
Proof.
  destruct rule as [[k c] w].
  unfold insert_or_ignore_keyword, EnhancedKeywordDatabase.insert_keyword.
  destruct (EnhancedKeywordDatabase.has_keyword (rules db) k) eqn:Hk.
  - unfold EnhancedKeywordDatabase.has_keyword in Hk.
    destruct (EnhancedKeywordDatabase.keywords (rules db)); done.
  - cbn. by destruct (EnhancedKeywordDatabase.keywords (rules db)).
Qed.

Lemma keyword_inserts_nonempty now rules0 db :
  EnhancedKeywordDatabase.keywords (rules db) ≠ [] ->
  EnhancedKeywordDatabase.keywords
    (rules (foldl (insert_or_ignore_keyword now) db rules0)) ≠ [].
Proof.
  revert db. induction rules0 as [|rule rules0 IH]; intros db Hne; [done|].
  cbn [foldl]. apply IH, keyword_insert_nonempty.
Qed.

Lemma hashtag_inserts_keywords now rules0 db :
  EnhancedKeywordDatabase.keywords
    (rules (foldl (insert_or_ignore_hashtag now) db rules0))
  = EnhancedKeywordDatabase.keywords (rules db).
Proof.
  revert db. induction rules0 as [|[[[h c] w] p] rules0 IH]; intros db;
    [done|].
  cbn [foldl]. rewrite IH.
  unfold insert_or_ignore_hashtag, EnhancedKeywordDatabase.insert_hashtag.
  by destruct (EnhancedKeywordDatabase.has_hashtag (rules db) h).
Qed.

Lemma pattern_inserts_keywords now rules0 db :
  rules (foldl (insert_or_ignore_pattern now) db rules0) = rules db.
Proof.
  revert db. induction rules0 as [|[[[p r] c] w] rules0 IH]; intros db;
    [done|].
  cbn [foldl]. by rewrite IH.
Qed.

Lemma keyword_inserts_first now rules0 db :
  rules0 ≠ [] ->
  EnhancedKeywordDatabase.keywords
    (rules (foldl (insert_or_ignore_keyword now) db rules0)) ≠ [].
Proof.
  destruct rules0 as [|rule rules0]; [done|]. intros _. cbn [foldl].
  apply keyword_inserts_nonempty, keyword_insert_nonempty.
Qed.

Lemma load_default_keywords_keeps db now :
  EnhancedKeywordDatabase.keywords (rules db) ≠ [] ->
  load_default_keywords db now = db.
Proof.
  intros Hne. unfold load_default_keywords.
  destruct (EnhancedKeywordDatabase.keywords (rules db)); done.
Qed.

Lemma load_default_keywords_nonempty db now :
  EnhancedKeywordDatabase.keywords (rules (load_default_keywords db now))
  ≠ [].
Proof.
  destruct (EnhancedKeywordDatabase.keywords (rules db)) as [|r l] eqn:Hk.
  - unfold load_default_keywords. rewrite Hk. cbn [length Nat.ltb Nat.leb].
    rewrite pattern_inserts_keywords, hashtag_inserts_keywords.
    apply keyword_inserts_first. unfold default_keywords. discriminate.
  - rewrite load_default_keywords_keeps; rewrite Hk; discriminate.
Qed.

(** X23. Loading the defaults twice is loading them once: the second
    call finds a keyword row and returns at once.  The same early return
    keeps the defaults, hashtags and patterns included, out of any store
    that already holds a keyword. *)
Theorem load_default_keywords_once db now0 now1 :
  load_default_keywords (load_default_keywords db now0) now1
  = load_default_keywords db now0
  /\ (EnhancedKeywordDatabase.keywords (rules db) ≠ [] ->
      load_default_keywords db now0 = db).
Proof.
  split.
  - apply load_default_keywords_keeps, load_default_keywords_nonempty.
  - apply load_default_keywords_keeps.
Qed.

End EnhancedDetection.

Section EnhancedCounters.
Context `{Doubles} `{Regex}.
Import EnhancedStore.

(** The row after one [UPDATE] that selects it. *)
Definition keyword_counted (now : Z)
    (r : EnhancedKeywordDatabase.keyword_row)
  : EnhancedKeywordDatabase.keyword_row :=
  bump_keyword (EnhancedKeywordDatabase.kw_keyword r) now r.

Definition hashtag_counted (now : Z)
    (r : EnhancedKeywordDatabase.hashtag_row)
  : EnhancedKeywordDatabase.hashtag_row :=
  bump_hashtag (EnhancedKeywordDatabase.ht_hashtag r) now r.

Lemma bump_keyword_text k now r :
  EnhancedKeywordDatabase.kw_keyword (bump_keyword k now r)
  = EnhancedKeywordDatabase.kw_keyword r.
Proof. unfold bump_keyword. by destruct (String.eqb _ _). Qed.

Lemma bump_hashtag_text k now r :
  EnhancedKeywordDatabase.ht_hashtag (bump_hashtag k now r)
  = EnhancedKeywordDatabase.ht_hashtag r.
Proof. unfold bump_hashtag. by destruct (String.eqb _ _). Qed.

Lemma keyword_counted_text now r :
  EnhancedKeywordDatabase.kw_keyword (keyword_counted now r)
  = EnhancedKeywordDatabase.kw_keyword r.
Proof. apply bump_keyword_text. Qed.

Lemma hashtag_counted_text now r :
  EnhancedKeywordDatabase.ht_hashtag (hashtag_counted now r)
  = EnhancedKeywordDatabase.ht_hashtag r.
Proof. apply bump_hashtag_text. Qed.

Lemma bump_keyword_cases k now r :
  bump_keyword k now r
  = if decide (EnhancedKeywordDatabase.kw_keyword r = k)
    then keyword_counted now r else r.
Proof.
  unfold keyword_counted, bump_keyword.
  destruct (String.eqb_spec (EnhancedKeywordDatabase.kw_keyword r) k)
    as [->|Hne].
  - by rewrite decide_True, String.eqb_refl.
  - by rewrite decide_False.
Qed.

Lemma bump_hashtag_cases k now r :
  bump_hashtag k now r
  = if decide (EnhancedKeywordDatabase.ht_hashtag r = k)
    then hashtag_counted now r else r.
Proof.
  unfold hashtag_counted, bump_hashtag.
  destruct (String.eqb_spec (EnhancedKeywordDatabase.ht_hashtag r) k)
    as [->|Hne].
  - by rewrite decide_True, String.eqb_refl.
  - by rewrite decide_False.
Qed.

(** With unique texts, the keyword loop counts a row once if one of the
    entries it walks is detected under the row's text. *)
Lemma keyword_turns_table text_lower now kws detected total table :
  NoDup (ke_keyword <$> kws) ->
  (foldl (keyword_turn text_lower now) (detected, total, table) kws).2
  = (fun r =>
       if decide (EnhancedKeywordDatabase.kw_keyword r ∈ ke_keyword <$> kws
                  /\ Text.contains (EnhancedKeywordDatabase.kw_keyword r)
                                   text_lower = true)
       then keyword_counted now r else r) <$> table.
Proof.
  revert detected total table.
  induction kws as [|kw kws IH]; intros detected total table Hnd.
  - cbn [foldl snd]. rewrite <- (list_fmap_id table) at 1.
    apply list_fmap_ext. intros _ r _. rewrite decide_False; [done|].
    intros [?%elem_of_nil _]. done.
  - rewrite fmap_cons in Hnd. apply NoDup_cons in Hnd as [Hfresh Hnd].
    cbn [foldl keyword_turn].
    destruct (Text.contains (ke_keyword kw) text_lower) eqn:Hc.
    + rewrite IH by done. rewrite <- list_fmap_compose.
      apply list_fmap_ext. intros _ r _. cbn [compose].
      rewrite bump_keyword_cases.
      destruct (decide (EnhancedKeywordDatabase.kw_keyword r = ke_keyword kw))
        as [Heq|Hne].
      * rewrite decide_False
          by (rewrite keyword_counted_text, Heq; intros [? _]; done).
        rewrite decide_True; [done|]. split; [rewrite Heq; left|].
        by rewrite Heq.
      * destruct (decide (EnhancedKeywordDatabase.kw_keyword r
                          ∈ ke_keyword <$> kws /\ _)) as [[Hin Hr]|Hno].
        -- rewrite decide_True; [done|]. split; [by right|done].
        -- rewrite decide_False; [done|].
           intros [[?|?]%elem_of_cons ?]; [done|]. by apply Hno.
    + rewrite IH by done. apply list_fmap_ext. intros _ r _.
      destruct (decide (EnhancedKeywordDatabase.kw_keyword r
                        ∈ ke_keyword <$> kws /\ _)) as [[Hin Hr]|Hno].
      * rewrite decide_True; [done|]. split; [by right|done].
      * rewrite decide_False; [done|].
        intros [[Heq|?]%elem_of_cons Hr]; [|by apply Hno].
        rewrite Heq in Hr. congruence.
Qed.

Lemma hashtag_turns_table text_lower now hts detected total table :
  NoDup (he_hashtag <$> hts) ->
  (foldl (hashtag_turn text_lower now) (detected, total, table) hts).2
  = (fun r =>
       if decide (EnhancedKeywordDatabase.ht_hashtag r ∈ he_hashtag <$> hts
                  /\ Text.contains (EnhancedKeywordDatabase.ht_hashtag r)
                                   text_lower = true)
       then hashtag_counted now r else r) <$> table.
Proof.
  revert detected total table.
  induction hts as [|ht hts IH]; intros detected total table Hnd.
  - cbn [foldl snd]. rewrite <- (list_fmap_id table) at 1.
    apply list_fmap_ext. intros _ r _. rewrite decide_False; [done|].
    intros [?%elem_of_nil _]. done.
  - rewrite fmap_cons in Hnd. apply NoDup_cons in Hnd as [Hfresh Hnd].
    cbn [foldl hashtag_turn].
    destruct (Text.contains (he_hashtag ht) text_lower) eqn:Hc.
    + rewrite IH by done. rewrite <- list_fmap_compose.
      apply list_fmap_ext. intros _ r _. cbn [compose].
      rewrite bump_hashtag_cases.
      destruct (decide (EnhancedKeywordDatabase.ht_hashtag r = he_hashtag ht))
        as [Heq|Hne].
      * rewrite decide_False
          by (rewrite hashtag_counted_text, Heq; intros [? _]; done).
        rewrite decide_True; [done|]. split; [rewrite Heq; left|].
        by rewrite Heq.
      * destruct (decide (EnhancedKeywordDatabase.ht_hashtag r
                          ∈ he_hashtag <$> hts /\ _)) as [[Hin Hr]|Hno].
        -- rewrite decide_True; [done|]. split; [by right|done].
        -- rewrite decide_False; [done|].
           intros [[?|?]%elem_of_cons ?]; [done|]. by apply Hno.
    + rewrite IH by done. apply list_fmap_ext. intros _ r _.
      destruct (decide (EnhancedKeywordDatabase.ht_hashtag r
                        ∈ he_hashtag <$> hts /\ _)) as [[Hin Hr]|Hno].
      * rewrite decide_True; [done|]. split; [by right|done].
      * rewrite decide_False; [done|].
        intros [[Heq|?]%elem_of_cons Hr]; [|by apply Hno].
        rewrite Heq in Hr. congruence.
Qed.

Lemma active_keywords_keys db :
  ke_keyword <$> get_active_keywords db None 0
  ≡ₚ EnhancedKeywordDatabase.kw_keyword
     <$> filter (fun r => EnhancedKeywordDatabase.kw_is_active r
                          && Qle_bool 0 (EnhancedKeywordDatabase.kw_weight r)
                          = true)
                (EnhancedKeywordDatabase.keywords (rules db)).
Proof.
  unfold get_active_keywords. rewrite <- list_fmap_compose.
  cbn [truthy]. rewrite sort_desc_perm_any.
  apply Permutation_refl'. f_equal.
  apply list_filter_iff. intros r. by rewrite andb_true_r.
Qed.

Lemma active_hashtags_keys db :
  he_hashtag <$> get_active_hashtags db None
  ≡ₚ EnhancedKeywordDatabase.ht_hashtag
     <$> EnhancedKeywordDatabase.hashtags (rules db).
Proof.
  unfold get_active_hashtags. rewrite <- list_fmap_compose.
  cbn [truthy]. rewrite sort_desc_perm_any.
  apply Permutation_refl'. f_equal.
  induction (EnhancedKeywordDatabase.hashtags (rules db)) as [|r l IH];
    [done|]. rewrite filter_cons_True by done. by rewrite IH.
Qed.

Lemma NoDup_fmap_filter {A B} (f : A -> B) (P : A -> Prop)
    `{forall x, Decision (P x)} (l : list A) :
  NoDup (f <$> l) -> NoDup (f <$> filter P l).
Proof.
  intros Hnd. apply (sublist_NoDup _ _ Hnd), fmap_sublist, sublist_filter.
Qed.

(** X24. In a store whose keyword and hashtag texts are unique, as the
    tables' UNIQUE columns keep them, one detection counts each row at
    most once: an active keyword of weight at least 0 whose text occurs
    in the lower-cased text gains one detection and the time of the
    call, as does any hashtag whose text occurs; every other row and the
    three row counters stay as they were. *)
Theorem detected_rows_counted_once db text now :
  NoDup (EnhancedKeywordDatabase.kw_keyword
         <$> EnhancedKeywordDatabase.keywords (rules db)) ->
  NoDup (EnhancedKeywordDatabase.ht_hashtag
         <$> EnhancedKeywordDatabase.hashtags (rules db)) ->
  let db' := (detect_keywords_in_text db text now).2 in
  let text_lower := Text.lower text in
  EnhancedKeywordDatabase.keywords (rules db')
  = (fun r =>
       if EnhancedKeywordDatabase.kw_is_active r
          && Qle_bool 0 (EnhancedKeywordDatabase.kw_weight r)
          && Text.contains (EnhancedKeywordDatabase.kw_keyword r) text_lower
       then keyword_counted now r else r)
    <$> EnhancedKeywordDatabase.keywords (rules db)
  /\ EnhancedKeywordDatabase.hashtags (rules db')
     = (fun r =>
          if Text.contains (EnhancedKeywordDatabase.ht_hashtag r) text_lower
          then hashtag_counted now r else r)
       <$> EnhancedKeywordDatabase.hashtags (rules db)
  /\ EnhancedKeywordDatabase.keywords_seq (rules db')
     = EnhancedKeywordDatabase.keywords_seq (rules db)
  /\ EnhancedKeywordDatabase.hashtags_seq (rules db')
     = EnhancedKeywordDatabase.hashtags_seq (rules db)
  /\ patterns_seq db' = patterns_seq db.
Proof.
  intros Hkw Hht. cbv zeta. unfold detect_keywords_in_text.
  pose proof (keyword_turns_table (Text.lower text) now
                (get_active_keywords db None 0) [] 0%Q
                (EnhancedKeywordDatabase.keywords (rules db))) as HK.
  destruct (foldl (keyword_turn (Text.lower text) now) _ _)
    as [[dk t1] kt].
  pose proof (hashtag_turns_table (Text.lower text) now
                (get_active_hashtags db None) [] t1
                (EnhancedKeywordDatabase.hashtags (rules db))) as HH.
  destruct (foldl (hashtag_turn (Text.lower text) now) _ _)
    as [[dh t2] ht].
  destruct (foldl (pattern_turn (Text.lower text)) _ _) as [[dp t3] pt].
  cbn [snd rules EnhancedKeywordDatabase.keywords
       EnhancedKeywordDatabase.hashtags EnhancedKeywordDatabase.keywords_seq
       EnhancedKeywordDatabase.hashtags_seq patterns_seq] in *.
  split; [|split; [|done]].
  - rewrite HK by (rewrite active_keywords_keys; by apply NoDup_fmap_filter).
    apply list_fmap_ext. intros i r Hr.
    apply list_elem_of_lookup_2 in Hr.
    destruct (Text.contains (EnhancedKeywordDatabase.kw_keyword r)
                            (Text.lower text)) eqn:Hc.
    + rewrite andb_true_r.
      destruct (EnhancedKeywordDatabase.kw_is_active r
                && Qle_bool 0 (EnhancedKeywordDatabase.kw_weight r)) eqn:Ha.
      * rewrite decide_True; [done|]. split; [|done].
        rewrite active_keywords_keys. apply list_elem_of_fmap.
        exists r. split; [done|]. by apply list_elem_of_filter.
      * rewrite decide_False; [done|]. intros [Hin _].
        rewrite active_keywords_keys in Hin.
        apply list_elem_of_fmap in Hin as (r' & Heq & Hr').
        apply list_elem_of_filter in Hr' as [Ha' Hr'].
        assert (r' = r) as ->; [|congruence].
        apply list_elem_of_lookup in Hr as [i1 Hi1].
        apply list_elem_of_lookup in Hr' as [i2 Hi2].
        assert (i2 = i1) as ->; [|congruence].
        apply (NoDup_lookup _ i2 i1 (EnhancedKeywordDatabase.kw_keyword r)
                 Hkw); rewrite list_lookup_fmap.
        -- by rewrite Hi2, Heq.
        -- by rewrite Hi1.
    + rewrite andb_false_r. rewrite decide_False; [done|].
      intros [_ ?]. congruence.
  - rewrite HH by (by rewrite active_hashtags_keys).
    apply list_fmap_ext. intros i r Hr. apply list_elem_of_lookup_2 in Hr.
    destruct (Text.contains (EnhancedKeywordDatabase.ht_hashtag r)
                            (Text.lower text)) eqn:Hc.
    + rewrite decide_True; [done|]. split; [|done].
      rewrite active_hashtags_keys. apply list_elem_of_fmap. by exists r.
    + rewrite decide_False; [done|]. intros [_ ?]. congruence.
Qed.

End EnhancedCounters.

(** Stand-ins used to run the enhanced store on examples: decimal
    arithmetic for the doubles, and a matcher for which a pattern matches
    where its text occurs literally. *)
Definition decimal_doubles : Doubles :=
  {| double_of q := q; double_add := Qplus |}.

Definition literal_regex : Regex :=
  {| re_search pattern text :=
       Text.contains (Text.lower pattern) (Text.lower text) |}.

Definition shipped_store : EnhancedStore.t :=
  @EnhancedStore.create decimal_doubles 0.

Lemma detected_rows_counted_once_witness :
  NoDup (EnhancedKeywordDatabase.kw_keyword
         <$> EnhancedKeywordDatabase.keywords
               (EnhancedStore.rules shipped_store))
  /\ NoDup (EnhancedKeywordDatabase.ht_hashtag
            <$> EnhancedKeywordDatabase.hashtags
                  (EnhancedStore.rules shipped_store))
  /\ let db' :=
       (@EnhancedStore.detect_keywords_in_text decimal_doubles literal_regex
          shipped_store "कश्मीर" 5).2 in
     EnhancedKeywordDatabase.hashtags (EnhancedStore.rules db')
     = (fun r =>
          if Text.contains (EnhancedKeywordDatabase.ht_hashtag r)
                           (Text.lower "कश्मीर")
          then hashtag_counted 5 r else r)
       <$> EnhancedKeywordDatabase.hashtags
             (EnhancedStore.rules shipped_store).
Proof.
  assert (NoDup (EnhancedKeywordDatabase.kw_keyword
                 <$> EnhancedKeywordDatabase.keywords
                       (EnhancedStore.rules shipped_store))) as Hkw
    by (refine (bool_decide_unpack _ _); vm_compute; exact I).
  assert (NoDup (EnhancedKeywordDatabase.ht_hashtag
                 <$> EnhancedKeywordDatabase.hashtags
                       (EnhancedStore.rules shipped_store))) as Hht
    by (refine (bool_decide_unpack _ _); vm_compute; exact I).
  split; [exact Hkw|]. split; [exact Hht|].
  exact (proj1 (proj2 (@detected_rows_counted_once decimal_doubles
                         literal_regex shipped_store "कश्मीर" 5 Hkw Hht))).
Defined.

(** * The scorer's snapshot of the rule store *)

Section Snapshot.
Context `{Collaborators}.
Import NLPProcessor.







End Snapshot.

Section EnhancedQuiet.
Context `{Doubles} `{Regex}.
Import EnhancedStore.

Lemma keyword_turns_idle text_lower now kws st :
  filter (fun kw => Text.contains (ke_keyword kw) text_lower = true) kws = [] ->
  foldl (keyword_turn text_lower now) st kws = st.
Proof.
  revert st. induction kws as [|kw kws IH]; intros [[detected total] table];
    [done|].
  destruct (Text.contains (ke_keyword kw) text_lower) eqn:Hc.
  - by rewrite filter_cons_True.
  - rewrite filter_cons_False by congruence. intros Hf.
    cbn [foldl keyword_turn]. rewrite Hc. by apply IH.
Qed.

Lemma hashtag_turns_idle text_lower now hts st :
  filter (fun ht => Text.contains (he_hashtag ht) text_lower = true) hts = [] ->
  foldl (hashtag_turn text_lower now) st hts = st.
Proof.
  revert st. induction hts as [|ht hts IH]; intros [[detected total] table];
    [done|].
  destruct (Text.contains (he_hashtag ht) text_lower) eqn:Hc.
  - by rewrite filter_cons_True.
  - rewrite filter_cons_False by congruence. intros Hf.
    cbn [foldl hashtag_turn]. rewrite Hc. by apply IH.
Qed.

Lemma pattern_turns_detected text_lower rows detected total table :
  (foldl (pattern_turn text_lower) (detected, total, table) rows).1.1
  = detected
    ++ ((fun row => {| pe_pattern := pt_pattern row;
                       pe_category := pt_category row;
                       pe_weight := pt_weight row |})
        <$> filter (fun row => re_search (pt_regex_pattern row) text_lower
                               = true) rows).
Proof.
  revert detected total table.
  induction rows as [|row rows IH]; intros detected total table.
  - cbn. by rewrite app_nil_r.
  - cbn [foldl pattern_turn].
    destruct (re_search (pt_regex_pattern row) text_lower) eqn:Hc.
    + rewrite IH, filter_cons_True by done.
      rewrite fmap_cons. by rewrite <- app_assoc.
    + rewrite IH, filter_cons_False by congruence. done.
Qed.

Lemma pattern_turns_idle text_lower rows st :
  filter (fun row => re_search (pt_regex_pattern row) text_lower = true) rows
  = [] ->
  foldl (pattern_turn text_lower) st rows = st.
Proof.
  revert st. induction rows as [|row rows IH]; intros [[detected total] table];
    [done|].
  destruct (re_search (pt_regex_pattern row) text_lower) eqn:Hc.
  - by rewrite filter_cons_True.
  - rewrite filter_cons_False by congruence. intros Hf.
    cbn [foldl pattern_turn]. rewrite Hc. by apply IH.
Qed.

(** X26. The enhanced detector grades a text NONE, LOW, MEDIUM or HIGH,
    never CRITICAL.  A text in which no keyword, hashtag or pattern is
    detected scores exactly 0, is graded NONE, has no categories, and
    leaves the store as it was. *)
Theorem nothing_detected_is_none db text now :
  let out := detect_keywords_in_text db text now in
  threat_level out.1 ∈ ["NONE"; "LOW"; "MEDIUM"; "HIGH"]
  /\ (detected_keywords out.1 = [] -> detected_hashtags out.1 = [] ->
      detected_patterns out.1 = [] ->
      total_score out.1 = 0%Q /\ threat_level out.1 = "NONE"
      /\ categories out.1 = [] /\ out.2 = db).
Proof.
  cbv zeta. unfold detect_keywords_in_text.
  pose proof (keyword_turns_detected (Text.lower text) now
                (get_active_keywords db None 0) [] 0%Q
                (EnhancedKeywordDatabase.keywords (rules db))) as HK.
  pose proof (keyword_turns_idle (Text.lower text) now
                (get_active_keywords db None 0)
                ([], 0%Q, EnhancedKeywordDatabase.keywords (rules db)))
    as HKi.
  destruct (foldl (keyword_turn (Text.lower text) now) _ _)
    as [[dk t1] kt].
  pose proof (hashtag_turns_detected (Text.lower text) now
                (get_active_hashtags db None) [] t1
                (EnhancedKeywordDatabase.hashtags (rules db))) as HH.
  pose proof (hashtag_turns_idle (Text.lower text) now
                (get_active_hashtags db None)
                ([], t1, EnhancedKeywordDatabase.hashtags (rules db)))
    as HHi.
  destruct (foldl (hashtag_turn (Text.lower text) now) _ _)
    as [[dh t2] ht].
  pose proof (pattern_turns_detected (Text.lower text) (phrase_patterns db)
                [] t2 (phrase_patterns db)) as HP.
  pose proof (pattern_turns_idle (Text.lower text) (phrase_patterns db)
                ([], t2, phrase_patterns db)) as HPi.
  destruct (foldl (pattern_turn (Text.lower text)) _ _) as [[dp t3] pt].
  cbn [fst snd detected_keywords detected_hashtags detected_patterns
       total_score threat_level categories] in *.
  split.
  - unfold threat_level_of.
    destruct (Qle_bool 5 t3); [by do 3 right; left|].
    destruct (Qle_bool 3 t3); [by do 2 right; left|].
    destruct (Qle_bool 1 t3); [by right; left|by left].
  - intros -> -> ->. symmetry in HK, HH, HP.
    apply fmap_nil_inv in HP.
    specialize (HKi HK). injection HKi as -> ->.
    specialize (HHi HH). injection HHi as -> ->.
    specialize (HPi HP). injection HPi as -> ->.
    split; [done|]. split; [done|]. split; [done|].
    destruct db as [[ks kseq hs hseq] ps pseq]. done.
Qed.

End EnhancedQuiet.

Section AddThenDetect.
Context `{Doubles} `{Regex}.
Import EnhancedStore.






End AddThenDetect.


Section SortByOrder.
Context {A : Type} (lt : A -> A -> bool).
Hypothesis lt_asym : forall a b, lt a b = true -> lt b a = false.
Hypothesis lt_neg_trans :
  forall a b c, lt a b = false -> lt b c = false -> lt a c = false.

(** No entry stands before one that sorts above it. *)
Definition ordered (l : list A) : Prop :=
  forall a b, [a; b] `sublist_of` l -> lt a b = false.

Lemma insert_desc_ordered (x : A) (l : list A) :
  ordered l -> ordered (insert_desc lt x l).
Proof.
  induction l as [|y l IH]; intros Hord a b Hab.
  - cbn in Hab. apply sublist_pair_cons in Hab as [Hab|[_ Hb]].
    + by apply sublist_nil_r in Hab.
    + by apply elem_of_nil in Hb.
  - assert (ordered l) as Hl.
    { intros a' b' Hab'. apply Hord, sublist_pair_cons. by left. }
    assert (forall z, z ∈ l -> lt y z = false) as Hy.
    { intros z Hz. apply Hord, sublist_pair_cons. by right. }
    cbn [insert_desc] in Hab. destruct (lt x y) eqn:Hxy.
    + apply sublist_pair_cons in Hab as [Hab|[-> Hb]]; [by apply IH|].
      rewrite insert_desc_perm_any in Hb.
      apply elem_of_cons in Hb as [->|Hb]; [by apply lt_asym|by apply Hy].
    + apply sublist_pair_cons in Hab as [Hab|[-> Hb]]; [by apply Hord|].
      apply elem_of_cons in Hb as [->|Hb]; [done|].
      apply (lt_neg_trans _ y); [done|by apply Hy].
Qed.

Lemma sort_desc_ordered (l : list A) : ordered (sort_desc lt l).
Proof.
  induction l as [|x l IH].
  - intros a b Hab. by apply sublist_nil_r in Hab.
  - change (ordered (insert_desc lt x (sort_desc lt l))).
    by apply insert_desc_ordered.
Qed.

End SortByOrder.

Section EnhancedListing.
Import EnhancedStore.

Lemma below_false (wa : Q) (ca : Z) (wb : Q) (cb : Z) :
  below wa ca wb cb = false
  <-> (wb <= wa)%Q /\ ((wa == wb)%Q -> cb <= ca).
Proof.
  unfold below. rewrite orb_false_iff, andb_false_iff. split.
  - intros [Hlt Heq]. unfold Qltb in Hlt. apply negb_false_iff in Hlt.
    apply Qle_bool_iff in Hlt. split; [done|]. intros Hw.
    destruct Heq as [Heq|Heq].
    + apply Qeq_bool_iff in Hw. congruence.
    + by apply Z.ltb_ge in Heq.
  - intros [Hle Hc]. split.
    + unfold Qltb. apply negb_false_iff. by apply Qle_bool_iff.
    + destruct (Qeq_bool wa wb) eqn:Heq; [|by left]. right.
      apply Z.ltb_ge, Hc. by apply Qeq_bool_iff.
Qed.

Lemma below_asym wa ca wb cb :
  below wa ca wb cb = true -> below wb cb wa ca = false.
Proof.
  intros Hb. apply below_false. unfold below in Hb.
  apply orb_prop in Hb as [Hlt|Heq].
  - apply Qltb_lt in Hlt. split; [by apply Qlt_le_weak|].
    intros Hw. rewrite Hw in Hlt. by apply Qlt_irrefl in Hlt.
  - apply andb_prop in Heq as [Hw Hc]. apply Qeq_bool_iff in Hw.
    apply Z.ltb_lt in Hc. split; [rewrite Hw; apply Qle_refl|]. lia.
Qed.

Lemma below_neg_trans wa ca wb cb wc cc :
  below wa ca wb cb = false -> below wb cb wc cc = false ->
  below wa ca wc cc = false.
Proof.
  rewrite !below_false. intros [H1 H1'] [H2 H2']. split.
  - by eapply Qle_trans.
  - intros Hac.
    assert (wa == wb)%Q as Hab.
    { apply Qle_antisym; [|done]. by rewrite Hac. }
    assert (wb == wc)%Q as Hbc by by rewrite <- Hab.
    specialize (H1' Hab). specialize (H2' Hbc). lia.
Qed.

(** X28. [get_active_keywords] returns exactly the active rows of weight
    at least [min_weight], restricted to the category when one is given;
    an empty category string filters nothing, like no category at all.
    The entries come back by descending weight and, at equal weight, by
    descending detection count. *)
Theorem active_keywords_listing db category min_weight :
  let out := get_active_keywords db category min_weight in
  (forall e, e ∈ out <->
     exists r, r ∈ EnhancedKeywordDatabase.keywords (rules db)
       /\ e = {| ke_keyword := EnhancedKeywordDatabase.kw_keyword r;
                 ke_category := EnhancedKeywordDatabase.kw_category r;
                 ke_weight := EnhancedKeywordDatabase.kw_weight r;
                 ke_detection_count :=
                   EnhancedKeywordDatabase.kw_detection_count r |}
       /\ EnhancedKeywordDatabase.kw_is_active r = true
       /\ (min_weight <= EnhancedKeywordDatabase.kw_weight r)%Q
       /\ (forall c, category = Some c -> c ≠ "" ->
                     EnhancedKeywordDatabase.kw_category r = c))
  /\ (forall i j a b, (i < j)%nat -> out !! i = Some a -> out !! j = Some b ->
        (ke_weight b <= ke_weight a)%Q
        /\ ((ke_weight a == ke_weight b)%Q ->
            ke_detection_count b <= ke_detection_count a))
  /\ get_active_keywords db (Some "") min_weight
     = get_active_keywords db None min_weight.
Proof.
  intros out. split; [|split; [|done]].
  - intros e. unfold out, get_active_keywords.
    rewrite list_elem_of_fmap. split.
    + intros (r & -> & Hr). rewrite sort_desc_perm_any in Hr.
      apply list_elem_of_filter in Hr as [Hsel Hr].
      apply andb_prop in Hsel as [Hsel Hcat].
      apply andb_prop in Hsel as [Hact Hw].
      exists r. split; [done|]. split; [done|]. split; [done|].
      split; [by apply Qle_bool_iff|].
      intros c -> Hc. destruct c as [|ch c]; [done|].
      cbn [truthy] in Hcat. by apply String.eqb_eq in Hcat.
    + intros (r & Hr & -> & Hact & Hw & Hcat).
      exists r. split; [done|]. rewrite sort_desc_perm_any.
      apply list_elem_of_filter. split; [|done].
      rewrite Hact. apply Qle_bool_iff in Hw. rewrite Hw. cbn [andb].
      destruct category as [[|ch c]|]; cbn [truthy]; [done| |done].
      apply String.eqb_eq. by apply Hcat.
  - intros i j a b Hij Hi Hj. unfold out, get_active_keywords in Hi, Hj.
    rewrite list_lookup_fmap in Hi, Hj.
    destruct (sort_desc _ _ !! i) as [ra|] eqn:Hra; [|done].
    destruct (sort_desc _ _ !! j) as [rb|] eqn:Hrb; [|done].
    cbn in Hi, Hj. injection Hi as <-. injection Hj as <-.
    cbn [ke_weight ke_detection_count]. apply below_false.
    eapply (sort_desc_ordered
              (fun a b =>
                 below (EnhancedKeywordDatabase.kw_weight a)
                       (EnhancedKeywordDatabase.kw_detection_count a)
                       (EnhancedKeywordDatabase.kw_weight b)
                       (EnhancedKeywordDatabase.kw_detection_count b))).
    + intros x y. apply below_asym.
    + intros x y z. apply below_neg_trans.
    + by apply (lookup_pair_sublist _ i j).
Qed.

End EnhancedListing.

Section ReopenedScores.
Context `{Collaborators}.
Import NLPProcessor.

Lemma Qsum_perm (l1 l2 : list Q) : l1 ≡ₚ l2 -> (Qsum l1 == Qsum l2)%Q.
Proof.
  induction 1 as [|x l1 l2 _ IH|x y l|l1 l2 l3 _ IH1 _ IH2]; cbn [Qsum foldr].
  - reflexivity.
  - fold (Qsum l1) (Qsum l2). by rewrite IH.
  - fold (Qsum l). ring.
  - by rewrite IH1.
Qed.

Lemma appended_patterns_rules seq now rules :
  (fun r => (KeywordDatabase.pt_pattern r, KeywordDatabase.pt_description r,
             KeywordDatabase.pt_severity r))
  <$> appended_patterns seq now rules
  = rules.
Proof.
  unfold appended_patterns. revert seq.
  induction rules as [|[[p d] s] rules IH]; intros seq; [done|].
  rewrite imap_cons, fmap_cons. cbn [KeywordDatabase.new_pattern
    KeywordDatabase.pt_pattern KeywordDatabase.pt_description
    KeywordDatabase.pt_severity fst snd]. f_equal.
  rewrite <- (IH (seq + 1)) at 2. f_equal.
  apply imap_ext. intros i rule _. cbn [compose]. f_equal. lia.
Qed.

Lemma more_patterns_more_score db1 db2 extra content now :
  KeywordDatabase.keywords db2 = KeywordDatabase.keywords db1 ->
  KeywordDatabase.hashtags db2 = KeywordDatabase.hashtags db1 ->
  (fun r => (KeywordDatabase.pt_pattern r, KeywordDatabase.pt_description r,
             KeywordDatabase.pt_severity r))
  <$> KeywordDatabase.phrase_patterns db2
  = ((fun r => (KeywordDatabase.pt_pattern r, KeywordDatabase.pt_description r,
                KeywordDatabase.pt_severity r))
     <$> KeywordDatabase.phrase_patterns db1) ++ extra ->
  let f1 := (extract_features (load_nlp_resources db1) db1 content now).1 in
  let f2 := (extract_features (load_nlp_resources db2) db2 content now).1 in
  let again := omap (pattern_match content) extra in
  matched_keywords f2 = matched_keywords f1
  /\ matched_hashtags f2 = matched_hashtags f1
  /\ matched_patterns f2 ≡ₚ matched_patterns f1 ++ again
  /\ (total_severity f2 == total_severity f1 + Qsum (snd <$> again))%Q.
Proof.
  intros Hkw Hht Hpat f1 f2 again.
  destruct (extract_features_spec (load_nlp_resources db1) db1 content now)
    as (Hk1 & Hh1 & Hp1 & Ht1 & _).
  destruct (extract_features_spec (load_nlp_resources db2) db2 content now)
    as (Hk2 & Hh2 & Hp2 & Ht2 & _).
  fold f1 in Hk1, Hh1, Hp1, Ht1. fold f2 in Hk2, Hh2, Hp2, Ht2.
  assert (keywords (load_nlp_resources db2)
          = keywords (load_nlp_resources db1)) as Hkeys.
  { cbn [load_nlp_resources keywords].
    unfold KeywordDatabase.get_active_keywords. by rewrite Hkw. }
  assert (hashtags (load_nlp_resources db2)
          = hashtags (load_nlp_resources db1)) as Htags.
  { cbn [load_nlp_resources hashtags].
    unfold KeywordDatabase.get_hashtags. by rewrite Hht. }
  assert (compiled_patterns (load_nlp_resources db2)
          ≡ₚ compiled_patterns (load_nlp_resources db1) ++ extra) as Hpats.
  { cbn [load_nlp_resources compiled_patterns].
    unfold KeywordDatabase.get_patterns.
    rewrite (sort_desc_perm_any _ (KeywordDatabase.phrase_patterns db2)).
    rewrite (sort_desc_perm_any _ (KeywordDatabase.phrase_patterns db1)).
    by rewrite Hpat. }
  assert (matched_keywords f2 = matched_keywords f1) as Hmk
    by by rewrite Hk2, Hk1, Hkeys.
  assert (matched_hashtags f2 = matched_hashtags f1) as Hmh
    by by rewrite Hh2, Hh1, Htags.
  assert (matched_patterns f2 ≡ₚ matched_patterns f1 ++ again) as Hmp.
  { rewrite Hp2, Hp1. unfold again. rewrite <- omap_app.
    by apply omap_Permutation. }
  split; [exact Hmk|]. split; [exact Hmh|]. split; [exact Hmp|].
  rewrite Ht2, Ht1, Hmk, Hmh.
  rewrite (Qsum_perm _ _ (fmap_Permutation snd _ _ Hmp)).
  rewrite fmap_app, Qsum_app. ring.
Qed.

(** X29. Every further opening of the store raises the score of pattern
    matches.  With a scorer built after a second opening, a text matches
    the same keywords and hashtags as before, but every shipped pattern
    it matches is recorded once more, and the severity total grows by the
    severities of the shipped patterns matched. *)
Theorem reopening_inflates_pattern_scores db0 t0 t1 content now :
  let db1 := KeywordDatabase.load_initial_keywords db0 t0 in
  let db2 := KeywordDatabase.load_initial_keywords db1 t1 in
  let f1 := (extract_features (load_nlp_resources db1) db1 content now).1 in
  let f2 := (extract_features (load_nlp_resources db2) db2 content now).1 in
  let again := omap (pattern_match content) KeywordDatabase.initial_patterns in
  matched_keywords f2 = matched_keywords f1
  /\ matched_hashtags f2 = matched_hashtags f1
  /\ matched_patterns f2 ≡ₚ matched_patterns f1 ++ again
  /\ (total_severity f2 == total_severity f1 + Qsum (snd <$> again))%Q.
Proof.
  intros db1 db2.
  assert (db2 = foldl (KeywordDatabase.insert_or_ignore_pattern t1) db1
                      KeywordDatabase.initial_patterns) as Hdb2
    by apply load_again.
  destruct (pattern_inserts t1 KeywordDatabase.initial_patterns db1)
    as (Hkw & _ & Hht & _ & Hpat & _).
  cbv zeta in Hkw, Hht, Hpat. rewrite <- Hdb2 in Hkw, Hht, Hpat.
  clearbody db2. clearbody db1.
  apply more_patterns_more_score; [exact Hkw|exact Hht|].
  by rewrite Hpat, fmap_app, appended_patterns_rules.
Qed.

End ReopenedScores.

Section ReportCampaigns.
Import RealTimeMonitor CoordinatedCampaignDetector.

(** X30. The monitor stamps a detection with the clock reading of its
    arrival, microseconds included, and the campaign driver groups by
    date and microsecond.  So unless three detections of the last 24
    hours carry the same date and the same microsecond, the threat report
    lists no coordinated campaign and counts none, however many
    detections it covers. *)
Theorem report_misses_campaigns (self : RealTimeMonitor.t)
    (detections_now alerts_now report_now : datetime) :
  let recent := get_recent_detections self 24 detections_now in
  (forall k, (length (in_window k recent) < 3)%nat) ->
  exists rep,
    generate_threat_report self detections_now alerts_now report_now = Ok rep
    /\ coordinated_campaigns rep = []
    /\ sm_coordinated_campaigns (rp_summary rep) = 0%nat
    /\ total_detections_24h (rp_summary rep) = length recent.
Proof.
  intros recent Hsmall.
  assert (detect_coordinated_campaigns recent = Ok []) as Hnone.
  { destruct (driver_windows_aux recent) as (cs & Hcs & Hmem).
    rewrite Hcs. f_equal. destruct cs as [|c cs]; [done|].
    destruct (proj1 (Hmem c)) as (k & found & Hlen & _); [left|].
    specialize (Hsmall k). lia. }
  unfold generate_threat_report. fold recent. rewrite Hnone.
  cbn. eexists. split; [reflexivity|]. done.
Qed.

End ReportCampaigns.

(** A monitor holding the five same-day posts of [five_posts]. *)
Definition busy_monitor : RealTimeMonitor.t :=
  {| RealTimeMonitor.detected_contents := five_posts;
     RealTimeMonitor.alerts := [] |}.

Lemma report_misses_campaigns_witness :
  let now := at_time 739000 21 0 0 0 in
  (forall k, (length (in_window k
                        (RealTimeMonitor.get_recent_detections busy_monitor
                           24 now)) < 3)%nat)
  /\ exists rep,
       RealTimeMonitor.generate_threat_report busy_monitor now now now
       = Ok rep
       /\ RealTimeMonitor.coordinated_campaigns rep = []
       /\ RealTimeMonitor.sm_coordinated_campaigns
            (RealTimeMonitor.rp_summary rep) = 0%nat
       /\ RealTimeMonitor.total_detections_24h
            (RealTimeMonitor.rp_summary rep)
          = length (RealTimeMonitor.get_recent_detections busy_monitor 24
                      now).
Proof.
  cbv zeta.
  assert (RealTimeMonitor.get_recent_detections busy_monitor 24
            (at_time 739000 21 0 0 0) = five_posts) as Hrecent
    by (vm_compute; reflexivity).
  assert (forall k, (length (in_window k
                       (RealTimeMonitor.get_recent_detections busy_monitor
                          24 (at_time 739000 21 0 0 0))) < 3)%nat) as Hsmall.
  { intros k. rewrite Hrecent. unfold in_window, five_posts.
    rewrite !filter_cons, filter_nil.
    cbn [timestamp post CoordinatedCampaignDetector.time_key at_time].
    repeat case_decide; cbn [length]; try lia; subst k; discriminate. }
  split; [exact Hsmall|].
  exact (report_misses_campaigns busy_monitor _ _ _ Hsmall).
Defined.
